(** * Orbit import pod: import-and-reconciliation pipeline

    Shallow embedding of [OrbitImportPod] and [OrbitUtils] (the pod that
    imports the members of an Orbit workspace as notes under [people.*]),
    followed by the properties of the identity resolver, the conflict
    detector, the planner, the sequential conflict resolver and the
    paginated fetcher. *)

From Stdlib Require Import ZArith String Ascii List Lia.
From stdpp Require Import base option list strings gmap.

Local Open Scope string_scope.
Local Open Scope list_scope.

(** ** JavaScript values held in front matter *)

(** The primitive values a front-matter field can hold.  Numbers are the
    integral ones; objects other than the [social] bag do not occur in the
    fields that the pod reads. *)
Inductive JsVal : Type :=
  | JUndefined
  | JNull
  | JString (s : string)
  | JNumber (z : Z)
  | JBool (b : bool).

#[global] Instance JsVal_eq_dec : EqDecision JsVal.
Proof. solve_decision. Defined.

(** [a === b] on primitives: same type and same value. *)
Definition strict_eq (a b : JsVal) : bool := bool_decide (a = b).

(** [a !== b]. *)
Definition strict_neq (a b : JsVal) : bool := negb (strict_eq a b).

(** [_.isNull] and [_.isUndefined]. *)
Definition isNull (v : JsVal) : bool :=
  match v with JNull => true | _ => false end.

Definition isUndefined (v : JsVal) : bool :=
  match v with JUndefined => true | _ => false end.

(** A [string | null] attribute seen as a JavaScript value. *)
Definition of_nullable (o : option string) : JsVal :=
  match o with Some s => JString s | None => JNull end.

(** ** Records of the external source *)

Module SocialKeys.
(** [enum SocialKeys]. *)
Inductive t : Type := github | discord | linkedin | twitter | email.

#[global] Instance eq_dec : EqDecision t.
Proof. solve_decision. Defined.

(** [Object.values(SocialKeys)]: the members in declaration order. *)
Definition values : list t := [github; discord; linkedin; twitter; email].
End SocialKeys.

(** The attributes of a member that are copied verbatim under
    [custom.orbit] ([tag_list] is always the empty array). *)
Record OrbitInfo : Type := {
  first_activity_occurred_at : string;
  last_activity_occurred_at : string;
  company : option string;
  orbit_level : Z;
  orbit_url : string;
  reach : Z;
  love : string;
  slug : string;
  shipping_address : option string;
  updated_at : string;
  activities_count : Z;
  avatar_url : string;
  birthday : option string;
  location : option string }.

#[global] Instance OrbitInfo_eq_dec : EqDecision OrbitInfo.
Proof. solve_decision. Defined.

Module Attributes.
(** [OrbitMemberData.attributes], restricted to the fields the pod
    reads.  [None] is [null]; [github] is not nullable.  [id] is the
    [attributes.id] that [membersToNotes] stores as [orbitId]; [cleanName]
    falls back to the [id] of the member itself. *)
Record t : Type := mk {
  id : string;
  name : option string;
  github : string;
  discord : option string;
  linkedin : option string;
  twitter : option string;
  email : option string;
  info : OrbitInfo }.

#[global] Instance eq_dec : EqDecision t.
Proof. solve_decision. Defined.

(** [attributes[key]] for a social key. *)
Definition get (a : t) (key : SocialKeys.t) : JsVal :=
  match key with
  | SocialKeys.github => JString (github a)
  | SocialKeys.discord => of_nullable (discord a)
  | SocialKeys.linkedin => of_nullable (linkedin a)
  | SocialKeys.twitter => of_nullable (twitter a)
  | SocialKeys.email => of_nullable (email a)
  end.
End Attributes.

(** [OrbitMemberData]. *)
Record OrbitMemberData : Type := {
  id : string;
  attributes : Attributes.t }.

#[global] Instance OrbitMemberData_eq_dec : EqDecision OrbitMemberData.
Proof. solve_decision. Defined.

(** ** Notes *)

Module SocialData.
(** The object stored under [custom.social]: one slot per social key; a
    slot that is not set reads as [undefined]. *)
Record t : Type := mk {
  github : JsVal;
  discord : JsVal;
  linkedin : JsVal;
  twitter : JsVal;
  email : JsVal }.

#[global] Instance eq_dec : EqDecision t.
Proof. solve_decision. Defined.

(** The empty object [{}]. *)
Definition empty : t := mk JUndefined JUndefined JUndefined JUndefined JUndefined.

(** [social[key]]. *)
Definition get (s : t) (key : SocialKeys.t) : JsVal :=
  match key with
  | SocialKeys.github => github s
  | SocialKeys.discord => discord s
  | SocialKeys.linkedin => linkedin s
  | SocialKeys.twitter => twitter s
  | SocialKeys.email => email s
  end.

(** [social[key] = v]. *)
Definition set (s : t) (key : SocialKeys.t) (v : JsVal) : t :=
  match key with
  | SocialKeys.github => mk v (discord s) (linkedin s) (twitter s) (email s)
  | SocialKeys.discord => mk (github s) v (linkedin s) (twitter s) (email s)
  | SocialKeys.linkedin => mk (github s) (discord s) v (twitter s) (email s)
  | SocialKeys.twitter => mk (github s) (discord s) (linkedin s) v (email s)
  | SocialKeys.email => mk (github s) (discord s) (linkedin s) (twitter s) v
  end.
End SocialData.

(** The object stored under [custom.orbit]. *)
Record OrbitData : Type := {
  orbit_info : OrbitInfo;
  orbit_name : option string;
  last_imported_to_dendron : string }.

#[global] Instance OrbitData_eq_dec : EqDecision OrbitData.
Proof. solve_decision. Defined.

Module Custom.
(** The custom front matter of a note (and the [frontmatter] of the pod
    configuration): the three keys the pod writes, each possibly absent,
    and every other key in [extra].  An absent (or falsy) [social] is
    [None]. *)
Record t : Type := mk {
  orbitId : option string;
  social : option SocialData.t;
  orbit : option OrbitData;
  extra : gmap string JsVal }.

#[global] Instance eq_dec : EqDecision t.
Proof. solve_decision. Defined.

(** The empty object. *)
Definition empty : t := mk None None None ∅.

(** [{ ...a, ...b }]: the keys of [b] win. *)
Definition spread (a b : t) : t :=
  mk (from_option Some (orbitId a) (orbitId b))
     (from_option Some (social a) (social b))
     (from_option Some (orbit a) (orbit b))
     (extra b ∪ extra a).

(** [c.social = s]. *)
Definition set_social (c : t) (s : SocialData.t) : t :=
  mk (orbitId c) (Some s) (orbit c) (extra c).
End Custom.

(** [NoteProps], restricted to the fields the pod reads or writes.  [custom]
    is optional in [DNodeProps]. *)
Record NoteProps : Type := {
  fname : string;
  vault : string;
  body : string;
  custom : option Custom.t }.

#[global] Instance NoteProps_eq_dec : EqDecision NoteProps.
Proof. solve_decision. Defined.

(** [note.custom = c]. *)
Definition set_custom (n : NoteProps) (c : Custom.t) : NoteProps :=
  {| fname := fname n; vault := vault n; body := body n; custom := Some c |}.

(** [note.fname = f]. *)
Definition set_fname (n : NoteProps) (f : string) : NoteProps :=
  {| fname := f; vault := vault n; body := body n; custom := custom n |}.

(** ** OrbitUtils *)

Module OrbitUtils.

(** [s.split("@")[0]]: the part of [s] before its first ["@"], all of
    [s] when it has none. *)
Fixpoint split_at_0 (s : string) : string :=
  match s with
  | EmptyString => EmptyString
  | String c rest =>
      if Ascii.eqb c "@"%char then EmptyString else String c (split_at_0 rest)
  end.

(** Truthiness of a [string | null | undefined]. *)
Definition truthy (o : option string) : bool :=
  match o with
  | Some s => negb (String.eqb s "")
  | None => false
  end.

(** [getNameFromEmail]; [None] is the [undefined] of the bare [return]. *)
Definition getNameFromEmail (email : option string) : option string :=
  match email with
  | Some e => if truthy (Some e) then Some (split_at_0 e) else None
  | None => None
  end.

(** [a || b] between nullable strings. *)
Definition or_ (a b : option string) : option string :=
  if truthy a then a else b.

(** [a || b] when [b] is a string. *)
Definition or_str (a : option string) (b : string) : string :=
  match a with
  | Some s => if truthy a then s else b
  | None => b
  end.

(** [getSocialAttributes]: copies [member.attributes[k]] for each social
    key. *)
Definition getSocialAttributes (member : OrbitMemberData) : SocialData.t :=
  fold_left
    (fun out k => SocialData.set out k (Attributes.get (attributes member) k))
    SocialKeys.values SocialData.empty.

Section CleanName.
(** [DNodeUtils.cleanFname], the file-name sanitizer of [common-all]. *)
Variable cleanFname : string -> string.

(** The name before sanitizing:
    [name || github || discord || twitter || getNameFromEmail(email) || orbitId]. *)
Definition noteName (member : OrbitMemberData) : string :=
  let a := attributes member in
  or_str
    (or_ (or_ (or_ (or_ (Attributes.name a) (Some (Attributes.github a)))
                   (Attributes.discord a))
              (Attributes.twitter a))
         (getNameFromEmail (Attributes.email a)))
    (id member).

(** [cleanName]. *)
Definition cleanName (member : OrbitMemberData) : string :=
  cleanFname (noteName member).
End CleanName.

End OrbitUtils.

(** ** Errors and results *)

(** [ERROR_SEVERITY] of [common-all]. *)
Inductive ERROR_SEVERITY : Type := MINOR | FATAL.

(** What [axios.get] throws: a transport failure, or a response whose
    status is outside 2xx. *)
Inductive AxiosError : Type :=
  | NetworkError (msg : string)
  | BadStatus (status : Z).

(** The exceptions a run can end with. *)
Inductive Exn : Type :=
  | DendronError (message : string) (severity : ERROR_SEVERITY)
  | UncaughtAxiosError (e : AxiosError)
  | TypeError (msg : string).

(** Outcome of a call that either returns or throws. *)
Inductive Result (A : Type) : Type :=
  | Ok (a : A)
  | Throw (e : Exn).
Arguments Ok {A} a.
Arguments Throw {A} e.

(** ** Configuration, conflicts and the outside world *)

(** [OrbitImportPodConfig]: the pod options and the two options of
    [ImportPodConfig] that the pod reads.  An unset [overwriteAll] is
    [false]; an unset [frontmatter] spreads as the empty object. *)
Record OrbitImportPodConfig : Type := {
  workspaceSlug : string;
  token : string;
  orbitId : option string;
  overwriteAll : bool;
  destName : option string;
  frontmatter : option Custom.t }.

(** [Conflict] of [common-all]. *)
Record Conflict : Type := {
  conflictNote : NoteProps;
  conflictEntry : NoteProps;
  conflictData : list SocialKeys.t }.

#[global] Instance Conflict_eq_dec : EqDecision Conflict.
Proof. solve_decision. Defined.

(** [conflict.conflictEntry.fname = f]. *)
Definition set_entry_fname (c : Conflict) (f : string) : Conflict :=
  {| conflictNote := conflictNote c;
     conflictEntry := set_fname (conflictEntry c) f;
     conflictData := conflictData c |}.

Module MergeConflictOptions.
(** What the decision source answers: one of the three options of
    [MergeConflictOptions], or anything else ([undefined] included). *)
Inductive t : Type := OVERWRITE_LOCAL | SKIP | SKIP_ALL | Unrecognized.

#[global] Instance eq_dec : EqDecision t.
Proof. solve_decision. Defined.
End MergeConflictOptions.

(** The calls the pod issues on the engine. *)
Inductive EngineCall : Type :=
  | WriteNote (note : NoteProps)
  | BulkAddNotes (notes : list NoteProps).

(** The engine: its mode, the notes of the vault by name, and the calls
    received so far (oldest first).  The notes of the store are objects
    that the pod shares with it: a lookup hands out the store's own note,
    not a copy, so that what the pod changes in place in a note it has
    looked up shows in the store and in every other holder of that note,
    without any call on the engine.  A note of the store is known by the
    name it is filed under, which is its own name ([store_wf] below). *)
Record Engine : Type := {
  fastMode : bool;
  notes : gmap string NoteProps;
  calls : list EngineCall }.

(** Modelled from the spec: [engine.writeNote(note, {updateExisting: true})]
    is not part of the pod; the store contract is [update(node)] with
    last-writer-wins per node name. *)
Definition writeNote (note : NoteProps) (engine : Engine) : Engine :=
  {| fastMode := fastMode engine;
     notes := <[fname note := note]> (notes engine);
     calls := calls engine ++ [WriteNote note] |}.

(** Modelled from the spec: [engine.bulkAddNotes({notes})] is not part of
    the pod; the store contract is one batch [bulkCreate(nodes)], the nodes
    being stored in the order given. *)
Definition bulkAddNotes (ns : list NoteProps) (engine : Engine) : Engine :=
  {| fastMode := fastMode engine;
     notes := fold_left (fun m n => <[fname n := n]> m) ns (notes engine);
     calls := calls engine ++ [BulkAddNotes ns] |}.

(** Modelled from the spec: [FileUtils.getNoteByFile] and
    [NoteUtils.getNoteByFnameV5] are not part of the pod; the store contract
    is [lookupByName(name, vault)], a node or absent.  The node is the
    store's own (existing nodes are mutated in place). *)
Definition getNoteByFile (fname : string) (engine : Engine) : option NoteProps :=
  notes engine !! fname.

Definition getNoteByFnameV5 (fname : string) (ns : gmap string NoteProps)
  : option NoteProps :=
  ns !! fname.

(** A note that was looked up, as it is now: what a holder of the note
    reads from it after the changes made in place since the lookup.  The
    note is the one the store holds under its name. *)
Definition current (note : NoteProps) (engine : Engine) : NoteProps :=
  default note (notes engine !! fname note).

(** A note of the store after a change in place, [note] being the note as
    changed: the store holds the changed note, and the engine has received
    no call. *)
Definition changed_in_place (note : NoteProps) (engine : Engine) : Engine :=
  {| fastMode := fastMode engine;
     notes := <[fname note := note]> (notes engine);
     calls := calls engine |}.

(** Modelled from the spec: [NoteUtils.create] is not part of the pod; it
    synthesizes a node with the given name, vault and custom metadata, and
    the given body or an empty one. *)
Definition NoteUtils_create (fname vault : string) (custom : Custom.t)
    (body : option string) : NoteProps :=
  {| fname := fname; vault := vault; body := default "" body;
     custom := Some custom |}.

(** An HTTP GET: the address and the bearer token. *)
Record Request : Type := {
  url : string;
  authorization : string }.

(** The body of a members listing: [response.data.data] and
    [response.data.links.next] ([None] is [null]). *)
Record Page : Type := {
  data : list OrbitMemberData;
  links_next : option string }.

(** The world outside the engine: the requests sent and the conflicts put
    to the decision source so far (oldest first). *)
Record World : Type := {
  requests : list Request;
  prompts : list (option Conflict);
  engine : Engine }.

Definition with_engine (w : World) (e : Engine) : World :=
  {| requests := requests w; prompts := prompts w; engine := e |}.

Definition with_request (w : World) (r : Request) : World :=
  {| requests := requests w ++ [r]; prompts := prompts w; engine := engine w |}.

Definition with_prompt (w : World) (c : option Conflict) : World :=
  {| requests := requests w; prompts := prompts w ++ [c]; engine := engine w |}.

(** ** OrbitImportPod *)

Module OrbitImportPod.

(** [getConflictedData]: the social keys of the note whose value is set
    and differs from the member's. *)
Definition getConflictedData (note : NoteProps) (orbitMember : OrbitMemberData)
  : list SocialKeys.t :=
  let customKeys := SocialKeys.values in
  match custom note with
  | None => []
  | Some c =>
      match Custom.social c with
      | None => []
      | Some social =>
          List.filter
            (fun key =>
               let noteSocialValue := SocialData.get social key in
               forallb (fun fn : JsVal -> bool => negb (fn noteSocialValue))
                       [isNull; isUndefined]
               && strict_neq (Attributes.get (attributes orbitMember) key)
                             (SocialData.get social key))
            customKeys
      end
  end.

(** The body of the [forEach] of [updateNoteData]: the social bag and the
    [shouldUpdate] flag after one key. *)
Definition adopt (social : Attributes.t) (st : SocialData.t * bool)
    (key : SocialKeys.t) : SocialData.t * bool :=
  let '(noteSocial, shouldUpdate) := st in
  if strict_eq (SocialData.get noteSocial key) JNull
     && strict_neq (Attributes.get social key) JNull
  then (SocialData.set noteSocial key (Attributes.get social key), true)
  else (noteSocial, shouldUpdate).

(** [updateNoteData] on the note as it is when the call is made: returns
    the note as left by the in-place updates, or throws when [note.custom]
    is missing; the engine is written to when [shouldUpdate] was raised. *)
Definition updateNoteData (note : NoteProps) (orbitMember : OrbitMemberData)
    (engine : Engine) : Result NoteProps * Engine :=
  let customKeys := SocialKeys.values in
  let social := attributes orbitMember in
  match custom note with
  | None =>
      (Throw (TypeError "Cannot read properties of undefined (reading 'social')"),
       engine)
  | Some c =>
      let init := default SocialData.empty (Custom.social c) in
      let '(noteSocial, shouldUpdate) :=
        fold_left (adopt social) customKeys (init, false) in
      let note' := set_custom note (Custom.set_social c noteSocial) in
      if shouldUpdate then (Ok note', writeNote note' engine)
      else (Ok note', engine)
  end.

(** What [membersToNotes] collects while it maps over the members. *)
Record Buckets : Type := {
  conflicts : list Conflict;
  create : list NoteProps;
  notesToUpdate : list (NoteProps * OrbitMemberData) }.

Definition no_buckets : Buckets :=
  {| conflicts := []; create := []; notesToUpdate := [] |}.

(** [config.destName ? config.destName : `people.${noteName}`]. *)
Definition lookup_fname (config : OrbitImportPodConfig) (noteName : string)
  : string :=
  if OrbitUtils.truthy (destName config)
  then default "" (destName config)
  else "people." +:+ noteName.

(** The request [getMembersFromOrbit] sends for a link: the link itself,
    or the first page of the workspace when the link is empty. *)
Definition members_request (token workspaceSlug link : string) : Request :=
  let link :=
    if (0 <? String.length link)%nat then link
    else "https://app.orbit.love/api/v1/" +:+ workspaceSlug
         +:+ "/members?items=100" in
  {| url := link; authorization := "Bearer " +:+ token |}.

Section Pod.
(** [DNodeUtils.cleanFname]. *)
Variable cleanFname : string -> string.
(** [stringifyError]. *)
Variable stringifyError : AxiosError -> string.
(** [DateTime.now().toISO()] and [Time.now().toFormat("y.MM.dd")]. *)
Variable now_iso : string.
Variable today : string.
(** [axios.get] on a members listing and on a single member: the answer
    to a request, given the requests made before it. *)
Variable axios_get_members : list Request -> Request -> AxiosError + Page.
Variable axios_get_member : list Request -> Request -> AxiosError + OrbitMemberData.
(** [handleConflict]: the answer of the decision source on a conflict,
    given the conflicts put to it before ([None] is [undefined]). *)
Variable handleConflict :
  list (option Conflict) -> option Conflict -> MergeConflictOptions.t.

(** The [orbitData] built for a member. *)
Definition orbitData (member : OrbitMemberData) : Custom.t :=
  let a := attributes member in
  Custom.mk
    (Some (Attributes.id a))
    (Some (OrbitUtils.getSocialAttributes member))
    (Some {| orbit_info := Attributes.info a;
             orbit_name := Attributes.name a;
             last_imported_to_dendron := now_iso |})
    ∅.

(** The note looked up for a member. *)
Definition lookup_note (config : OrbitImportPodConfig) (engine : Engine)
    (noteName : string) : option NoteProps :=
  let fname := lookup_fname config noteName in
  if fastMode engine
  then getNoteByFile fname engine
  else getNoteByFnameV5 ("people." +:+ noteName) (notes engine).

(** The body of the [members.map] in [membersToNotes]. *)
Definition plan_member (vault : string) (engine : Engine)
    (config : OrbitImportPodConfig) (b : Buckets) (member : OrbitMemberData)
  : Buckets :=
  let noteName := OrbitUtils.cleanName cleanFname member in
  let fm := default Custom.empty (frontmatter config) in
  match lookup_note config engine noteName with
  | Some note =>
      let conflictData := getConflictedData note member in
      if (0 <? length conflictData)%nat then
        let fname := "people.orbit.duplicate." +:+ today +:+ "." +:+ noteName in
        {| conflicts := conflicts b ++
             [ {| conflictNote := note;
                  conflictEntry :=
                    NoteUtils_create fname vault
                      (Custom.spread
                         (Custom.spread fm (default Custom.empty (custom note)))
                         (orbitData member))
                      (Some (body note));
                  conflictData := conflictData |} ];
           create := create b;
           notesToUpdate := notesToUpdate b |}
      else
        {| conflicts := conflicts b;
           create := create b;
           notesToUpdate := notesToUpdate b ++ [(note, member)] |}
  | None =>
      let fname := "people." +:+ noteName in
      {| conflicts := conflicts b;
         create := create b ++
           [ NoteUtils_create fname vault
               (Custom.spread fm (orbitData member)) None ];
         notesToUpdate := notesToUpdate b |}
  end.

(** The three buckets once [members.map] is over. *)
Definition plan_members (members : list OrbitMemberData) (vault : string)
    (engine : Engine) (config : OrbitImportPodConfig) : Buckets :=
  fold_left (plan_member vault engine config) members no_buckets.

(** One update of the [Promise.all] over [notesToUpdate].  [note] is the
    note that the planner looked up: [updateNoteData] works on that very
    object, which earlier updates of the same note have changed in place,
    and what it changes in place shows in the store.  [err] is the first
    error thrown so far. *)
Definition update_one (st : option Exn * Engine)
    (u : NoteProps * OrbitMemberData) : option Exn * Engine :=
  let '(err, eng) := st in
  let '(note, member) := u in
  match updateNoteData (current note eng) member eng with
  | (Ok note', eng') => (err, changed_in_place note' eng')
  | (Throw e, eng') => (from_option Some (Some e) err, eng')
  end.

(** The [Promise.all] over [notesToUpdate]: every update is started, in
    order; the first one that throws, if any, is what the whole
    rejects with. *)
Definition update_all (us : list (NoteProps * OrbitMemberData))
    (engine : Engine) : option Exn * Engine :=
  fold_left update_one us (None, engine).

(** A conflict as its holder reads it once the updates are over: its
    [conflictNote] is the note that was looked up, with what the updates of
    that same note have changed in it. *)
Definition as_it_is (engine : Engine) (c : Conflict) : Conflict :=
  {| conflictNote := current (conflictNote c) engine;
     conflictEntry := conflictEntry c;
     conflictData := conflictData c |}.

(** [membersToNotes]. *)
Definition membersToNotes (members : list OrbitMemberData) (vault : string)
    (engine : Engine) (config : OrbitImportPodConfig)
  : Result (list NoteProps * list Conflict) * Engine :=
  let b := plan_members members vault engine config in
  match update_all (notesToUpdate b) engine with
  | (None, engine') => (Ok (create b, as_it_is engine' <$> conflicts b), engine')
  | (Some e, engine') => (Throw e, engine')
  end.

(** The tail of [onConflict]: recurse on the next index while
    [index < conflicts.length - 1], return the resolved notes otherwise. *)
Definition advance {A : Type}
    (recurse : list Conflict -> nat -> World -> option (Result A * World))
    (conflictResolvedNotes : A)
    (conflicts : list Conflict) (index : nat) (w : World)
  : option (Result A * World) :=
  if (Z.of_nat index <? Z.of_nat (length conflicts) - 1)%Z
  then recurse conflicts (index + 1)%nat w
  else Some (Ok conflictResolvedNotes, w).

(** [onConflict].  The recursion is bounded by [fuel] ([None] when it
    runs out); [conflicts] is the shared array, whose entries are
    renamed in place. *)
Fixpoint onConflict (fuel : nat) (conflicts : list Conflict) (index : nat)
    (config : OrbitImportPodConfig) (conflictResolvedNotes : list NoteProps)
    (w : World) : option (Result (list NoteProps) * World) :=
  match fuel with
  | O => None
  | S fuel' =>
      let conflict := conflicts !! index in
      let '(resp, w1) :=
        if overwriteAll config
        then (MergeConflictOptions.OVERWRITE_LOCAL, w)
        else (handleConflict (prompts w) conflict, with_prompt w conflict) in
      let recurse := fun cs i w' =>
        onConflict fuel' cs i config conflictResolvedNotes w' in
      match resp with
      | MergeConflictOptions.OVERWRITE_LOCAL =>
          match conflict with
          | None =>
              (Some (Throw (TypeError
                 "Cannot read properties of undefined (reading 'conflictEntry')"),
               w1))
          | Some c =>
              let c' := set_entry_fname c (fname (conflictNote c)) in
              advance recurse conflictResolvedNotes
                (<[index := c']> conflicts) index
                (with_engine w1 (writeNote (conflictEntry c') (engine w1)))
          end
      | MergeConflictOptions.SKIP =>
          advance recurse conflictResolvedNotes conflicts index w1
      | MergeConflictOptions.SKIP_ALL =>
          advance recurse conflictResolvedNotes conflicts (length conflicts) w1
      | MergeConflictOptions.Unrecognized =>
          advance recurse conflictResolvedNotes conflicts index w1
      end
  end.

(** [getMembersFromOrbit]: one page of members and the link to the next
    one. *)
Definition getMembersFromOrbit (token workspaceSlug link : string) (w : World)
  : Result (list OrbitMemberData * option string) * World :=
  let request := members_request token workspaceSlug link in
  match axios_get_members (requests w) request with
  | inr response =>
      (Ok (fold_left
             (fun '(members, next) member =>
                (members ++ [member], links_next response))
             (data response) ([], None)),
       with_request w request)
  | inl error =>
      (Throw (DendronError (stringifyError error) MINOR),
       with_request w request)
  end.

(** The [while (next !== null)] loop of [getAllMembers], bounded by
    [fuel] page fetches ([None] when it runs out). *)
Fixpoint getAllMembers_loop (fuel : nat) (token workspaceSlug : string)
    (next : option string) (members : list OrbitMemberData) (w : World)
  : option (Result (list OrbitMemberData) * World) :=
  match next with
  | None => Some (Ok members, w)
  | Some link =>
      match fuel with
      | O => None
      | S fuel' =>
          match getMembersFromOrbit token workspaceSlug link w with
          | (Ok (ms, next'), w') =>
              getAllMembers_loop fuel' token workspaceSlug next'
                (members ++ ms) w'
          | (Throw e, w') => Some (Throw e, w')
          end
      end
  end.

(** [getAllMembers]. *)
Definition getAllMembers (fuel : nat) (config : OrbitImportPodConfig)
    (w : World) : option (Result (list OrbitMemberData) * World) :=
  getAllMembers_loop fuel (token config) (workspaceSlug config) (Some "") [] w.

(** [getSingleMember], through [OrbitUtils.getMember]: nothing catches
    what [axios.get] throws. *)
Definition getSingleMember (config : OrbitImportPodConfig) (orbitId : string)
    (w : World) : Result (list OrbitMemberData) * World :=
  let link := "https://app.orbit.love/api/v1/" +:+ workspaceSlug config
              +:+ "/members/" +:+ orbitId in
  let request := {| url := link; authorization := "Bearer " +:+ token config |} in
  match axios_get_member (requests w) request with
  | inr member => (Ok [member], with_request w request)
  | inl error => (Throw (UncaughtAxiosError error), with_request w request)
  end.

(** The part of [plant] that follows the fetch of the members: plan,
    update, create in bulk, then resolve the conflicts. *)
Definition plant_members (members : list OrbitMemberData) (vault : string)
    (config : OrbitImportPodConfig) (w1 : World)
  : option (Result (list NoteProps) * World) :=
  match membersToNotes members vault (engine w1) config with
  | (Throw e, engine') => Some (Throw e, with_engine w1 engine')
  | (Ok (create, conflicts), engine') =>
      let conflictNoteArray := map conflictNote conflicts in
      let w2 := with_engine w1 (bulkAddNotes create engine') in
      if (0 <? length conflicts)%nat then
        match
          onConflict (length conflicts) conflicts 0 config
            conflictNoteArray w2
        with
        | None => None
        | Some (Throw e, w3) => Some (Throw e, w3)
        | Some (Ok conflictResolvedNotes, w3) =>
            Some (Ok (create ++ conflictResolvedNotes), w3)
        end
      else Some (Ok (create ++ []), w2)
  end.

(** [plant]: the imported notes, or what the run threw; [fuel] bounds
    the number of pages fetched. *)
Definition plant (fuel : nat) (vault : string) (config : OrbitImportPodConfig)
    (w : World) : option (Result (list NoteProps) * World) :=
  match
    match orbitId config with
    | Some orbitId => Some (getSingleMember config orbitId w)
    | None => getAllMembers fuel config w
    end
  with
  | None => None
  | Some (Throw e, w1) => Some (Throw e, w1)
  | Some (Ok members, w1) => plant_members members vault config w1
  end.
End Pod.

(** What [validateMergeConflictResponse] returns: [true], or a message. *)
Inductive Validation : Type :=
  | Valid
  | Invalid (message : string).

(** [options[choice]] for an integral [choice]: [undefined] ([None]) when
    [choice] is negative or not below the length. *)
Definition option_at (options : list string) (choice : Z) : option string :=
  if (0 <=? choice)%Z then options !! Z.to_nat choice else None.

(** [validateMergeConflictResponse]. *)
Definition validateMergeConflictResponse (choice : Z) (options : list string)
  : Validation :=
  if OrbitUtils.truthy (option_at options choice) then Valid
  else Invalid "Invalid Choice! Choose 0/1".

(** [getMergeConflictOptions]. *)
Definition getMergeConflictOptions : list MergeConflictOptions.t :=
  [ MergeConflictOptions.OVERWRITE_LOCAL;
    MergeConflictOptions.SKIP;
    MergeConflictOptions.SKIP_ALL ].
End OrbitImportPod.

(** * Specification-side definitions *)

(** The fallback chain in the words of the specification: the first
    non-empty candidate, and [fallback] when every candidate is empty. *)
Fixpoint first_non_empty (candidates : list string) (fallback : string) : string :=
  match candidates with
  | [] => fallback
  | c :: rest => if String.eqb c "" then first_non_empty rest fallback else c
  end.

(** The local part of an e-mail address, empty when there is no address. *)
Definition local_part (email : option string) : string :=
  OrbitUtils.split_at_0 (default "" email).

(** The social bag of a note, when it has one. *)
Definition social_of (note : NoteProps) : option SocialData.t :=
  custom note ≫= Custom.social.

(** A field is set when it is neither [null] nor [undefined]. *)
Definition is_set (v : JsVal) : Prop := v ≠ JNull ∧ v ≠ JUndefined.

(** A stretch of the pagination: starting with cursor [c] in world [w], the
    pages [pages] are fetched one after the other, each with the link the
    previous fetch returned, leaving cursor [c'] in world [w']. *)
Inductive paging
    (stringifyError : AxiosError -> string)
    (axios_get_members : list Request -> Request -> AxiosError + Page)
    (token workspaceSlug : string)
  : World -> option string -> list (list OrbitMemberData)
    -> option string -> World -> Prop :=
  | paging_nil (w : World) (c : option string) :
      paging stringifyError axios_get_members token workspaceSlug w c [] c w
  | paging_cons (w w1 w' : World) (link : string) (ms : list OrbitMemberData)
      (next c' : option string) (pages : list (list OrbitMemberData)) :
      OrbitImportPod.getMembersFromOrbit stringifyError axios_get_members
        token workspaceSlug link w = (Ok (ms, next), w1) ->
      paging stringifyError axios_get_members token workspaceSlug
        w1 next pages c' w' ->
      paging stringifyError axios_get_members token workspaceSlug
        w (Some link) (ms :: pages) c' w'.

(** * Sample data *)

Definition sample_info : OrbitInfo :=
  {| first_activity_occurred_at := "2021-01-01T00:00:00.000Z";
     last_activity_occurred_at := "2021-06-01T00:00:00.000Z";
     company := None;
     orbit_level := 1;
     orbit_url := "https://app.orbit.love/ws/members/x";
     reach := 0;
     love := "1.0";
     slug := "x";
     shipping_address := None;
     updated_at := "2021-06-01T00:00:00.000Z";
     activities_count := 3;
     avatar_url := "https://avatars/x";
     birthday := None;
     location := None |}.

(** [{id: "m1", attributes: {id: "attr-m1", name: null, github: "alice",
    email: "alice@x.com"}}]. *)
Definition alice : OrbitMemberData :=
  {| id := "m1";
     attributes :=
       Attributes.mk "attr-m1" None "alice" None None None
         (Some "alice@x.com") sample_info |}.

(** A member called [bob] whose github handle is [bob-new]. *)
Definition bob : OrbitMemberData :=
  {| id := "m2";
     attributes :=
       Attributes.mk "attr-m2" (Some "bob") "bob-new" None None None None
         sample_info |}.

(** A member called [carol] with a github handle and a twitter handle. *)
Definition carol : OrbitMemberData :=
  {| id := "m3";
     attributes :=
       Attributes.mk "attr-m3" (Some "carol") "carol" None None
         (Some "carol_t") None sample_info |}.

Definition sample_config : OrbitImportPodConfig :=
  {| workspaceSlug := "ws"; token := "secret"; orbitId := None;
     overwriteAll := false; destName := None; frontmatter := None |}.

Definition sample_engine : Engine :=
  {| fastMode := false; notes := ∅; calls := [] |}.

Definition sample_world : World :=
  {| requests := []; prompts := []; engine := sample_engine |}.

Definition first_page_url : string :=
  "https://app.orbit.love/api/v1/ws/members?items=100".

(** A workspace of two pages: [alice], then [bob]. *)
Definition two_pages (history : list Request) (r : Request) : AxiosError + Page :=
  if String.eqb (url r) first_page_url
  then inr {| data := [alice]; links_next := Some "https://orbit/page2" |}
  else if String.eqb (url r) "https://orbit/page2"
  then inr {| data := [bob]; links_next := None |}
  else inl (BadStatus 404).

(** A workspace whose second page is empty although it links to a third
    page, which holds [bob]. *)
Definition empty_second_page (history : list Request) (r : Request)
  : AxiosError + Page :=
  if String.eqb (url r) first_page_url
  then inr {| data := [alice]; links_next := Some "https://orbit/page2" |}
  else if String.eqb (url r) "https://orbit/page2"
  then inr {| data := []; links_next := Some "https://orbit/page3" |}
  else if String.eqb (url r) "https://orbit/page3"
  then inr {| data := [bob]; links_next := None |}
  else inl (BadStatus 404).

(** A workspace whose second page answers with status 500. *)
Definition failing_second_page (history : list Request) (r : Request)
  : AxiosError + Page :=
  if String.eqb (url r) first_page_url
  then inr {| data := [alice]; links_next := Some "https://orbit/page2" |}
  else inl (BadStatus 500).

Definition sample_stringifyError (e : AxiosError) : string :=
  match e with
  | NetworkError msg => msg
  | BadStatus _ => "Request failed"
  end.

(** The entry as committed on [OVERWRITE_LOCAL]: renamed to the name of the
    conflicted note. *)
Definition overwritten (c : Conflict) : NoteProps :=
  set_fname (conflictEntry c) (fname (conflictNote c)).

(** The resolver in the words of the specification: a plain walk over the
    queue.  Each entry gets its decision ([OVERWRITE_LOCAL] without asking
    when the overwrite-all flag is set); [OVERWRITE_LOCAL] commits the
    renamed entry, [SKIP_ALL] ends the walk, anything else moves on. *)
Fixpoint resolve_queue
    (handleConflict : list (option Conflict) -> option Conflict
                      -> MergeConflictOptions.t)
    (config : OrbitImportPodConfig) (queue : list Conflict) (w : World) : World :=
  match queue with
  | [] => w
  | c :: rest =>
      let '(resp, w1) :=
        if overwriteAll config
        then (MergeConflictOptions.OVERWRITE_LOCAL, w)
        else (handleConflict (prompts w) (Some c), with_prompt w (Some c)) in
      match resp with
      | MergeConflictOptions.OVERWRITE_LOCAL =>
          resolve_queue handleConflict config rest
            (with_engine w1 (writeNote (overwritten c) (engine w1)))
      | MergeConflictOptions.SKIP_ALL => w1
      | _ => resolve_queue handleConflict config rest w1
      end
  end.

(** The name under which a record's existing note is looked up. *)
Definition lookup_key (config : OrbitImportPodConfig) (engine : Engine)
    (noteName : string) : string :=
  if fastMode engine then OrbitImportPod.lookup_fname config noteName
  else "people." +:+ noteName.

(** The note synthesized for a record that has no note yet. *)
Definition created_note (cleanFname : string -> string) (now_iso vault : string)
    (config : OrbitImportPodConfig) (member : OrbitMemberData) : NoteProps :=
  NoteUtils_create ("people." +:+ OrbitUtils.cleanName cleanFname member) vault
    (Custom.spread (default Custom.empty (frontmatter config))
       (OrbitImportPod.orbitData now_iso member))
    None.

(** The conflict queued for a record whose note disagrees with it. *)
Definition queued_conflict (cleanFname : string -> string)
    (now_iso today vault : string) (config : OrbitImportPodConfig)
    (note : NoteProps) (member : OrbitMemberData) : Conflict :=
  {| conflictNote := note;
     conflictEntry :=
       NoteUtils_create
         ("people.orbit.duplicate." +:+ today +:+ "." +:+
          OrbitUtils.cleanName cleanFname member)
         vault
         (Custom.spread
            (Custom.spread (default Custom.empty (frontmatter config))
               (default Custom.empty (custom note)))
            (OrbitImportPod.orbitData now_iso member))
         (Some (body note));
     conflictData := OrbitImportPod.getConflictedData note member |}.

(** The bucket a record falls into. *)
Inductive Action : Type :=
  | ToCreate (note : NoteProps)
  | ToUpdate (note : NoteProps) (member : OrbitMemberData)
  | ToQueue (conflict : Conflict).

(** The planner in the words of the specification: look the record up;
    absent, create; present without conflicting keys, update; present with
    conflicting keys, queue. *)
Definition plan_action (cleanFname : string -> string)
    (now_iso today vault : string) (engine : Engine)
    (config : OrbitImportPodConfig) (member : OrbitMemberData) : Action :=
  match
    notes engine !! lookup_key config engine (OrbitUtils.cleanName cleanFname member)
  with
  | None => ToCreate (created_note cleanFname now_iso vault config member)
  | Some note =>
      match OrbitImportPod.getConflictedData note member with
      | [] => ToUpdate note member
      | _ :: _ =>
          ToQueue (queued_conflict cleanFname now_iso today vault config note member)
      end
  end.

Definition action_create (a : Action) : option NoteProps :=
  match a with ToCreate n => Some n | _ => None end.

Definition action_update (a : Action) : option (NoteProps * OrbitMemberData) :=
  match a with ToUpdate n m => Some (n, m) | _ => None end.

Definition action_queue (a : Action) : option Conflict :=
  match a with ToQueue c => Some c | _ => None end.

(** Whether a social key of a note is adopted from the record by
    [updateNoteData]. *)
Definition adoptable (social : SocialData.t) (a : Attributes.t)
    (key : SocialKeys.t) : bool :=
  strict_eq (SocialData.get social key) JNull
  && strict_neq (Attributes.get a key) JNull.

(** The value of a social key after [updateNoteData]. *)
Definition adopt_value (social : SocialData.t) (a : Attributes.t)
    (key : SocialKeys.t) : JsVal :=
  if adoptable social a key then Attributes.get a key
  else SocialData.get social key.

(** The social bag after [updateNoteData]. *)
Definition adopted (social : SocialData.t) (a : Attributes.t) : SocialData.t :=
  SocialData.mk
    (adopt_value social a SocialKeys.github)
    (adopt_value social a SocialKeys.discord)
    (adopt_value social a SocialKeys.linkedin)
    (adopt_value social a SocialKeys.twitter)
    (adopt_value social a SocialKeys.email).

(** The note after [updateNoteData]. *)
Definition updated_note (note : NoteProps) (member : OrbitMemberData) : NoteProps :=
  match custom note with
  | None => note
  | Some c =>
      set_custom note
        (Custom.set_social c
           (adopted (default SocialData.empty (Custom.social c))
              (attributes member)))
  end.

(** Whether [updateNoteData] writes the note. *)
Definition should_update (note : NoteProps) (member : OrbitMemberData) : bool :=
  match custom note with
  | None => false
  | Some c =>
      existsb
        (adoptable (default SocialData.empty (Custom.social c)) (attributes member))
        SocialKeys.values
  end.

(** The test of the conflict detector on one key. *)
Definition conflicting (social : SocialData.t) (a : Attributes.t)
    (key : SocialKeys.t) : bool :=
  forallb (fun fn : JsVal -> bool => negb (fn (SocialData.get social key)))
          [isNull; isUndefined]
  && strict_neq (Attributes.get a key) (SocialData.get social key).

Definition sample_cleanFname (s : string) : string := s.

(** A note for [carol] whose social bag only has the github key. *)
Definition carol_partial : NoteProps :=
  {| fname := "people.carol"; vault := "vault"; body := "";
     custom :=
       Some (Custom.mk (Some "m3")
               (Some (SocialData.mk (JString "carol") JUndefined JUndefined
                        JUndefined JUndefined))
               None ∅) |}.

(** A note for [carol] that has custom front matter but no social bag. *)
Definition carol_bare : NoteProps :=
  {| fname := "people.carol"; vault := "vault"; body := "";
     custom := Some (Custom.mk (Some "m3") None None ∅) |}.

(** A note for [carol] whose twitter key is [null]. *)
Definition carol_null : NoteProps :=
  {| fname := "people.carol"; vault := "vault"; body := "";
     custom :=
       Some (Custom.mk (Some "m3")
               (Some (SocialData.mk (JString "carol") JNull JNull JNull JNull))
               None ∅) |}.


(** A configuration with an override destination name. *)
Definition dest_config : OrbitImportPodConfig :=
  {| workspaceSlug := "ws"; token := "secret"; orbitId := None;
     overwriteAll := false; destName := Some "people.everyone";
     frontmatter := None |}.

(** A single-member endpoint that knows nobody. *)
Definition no_member (history : list Request) (r : Request)
  : AxiosError + OrbitMemberData :=
  inl (BadStatus 404).

(** Decision sources that always give the same answer. *)
Definition always_skip (history : list (option Conflict)) (c : option Conflict)
  : MergeConflictOptions.t :=
  MergeConflictOptions.SKIP.

(** A decision source that overwrites the first entry, skips all at the
    second, and would overwrite any later one. *)
Definition skip_all_at_second (history : list (option Conflict))
    (c : option Conflict) : MergeConflictOptions.t :=
  match length history with
  | 1%nat => MergeConflictOptions.SKIP_ALL
  | _ => MergeConflictOptions.OVERWRITE_LOCAL
  end.

(** The engine after a series of [writeNote] calls. *)
Definition write_all (ns : list NoteProps) (e : Engine) : Engine :=
  fold_left (fun e n => writeNote n e) ns e.

(** The note that the update of a pair of the update bucket writes, if
    any. *)
Definition update_write (u : NoteProps * OrbitMemberData) : option NoteProps :=
  if should_update u.1 u.2 then Some (updated_note u.1 u.2) else None.

(** Every entry of the queue is resolved with [OVERWRITE_LOCAL]: by the
    overwrite-all flag, or by the answers of the decision source, [p] being
    what it was asked before. *)
Definition answers_overwrite
    (handleConflict : list (option Conflict) -> option Conflict
                      -> MergeConflictOptions.t)
    (config : OrbitImportPodConfig) (p : list (option Conflict))
    (queue : list Conflict) : Prop :=
  overwriteAll config = true
  ∨ ∀ (i : nat) (c : Conflict),
      queue !! i = Some c ->
      handleConflict (p ++ (Some <$> take i queue)) (Some c)
      = MergeConflictOptions.OVERWRITE_LOCAL.

(** The store files every note under its own name. *)
Definition store_wf (store : gmap string NoteProps) : Prop :=
  map_Forall (fun (k : string) (n : NoteProps) => fname n = k) store.

(** A note that a record neither conflicts with nor updates. *)
Definition settled (note : NoteProps) (member : OrbitMemberData) : Prop :=
  OrbitImportPod.getConflictedData note member = []
  ∧ is_Some (custom note)
  ∧ should_update note member = false.

(** The note that a run with every conflict overwritten leaves in the
    store for a record: the created note, the note updated in place, or
    the renamed entry. *)
Definition action_write (a : Action) : option NoteProps :=
  match a with
  | ToCreate n => Some n
  | ToUpdate note member => Some (updated_note note member)
  | ToQueue c => Some (overwritten c)
  end.

(** The note [people.bob] of the store, with github handle [bob-old]. *)
Definition bob_existing : NoteProps :=
  {| fname := "people.bob"; vault := "vault"; body := "Notes on Bob";
     custom :=
       Some (Custom.mk (Some "m2")
               (Some (SocialData.mk (JString "bob-old") JNull JNull JNull JNull))
               None ∅) |}.

Definition alice_existing : NoteProps :=
  {| fname := "people.alice"; vault := "vault"; body := "";
     custom :=
       Some (Custom.mk (Some "m1")
               (Some (SocialData.mk (JString "alice-old") JNull JNull JNull
                        (JString "alice@x.com")))
               None ∅) |}.

Definition carol_existing : NoteProps :=
  {| fname := "people.carol"; vault := "vault"; body := "";
     custom :=
       Some (Custom.mk (Some "m3")
               (Some (SocialData.mk (JString "carol") JNull JNull
                        (JString "old_t") JNull))
               None ∅) |}.

(** A store that only holds [people.bob]. *)
Definition bob_engine : Engine :=
  {| fastMode := false; notes := {[ "people.bob" := bob_existing ]}; calls := [] |}.

Definition bob_world : World :=
  {| requests := []; prompts := []; engine := bob_engine |}.

(** A store whose three notes all disagree with the incoming records. *)
Definition conflicted_engine : Engine :=
  {| fastMode := false;
     notes := <[ "people.alice" := alice_existing ]>
                (<[ "people.bob" := bob_existing ]>
                   {[ "people.carol" := carol_existing ]});
     calls := [] |}.

Definition overwrite_config : OrbitImportPodConfig :=
  {| workspaceSlug := "ws"; token := "secret"; orbitId := None;
     overwriteAll := true; destName := None; frontmatter := None |}.

(** A workspace of one page that holds [bob]. *)
Definition bob_page (history : list Request) (r : Request) : AxiosError + Page :=
  inr {| data := [bob]; links_next := None |}.

(** The queue planned for [alice], [bob] and [carol] over the conflicted
    store. *)
Definition sample_conflicts : list Conflict :=
  OrbitImportPod.conflicts
    (OrbitImportPod.plan_members sample_cleanFname "2021-07-01T00:00:00.000Z"
       "2021.07.01" [alice; bob; carol] "vault" conflicted_engine sample_config).

(** The queue planned for [bob] over the store that holds [people.bob]. *)
Definition bob_conflict : Conflict :=
  queued_conflict sample_cleanFname "2021-07-01T00:00:00.000Z" "2021.07.01"
    "vault" overwrite_config bob_existing bob.

(** A store with a note that conflicts with [bob] and a note that [carol]
    completes; [alice] has no note. *)
Definition mixed_engine : Engine :=
  {| fastMode := false;
     notes := <[ "people.bob" := bob_existing ]>
                {[ "people.carol" := carol_null ]};
     calls := [] |}.

Definition mixed_world : World :=
  {| requests := []; prompts := []; engine := mixed_engine |}.

(** A first run over [alice], [bob] and [carol] with the overwrite-all
    flag, its output and the world it leaves. *)
Definition first_run : option (Result (list NoteProps) * World) :=
  OrbitImportPod.plant_members sample_cleanFname "2021-07-01T00:00:00.000Z"
    "2021.07.01" always_skip [alice; bob; carol] "vault" overwrite_config
    mixed_world.

Definition first_run_out : list NoteProps :=
  match first_run with
  | Some (Ok out, _) => out
  | _ => []
  end.

Definition first_run_world : World :=
  match first_run with
  | Some (_, w) => w
  | None => mixed_world
  end.

(** Another member called [bob], with another github handle. *)
Definition bob_namesake : OrbitMemberData :=
  {| id := "m4";
     attributes :=
       Attributes.mk "attr-m4" (Some "bob") "bob-other" None None None None
         sample_info |}.

(** The configuration with another override destination name. *)
Definition with_destName (config : OrbitImportPodConfig) (d : option string)
  : OrbitImportPodConfig :=
  {| workspaceSlug := workspaceSlug config; token := token config;
     orbitId := orbitId config; overwriteAll := overwriteAll config;
     destName := d; frontmatter := frontmatter config |}.

(** Whether a string holds an ["@"]. *)
Fixpoint has_at (s : string) : bool :=
  match s with
  | EmptyString => false
  | String c rest => Ascii.eqb c "@"%char || has_at rest
  end.

(** The front matter of a note, the empty object when it has none. *)
Definition custom_of (note : NoteProps) : Custom.t :=
  default Custom.empty (custom note).

(** The social bag that [updateNoteData] starts from: the bag of the note,
    the empty object when it has none. *)
Definition social_bag (note : NoteProps) : SocialData.t :=
  default SocialData.empty (Custom.social (custom_of note)).

(** A note of the store without custom front matter. *)
Definition carol_plain : NoteProps :=
  {| fname := "people.carol"; vault := "vault"; body := "Met at a meetup";
     custom := None |}.

(** A store that holds it, and [people.bob]. *)
Definition plain_engine : Engine :=
  {| fastMode := false;
     notes := <[ "people.bob" := bob_existing ]>
                {[ "people.carol" := carol_plain ]};
     calls := [] |}.

Definition plain_world : World :=
  {| requests := []; prompts := []; engine := plain_engine |}.

(** A configuration with some front matter of its own. *)
Definition tagged_config : OrbitImportPodConfig :=
  {| workspaceSlug := "ws"; token := "secret"; orbitId := None;
     overwriteAll := false; destName := None;
     frontmatter :=
       Some (Custom.mk None None None {[ "source" := JString "orbit" ]}) |}.

(** Labels for the three options of the menu. *)
Definition sample_label (o : MergeConflictOptions.t) : string :=
  match o with
  | MergeConflictOptions.OVERWRITE_LOCAL => "Overwrite local"
  | MergeConflictOptions.SKIP => "Skip"
  | MergeConflictOptions.SKIP_ALL => "Skip All"
  | MergeConflictOptions.Unrecognized => "?"
  end.

(** A workspace whose every page links to a next one. *)
Definition endless_pages (history : list Request) (r : Request)
  : AxiosError + Page :=
  inr {| data := [alice]; links_next := Some "https://orbit/next" |}.

(** A single-member endpoint that knows [bob]. *)
Definition knows_bob (history : list Request) (r : Request)
  : AxiosError + OrbitMemberData :=
  inr bob.

(** A configuration that imports the single member [m2]. *)
Definition single_config : OrbitImportPodConfig :=
  {| workspaceSlug := "ws"; token := "secret"; orbitId := Some "m2";
     overwriteAll := false; destName := None; frontmatter := None |}.

(** A decision source that answers with something that is not an option. *)
Definition always_unrecognized (history : list (option Conflict))
    (c : option Conflict) : MergeConflictOptions.t :=
  MergeConflictOptions.Unrecognized.

(** A store in fast mode that holds [people.bob]. *)
Definition fast_bob_engine : Engine :=
  {| fastMode := true; notes := {[ "people.bob" := bob_existing ]}; calls := [] |}.

(** [local] is the part of [address] before its first ["@"]: it holds no
    ["@"], and the address is [local] alone or [local], an ["@"] and a
    domain. *)
Definition is_local_part (address local : string) : Prop :=
  has_at local = false
  ∧ (address = local ∨ ∃ domain : string, address = local +:+ "@" +:+ domain).

(** The engine after the update of a note of the store that has its front
    matter, [cur] being the note as it is when the update starts: the store
    holds the updated note, and the engine has received a [writeNote] of it
    when some field was adopted. *)
Definition updated_engine (cur : NoteProps) (member : OrbitMemberData)
    (e : Engine) : Engine :=
  {| fastMode := fastMode e;
     notes := <[fname cur := updated_note cur member]> (notes e);
     calls := calls e
              ++ (if should_update cur member
                  then [WriteNote (updated_note cur member)] else []) |}.

(** The note of a pair of the update bucket once updated from its record. *)
Definition updated_pair (u : NoteProps * OrbitMemberData) : NoteProps :=
  updated_note u.1 u.2.




(** The note [cur] that the store files under [name], after the updates
    of the pairs whose note bears that name, in the order of the pairs. *)
Definition updates_of (name : string) (us : list (NoteProps * OrbitMemberData))
    (cur : NoteProps) : NoteProps :=
  fold_left
    (fun (cur : NoteProps) (u : NoteProps * OrbitMemberData) =>
       if decide (fname u.1 = name) then updated_note cur u.2 else cur)
    us cur.

(** A second member called [bob]: the github handle of the note
    [people.bob], and a twitter handle that the note does not have. *)
Definition bob_twin : OrbitMemberData :=
  {| id := "m5";
     attributes :=
       Attributes.mk "attr-m5" (Some "bob") "bob-old" None None (Some "bobt")
         None sample_info |}.

(** What [membersToNotes] gives for [bob] and [bob_twin] over the store
    that holds [people.bob]: [bob] conflicts with the note, [bob_twin]
    updates it. *)
Definition twin_run : Result (list NoteProps * list Conflict) * Engine :=
  OrbitImportPod.membersToNotes sample_cleanFname "2021-07-01T00:00:00.000Z"
    "2021.07.01" [bob; bob_twin] "vault" bob_engine overwrite_config.

Definition twin_conflicts : list Conflict :=
  match twin_run with
  | (Ok (_, conflicts), _) => conflicts
  | _ => []
  end.

Definition twin_engine : Engine := twin_run.2.

(** A note [people.everyone] with the github handle of [alice], and a store
    in fast mode that holds it. *)
Definition everyone_note : NoteProps :=
  {| fname := "people.everyone"; vault := "vault"; body := "";
     custom :=
       Some (Custom.mk None
               (Some (SocialData.mk (JString "alice") JNull JNull JNull JNull))
               None ∅) |}.

Definition fast_everyone_engine : Engine :=
  {| fastMode := true; notes := {[ "people.everyone" := everyone_note ]};
     calls := [] |}.

(** * Properties *)

(** ** Identity resolver *)

Section IdentityResolver.
Variable cleanFname : string -> string.

Lemma or_str_first_non_empty (a : option string) (rest : list string) (d : string) :
  OrbitUtils.or_str a (first_non_empty rest d)
  = first_non_empty (default "" a :: rest) d.
Proof.
  destruct a as [s|]; simpl; [|done].
  by destruct (String.eqb s "") eqn:E.
Qed.

Lemma or_str_or (a b : option string) (d : string) :
  OrbitUtils.or_str (OrbitUtils.or_ a b) d
  = OrbitUtils.or_str a (OrbitUtils.or_str b d).
Proof.
  unfold OrbitUtils.or_.
  destruct a as [s|]; simpl; [|done].
  destruct (String.eqb s "") eqn:E; simpl; [done|].
  by rewrite E.
Qed.

Lemma getNameFromEmail_local_part (e : option string) :
  default "" (OrbitUtils.getNameFromEmail e) = local_part e.
Proof.
  destruct e as [s|]; [|done].
  unfold OrbitUtils.getNameFromEmail, local_part; simpl.
  destruct (String.eqb s "") eqn:E; simpl; [|done].
  apply String.eqb_eq in E. by subst.
Qed.

Lemma split_at_0_free (s : string) : has_at (OrbitUtils.split_at_0 s) = false.
Proof.
  induction s as [|c rest IH]; [done|]. simpl.
  destruct (Ascii.eqb c "@") eqn:E; [done|]. simpl. by rewrite E.
Qed.

Lemma split_at_0_cut (s : string) :
  s = OrbitUtils.split_at_0 s
  ∨ ∃ domain : string, s = OrbitUtils.split_at_0 s +:+ "@" +:+ domain.
Proof.
  induction s as [|c rest IH]; [by left|]. simpl.
  destruct (Ascii.eqb c "@") eqn:E.
  - right. exists rest. apply Ascii.eqb_eq in E. by subst.
  - destruct IH as [IH|[domain IH]].
    + left. by f_equal.
    + right. exists domain.
      change (String c (OrbitUtils.split_at_0 rest) +:+ "@" +:+ domain)
        with (String c (OrbitUtils.split_at_0 rest +:+ "@" +:+ domain)).
      by f_equal.
Qed.

Lemma split_at_0_local (address local : string) :
  is_local_part address local -> OrbitUtils.split_at_0 address = local.
Proof.
  intros [Hfree [-> | [domain ->]]];
    induction local as [|c rest IH]; simpl in *; try done;
    destruct (Ascii.eqb c "@"); try done; by rewrite IH.
Qed.

(** C6. The identity resolver returns the sanitized first non-empty value
    among the display name, the github, discord and twitter handles and
    the local part of the e-mail address (what stands before its first
    ["@"]), and the sanitized external identifier when all of them are
    empty.  A record with only an e-mail address [local@domain] resolves
    to [local] (to the identifier when [local] is empty), a record with
    nothing set to its identifier. *)
Theorem cleanName_fallback_chain :
  (∀ member : OrbitMemberData,
     ∃ local : string,
       is_local_part (default "" (Attributes.email (attributes member))) local
       ∧ OrbitUtils.cleanName cleanFname member
         = cleanFname
             (first_non_empty
                [ default "" (Attributes.name (attributes member));
                  Attributes.github (attributes member);
                  default "" (Attributes.discord (attributes member));
                  default "" (Attributes.twitter (attributes member));
                  local ]
                (id member)))
  ∧ (∀ (orbitId attributesId local domain : string) (li : option string)
       (i : OrbitInfo),
       has_at local = false ->
       OrbitUtils.cleanName cleanFname
         {| id := orbitId;
            attributes :=
              Attributes.mk attributesId None "" None li None
                (Some (local +:+ "@" +:+ domain)) i |}
       = cleanFname (if String.eqb local "" then orbitId else local))
  ∧ (∀ (orbitId attributesId : string) (li : option string) (i : OrbitInfo),
       OrbitUtils.cleanName cleanFname
         {| id := orbitId;
            attributes := Attributes.mk attributesId None "" None li None None i |}
       = cleanFname orbitId).
Proof.
  assert (Hchain : ∀ member : OrbitMemberData,
     OrbitUtils.noteName member
     = first_non_empty
            [ default "" (Attributes.name (attributes member));
              Attributes.github (attributes member);
              default "" (Attributes.discord (attributes member));
              default "" (Attributes.twitter (attributes member));
              local_part (Attributes.email (attributes member)) ]
            (id member)).
  { intros member. unfold OrbitUtils.noteName.
    rewrite !or_str_or.
    rewrite <- getNameFromEmail_local_part.
    change (id member) with (first_non_empty [] (id member)) at 1.
    by rewrite !or_str_first_non_empty. }
  unfold OrbitUtils.cleanName.
  split; [|split].
  - intros member. exists (local_part (Attributes.email (attributes member))).
    split; [|by rewrite Hchain].
    unfold local_part. split; [apply split_at_0_free|apply split_at_0_cut].
  - intros orbitId attributesId local domain li i Hfree. rewrite Hchain.
    unfold local_part.
    change (default "" (Attributes.email
                          (attributes
                             {| id := orbitId;
                                attributes :=
                                  Attributes.mk attributesId None "" None li
                                    None (Some (local +:+ "@" +:+ domain)) i |})))
      with (local +:+ "@" +:+ domain).
    rewrite (split_at_0_local (local +:+ "@" +:+ domain) local)
      by (split; [done|right; by exists domain]).
    simpl. by destruct (String.eqb local "").
  - intros orbitId attributesId li i. by rewrite Hchain.
Qed.
End IdentityResolver.

Lemma cleanName_fallback_chain_witness :
  OrbitUtils.cleanName sample_cleanFname
    {| id := "m9";
       attributes :=
         Attributes.mk "attr-m9" None "" None None None
           (Some ("dave" +:+ "@" +:+ "x.com")) sample_info |}
  = sample_cleanFname (if String.eqb "dave" "" then "m9" else "dave").
Proof.
  apply (proj1 (proj2 (cleanName_fallback_chain sample_cleanFname))).
  reflexivity.
Defined.

(** ** Conflict detector *)

Section ConflictDetector.

Lemma strict_neq_true (a b : JsVal) : strict_neq a b = true ↔ a ≠ b.
Proof.
  unfold strict_neq, strict_eq.
  rewrite negb_true_iff, bool_decide_eq_false. done.
Qed.

Lemma strict_eq_true (a b : JsVal) : strict_eq a b = true ↔ a = b.
Proof. unfold strict_eq. apply bool_decide_eq_true. Qed.

Lemma not_empty_is_set (v : JsVal) :
  forallb (fun fn : JsVal -> bool => negb (fn v)) [isNull; isUndefined] = true
  ↔ is_set v.
Proof.
  unfold is_set. destruct v; simpl; split; try done; intros [? ?]; done.
Qed.

Lemma List_filter_sublist {A : Type} (f : A -> bool) (l : list A) :
  List.filter f l `sublist_of` l.
Proof.
  induction l as [|x l IH]; simpl; [done|].
  destruct (f x); by constructor.
Qed.

Lemma NoDup_social_keys : NoDup SocialKeys.values.
Proof. by apply (bool_decide_unpack _). Qed.

(** C3. When the note has no social bag the detector returns the empty
    list; otherwise it returns exactly the social keys whose stored value
    is set (neither [null] nor [undefined]) and strictly differs from the
    incoming value, each key once, in the declaration order of
    [SocialKeys]. *)
Theorem getConflictedData_spec (note : NoteProps) (orbitMember : OrbitMemberData) :
  match social_of note with
  | None => OrbitImportPod.getConflictedData note orbitMember = []
  | Some social =>
      (∀ key : SocialKeys.t,
         key ∈ OrbitImportPod.getConflictedData note orbitMember
         ↔ is_set (SocialData.get social key)
           ∧ Attributes.get (attributes orbitMember) key
             ≠ SocialData.get social key)
      ∧ NoDup (OrbitImportPod.getConflictedData note orbitMember)
      ∧ OrbitImportPod.getConflictedData note orbitMember
          `sublist_of` SocialKeys.values
  end.
Proof.
  unfold social_of, OrbitImportPod.getConflictedData.
  destruct (custom note) as [c|]; [|done].
  change (Some c ≫= Custom.social) with (Custom.social c).
  destruct (Custom.social c) as [social|]; [|done].
  split; [|split].
  - intros key. rewrite list_elem_of_In, filter_In.
    rewrite andb_true_iff, not_empty_is_set, strict_neq_true.
    split; [tauto|]. intros H. split; [|done].
    destruct key; simpl; tauto.
  - apply NoDup_ListNoDup, List.NoDup_filter, NoDup_ListNoDup, NoDup_social_keys.
  - apply List_filter_sublist.
Qed.
End ConflictDetector.

(** ** Remote fetcher *)

Section RemoteFetcher.
Variable stringifyError : AxiosError -> string.
Variable axios_get_members : list Request -> Request -> AxiosError + Page.
Variables token workspaceSlug : string.

#[local] Abbreviation getMembersFromOrbit :=
  (OrbitImportPod.getMembersFromOrbit stringifyError axios_get_members
     token workspaceSlug).
#[local] Abbreviation getAllMembers_loop fuel :=
  (OrbitImportPod.getAllMembers_loop stringifyError axios_get_members fuel
     token workspaceSlug).
#[local] Abbreviation paging :=
  (paging stringifyError axios_get_members token workspaceSlug).
#[local] Abbreviation members_request :=
  (OrbitImportPod.members_request token workspaceSlug).

(** What the [forEach] over the records of a page leaves in [members]
    and [next]. *)
Lemma page_fold (response : Page) :
  fold_left
    (fun '(members, next) (member : OrbitMemberData) =>
       (members ++ [member], links_next response))
    (data response) ([], None)
  = (data response,
     match data response with [] => None | _ :: _ => links_next response end).
Proof.
  assert (H : ∀ (l acc : list OrbitMemberData) (nx : option string),
    fold_left
      (fun '(members, next) (member : OrbitMemberData) =>
         (members ++ [member], links_next response)) l (acc, nx)
    = (acc ++ l, match l with [] => nx | _ :: _ => links_next response end)).
  { induction l as [|m l IH]; intros acc nx; simpl.
    - by rewrite app_nil_r.
    - rewrite IH, <- app_assoc. simpl. by destruct l. }
  by rewrite H.
Qed.

Lemma getMembersFromOrbit_ok (link : string) (w : World) (response : Page) :
  axios_get_members (requests w) (members_request link) = inr response ->
  getMembersFromOrbit link w
  = (Ok (data response,
         match data response with [] => None | _ :: _ => links_next response end),
     with_request w (members_request link)).
Proof.
  intros H. unfold OrbitImportPod.getMembersFromOrbit.
  by rewrite H, page_fold.
Qed.

Lemma getMembersFromOrbit_fail (link : string) (w : World) (error : AxiosError) :
  axios_get_members (requests w) (members_request link) = inl error ->
  getMembersFromOrbit link w
  = (Throw (DendronError (stringifyError error) MINOR),
     with_request w (members_request link)).
Proof.
  intros H. unfold OrbitImportPod.getMembersFromOrbit. by rewrite H.
Qed.

(** The loop runs through a stretch of pages, one unit of fuel each. *)
Lemma loop_paging (w w' : World) (c c' : option string)
    (pages : list (list OrbitMemberData)) :
  paging w c pages c' w' ->
  ∀ (fuel : nat) (members : list OrbitMemberData),
    getAllMembers_loop (length pages + fuel) c members w
    = getAllMembers_loop fuel c' (members ++ concat pages) w'.
Proof.
  induction 1 as [w c|w w1 w' link ms next c' pages Hget _ IH];
    intros fuel members; simpl.
  - by rewrite app_nil_r.
  - rewrite Hget, IH. by rewrite <- app_assoc.
Qed.

(** A run of the loop that returns went through a stretch of pages that
    ends on the [null] cursor. *)
Lemma loop_returns_paging (fuel : nat) :
  ∀ (c : option string) (members result : list OrbitMemberData) (w w' : World),
    getAllMembers_loop fuel c members w = Some (Ok result, w') ->
    ∃ pages, (c = None ∨ (length pages ≤ fuel)%nat)
             ∧ paging w c pages None w'
             ∧ result = members ++ concat pages.
Proof.
  induction fuel as [|fuel IH]; intros c members result w w' H.
  - destruct c as [link|]; simpl in H; [done|].
    inversion H; subst. exists []. simpl. rewrite app_nil_r.
    split; [by left|]. split; [constructor|done].
  - destruct c as [link|]; simpl in H.
    + destruct (getMembersFromOrbit link w) as [[[ms next]|e] w1] eqn:Hget;
        [|done].
      apply IH in H as (pages & Hlen & Hp & ->).
      exists (ms :: pages). split; [|split].
      * right. simpl. destruct Hlen as [->|Hlen]; [|lia].
        inversion Hp; subst; simpl; lia.
      * by econstructor.
      * simpl. by rewrite app_assoc.
    + inversion H; subst. exists []. simpl. rewrite app_nil_r.
      split; [by left|]. split; [constructor|done].
Qed.

Lemma paging_world (w w' : World) (c c' : option string)
    (pages : list (list OrbitMemberData)) :
  paging w c pages c' w' ->
  engine w' = engine w ∧ prompts w' = prompts w
  ∧ length (requests w') = (length (requests w) + length pages)%nat.
Proof.
  induction 1 as [w c|w w1 w' link ms next c' pages Hget _ IH]; simpl.
  - repeat split; lia.
  - destruct IH as (-> & -> & ->).
    unfold OrbitImportPod.getMembersFromOrbit in Hget.
    destruct (axios_get_members _ _); inversion Hget; subst; simpl.
    rewrite length_app. simpl. repeat split; lia.
Qed.
End RemoteFetcher.

(** C8. [getAllMembers] returns a list of members exactly when the pages
    can be fetched one after the other, the first with the empty cursor and
    each following one with the link that the previous fetch returned, up
    to the fetch that returns the [null] cursor; the list is then the
    records of these pages in the order of arrival. *)
Theorem getAllMembers_paginates
    (stringifyError : AxiosError -> string)
    (axios_get_members : list Request -> Request -> AxiosError + Page)
    (config : OrbitImportPodConfig) (fuel : nat) (w w' : World)
    (members : list OrbitMemberData) :
  OrbitImportPod.getAllMembers stringifyError axios_get_members fuel config w
  = Some (Ok members, w')
  ↔ ∃ pages : list (list OrbitMemberData),
      (length pages ≤ fuel)%nat
      ∧ paging stringifyError axios_get_members (token config)
          (workspaceSlug config) w (Some "") pages None w'
      ∧ members = concat pages.
Proof.
  unfold OrbitImportPod.getAllMembers. split.
  - intros H. apply loop_returns_paging in H as (pages & Hlen & Hp & ->).
    exists pages. destruct Hlen as [?|?]; [done|]. by repeat split.
  - intros (pages & Hlen & Hp & ->).
    replace fuel with (length pages + (fuel - length pages))%nat by lia.
    rewrite (loop_paging _ _ _ _ _ _ _ _ _ Hp).
    by destruct (fuel - length pages)%nat.
Qed.

Lemma getAllMembers_paginates_witness :
  OrbitImportPod.getAllMembers sample_stringifyError two_pages 5 sample_config
    sample_world
  = Some (Ok [alice; bob],
          {| requests :=
               [ {| url := first_page_url; authorization := "Bearer secret" |};
                 {| url := "https://orbit/page2"; authorization := "Bearer secret" |} ];
             prompts := []; engine := sample_engine |}).
Proof.
  apply (getAllMembers_paginates sample_stringifyError two_pages sample_config 5).
  exists [[alice]; [bob]]. split; [simpl; lia|]. split; [|reflexivity].
  eapply paging_cons; [reflexivity|].
  eapply paging_cons; [reflexivity|].
  apply paging_nil.
Defined.

(** C10. When the answer to a page fetch has an empty [data] array, the
    fetch returns the [null] cursor whatever [links.next] holds, so that
    [getAllMembers] ends there with the records of the pages before it and
    sends no further request. *)
Theorem empty_page_ends_pagination
    (stringifyError : AxiosError -> string)
    (axios_get_members : list Request -> Request -> AxiosError + Page)
    (config : OrbitImportPodConfig) (fuel : nat) (w0 w : World)
    (pages : list (list OrbitMemberData)) (link : string)
    (links_next : option string) :
  paging stringifyError axios_get_members (token config) (workspaceSlug config)
    w0 (Some "") pages (Some link) w ->
  axios_get_members (requests w)
    (OrbitImportPod.members_request (token config) (workspaceSlug config) link)
  = inr {| data := []; links_next := links_next |} ->
  (length pages < fuel)%nat ->
  OrbitImportPod.getMembersFromOrbit stringifyError axios_get_members
    (token config) (workspaceSlug config) link w
  = (Ok ([], None),
     with_request w
       (OrbitImportPod.members_request (token config) (workspaceSlug config) link))
  ∧ OrbitImportPod.getAllMembers stringifyError axios_get_members fuel config w0
    = Some (Ok (concat pages),
            with_request w
              (OrbitImportPod.members_request (token config)
                 (workspaceSlug config) link)).
Proof.
  intros Hp Hget Hlen.
  pose proof (getMembersFromOrbit_ok stringifyError _ _ _ _ _ _ Hget) as Hpage.
  simpl in Hpage. split; [done|].
  unfold OrbitImportPod.getAllMembers.
  replace fuel with (length pages + S (fuel - S (length pages)))%nat by lia.
  rewrite (loop_paging _ _ _ _ _ _ _ _ _ Hp). simpl.
  rewrite Hpage. rewrite app_nil_r.
  by destruct (fuel - S (length pages))%nat.
Qed.

Lemma empty_page_ends_pagination_witness :
  OrbitImportPod.getMembersFromOrbit sample_stringifyError empty_second_page
    "secret" "ws" "https://orbit/page2"
    (with_request sample_world
       (OrbitImportPod.members_request "secret" "ws" ""))
  = (Ok ([], None),
     with_request
       (with_request sample_world
          (OrbitImportPod.members_request "secret" "ws" ""))
       (OrbitImportPod.members_request "secret" "ws" "https://orbit/page2"))
  ∧ OrbitImportPod.getAllMembers sample_stringifyError empty_second_page 5
      sample_config sample_world
    = Some (Ok [alice],
            with_request
              (with_request sample_world
                 (OrbitImportPod.members_request "secret" "ws" ""))
              (OrbitImportPod.members_request "secret" "ws" "https://orbit/page2")).
Proof.
  apply (empty_page_ends_pagination sample_stringifyError empty_second_page
           sample_config 5 sample_world _ [[alice]] "https://orbit/page2"
           (Some "https://orbit/page3")).
  - eapply paging_cons; [reflexivity|]. apply paging_nil.
  - reflexivity.
  - simpl; lia.
Defined.

(** ** Sequential conflict resolver *)

Section SequentialResolver.
Variable handleConflict :
  list (option Conflict) -> option Conflict -> MergeConflictOptions.t.
Variable config : OrbitImportPodConfig.

#[local] Abbreviation onConflict :=
  (OrbitImportPod.onConflict handleConflict).
#[local] Abbreviation resolve_queue :=
  (resolve_queue handleConflict config).

Lemma advance_last {A : Type} recurse (crn : A) (cs : list Conflict)
    (index : nat) (w : World) :
  (length cs ≤ S index)%nat ->
  OrbitImportPod.advance recurse crn cs index w = Some (Ok crn, w).
Proof.
  intros H. unfold OrbitImportPod.advance.
  destruct (Z.ltb_spec (Z.of_nat index) (Z.of_nat (length cs) - 1)); [lia|done].
Qed.

Lemma advance_next {A : Type} recurse (crn : A) (cs : list Conflict)
    (index : nat) (w : World) :
  (S index < length cs)%nat ->
  OrbitImportPod.advance recurse crn cs index w = recurse cs (S index) w.
Proof.
  intros H. unfold OrbitImportPod.advance.
  destruct (Z.ltb_spec (Z.of_nat index) (Z.of_nat (length cs) - 1)); [|lia].
  by rewrite Nat.add_1_r.
Qed.

(** The recursive resolver walks the rest of the queue as the plain loop
    does, and hands back the list it was given. *)
Lemma onConflict_resolve_queue (fuel : nat) :
  ∀ (cs : list Conflict) (index : nat) (crn : list NoteProps) (w : World),
    (index < length cs)%nat ->
    (length cs - index ≤ fuel)%nat ->
    onConflict fuel cs index config crn w
    = Some (Ok crn, resolve_queue (drop index cs) w).
Proof.
  induction fuel as [|fuel IH]; intros cs index crn w Hlt Hfuel; [lia|].
  destruct (lookup_lt_is_Some_2 cs index Hlt) as [c Hc].
  rewrite (drop_S _ _ _ Hc). simpl. rewrite Hc.
  assert (Hstep : ∀ (cs' : list Conflict) (w' : World),
    length cs' = length cs ->
    drop (S index) cs' = drop (S index) cs ->
    OrbitImportPod.advance
      (fun cs0 i w0 => onConflict fuel cs0 i config crn w0) crn cs' index w'
    = Some (Ok crn, resolve_queue (drop (S index) cs) w')).
  { intros cs' w' Hlen Hdrop.
    destruct (decide (S index < length cs)%nat) as [Hn|Hn].
    - rewrite advance_next by lia.
      rewrite IH by lia. by rewrite Hdrop.
    - rewrite advance_last by lia.
      rewrite drop_ge by lia. done. }
  destruct (overwriteAll config).
  - rewrite Hstep; [done|by rewrite length_insert|].
    apply drop_insert_lt. lia.
  - destruct (handleConflict (prompts w) (Some c)).
    + rewrite Hstep; [done|by rewrite length_insert|].
      apply drop_insert_lt. lia.
    + by rewrite Hstep.
    + by rewrite advance_last by lia.
    + by rewrite Hstep.
Qed.

(** The plain loop up to a [SKIP_ALL] answer at position [k]. *)
Lemma resolve_queue_skip_all (queue : list Conflict) :
  ∀ (k : nat) (w : World),
    overwriteAll config = false ->
    (k < length queue)%nat ->
    (∀ i : nat, (i < k)%nat ->
       handleConflict (prompts w ++ (Some <$> take i queue)) (queue !! i)
       ≠ MergeConflictOptions.SKIP_ALL) ->
    handleConflict (prompts w ++ (Some <$> take k queue)) (queue !! k)
    = MergeConflictOptions.SKIP_ALL ->
    ∃ committed : list Conflict,
      prompts (resolve_queue queue w)
      = prompts w ++ (Some <$> take (S k) queue)
      ∧ committed `sublist_of` take k queue
      ∧ calls (engine (resolve_queue queue w))
        = calls (engine w) ++ ((WriteNote ∘ overwritten) <$> committed).
Proof.
  induction queue as [|c rest IH]; intros k w Hcfg Hk Hbefore Hat;
    [simpl in Hk; lia|].
  simpl. rewrite Hcfg.
  destruct k as [|k].
  - simpl in Hat. rewrite app_nil_r in Hat. rewrite Hat.
    exists []. simpl. by rewrite app_nil_r.
  - pose proof (Hbefore 0%nat ltac:(lia)) as H0.
    simpl in H0. rewrite app_nil_r in H0.
    assert (Hnext : ∀ w1 : World,
      prompts w1 = prompts w ++ [Some c] ->
      ∃ committed : list Conflict,
        prompts (resolve_queue rest w1)
        = prompts w ++ (Some <$> take (S (S k)) (c :: rest))
        ∧ committed `sublist_of` take k rest
        ∧ calls (engine (resolve_queue rest w1))
          = calls (engine w1) ++ ((WriteNote ∘ overwritten) <$> committed)).
    { intros w1 Hp.
      destruct (IH k w1 Hcfg) as (committed & Hpr & Hsub & Hcalls).
      - simpl in Hk. lia.
      - intros i Hi. specialize (Hbefore (S i) ltac:(lia)).
        simpl in Hbefore. by rewrite Hp, <- app_assoc.
      - simpl in Hat. by rewrite Hp, <- app_assoc.
      - exists committed. rewrite Hpr, Hp, <- app_assoc. done. }
    destruct (handleConflict (prompts w) (Some c)); [| |done|].
    + destruct (Hnext (with_engine (with_prompt w (Some c))
                         (writeNote (overwritten c)
                            (engine (with_prompt w (Some c))))))
        as (committed & Hpr & Hsub & Hcalls); [done|].
      exists (c :: committed). split; [done|]. split.
      * simpl. by constructor.
      * rewrite Hcalls. simpl. by rewrite <- app_assoc.
    + destruct (Hnext (with_prompt w (Some c)))
        as (committed & Hpr & Hsub & Hcalls); [done|].
      exists committed. split; [done|]. split; [|done].
      simpl. by constructor.
    + destruct (Hnext (with_prompt w (Some c)))
        as (committed & Hpr & Hsub & Hcalls); [done|].
      exists committed. split; [done|]. split; [|done].
      simpl. by constructor.
Qed.

(** C5. When the decision source answers [SKIP_ALL] on the entry at
    index [k] (and not before), the resolver returns at once: the decision
    source has been asked about the entries [0..k], in the order of the
    queue, and about no other; every commit issued is that of an entry
    before [k]; nothing at an index above [k] is asked about or
    committed. *)
Theorem skip_all_stops_resolution (conflicts : list Conflict) (k fuel : nat)
    (conflictResolvedNotes : list NoteProps) (w : World) :
  overwriteAll config = false ->
  (k < length conflicts)%nat ->
  (∀ i : nat, (i < k)%nat ->
     handleConflict (prompts w ++ (Some <$> take i conflicts)) (conflicts !! i)
     ≠ MergeConflictOptions.SKIP_ALL) ->
  handleConflict (prompts w ++ (Some <$> take k conflicts)) (conflicts !! k)
  = MergeConflictOptions.SKIP_ALL ->
  (length conflicts ≤ fuel)%nat ->
  ∃ (w' : World) (committed : list Conflict),
    onConflict fuel conflicts 0 config conflictResolvedNotes w
    = Some (Ok conflictResolvedNotes, w')
    ∧ prompts w' = prompts w ++ (Some <$> take (S k) conflicts)
    ∧ committed `sublist_of` take k conflicts
    ∧ calls (engine w')
      = calls (engine w) ++ ((WriteNote ∘ overwritten) <$> committed).
Proof.
  intros Hcfg Hk Hbefore Hat Hfuel.
  destruct (resolve_queue_skip_all conflicts k w Hcfg Hk Hbefore Hat)
    as (committed & Hpr & Hsub & Hcalls).
  exists (resolve_queue conflicts w), committed.
  split; [|done].
  rewrite onConflict_resolve_queue by lia. by rewrite drop_0.
Qed.
End SequentialResolver.

(** ** Reconciliation planner *)

Section Planner.
Variable cleanFname : string -> string.
Variables now_iso today vault : string.
Variable engine : Engine.
Variable config : OrbitImportPodConfig.

#[local] Abbreviation plan_member :=
  (OrbitImportPod.plan_member cleanFname now_iso today vault engine config).
#[local] Abbreviation plan_members ms :=
  (OrbitImportPod.plan_members cleanFname now_iso today ms vault engine config).
#[local] Abbreviation action_of :=
  (plan_action cleanFname now_iso today vault engine config).

Lemma lookup_note_key (noteName : string) :
  OrbitImportPod.lookup_note config engine noteName
  = notes engine !! lookup_key config engine noteName.
Proof.
  unfold OrbitImportPod.lookup_note, lookup_key, getNoteByFile, getNoteByFnameV5.
  by destruct (fastMode engine).
Qed.

(** One step of the map pushes the record's action on its bucket. *)
Lemma plan_member_action (b : OrbitImportPod.Buckets) (member : OrbitMemberData) :
  plan_member b member
  = {| OrbitImportPod.conflicts :=
         OrbitImportPod.conflicts b
         ++ option_list (action_queue (action_of member));
       OrbitImportPod.create :=
         OrbitImportPod.create b
         ++ option_list (action_create (action_of member));
       OrbitImportPod.notesToUpdate :=
         OrbitImportPod.notesToUpdate b
         ++ option_list (action_update (action_of member)) |}.
Proof.
  unfold OrbitImportPod.plan_member, plan_action.
  rewrite lookup_note_key.
  destruct (notes engine !! _) as [note|]; simpl.
  - unfold queued_conflict.
    destruct (OrbitImportPod.getConflictedData note member); simpl;
      by rewrite ?app_nil_r.
  - by rewrite ?app_nil_r.
Qed.

Lemma plan_fold (members : list OrbitMemberData) :
  ∀ b : OrbitImportPod.Buckets,
    fold_left plan_member members b
    = {| OrbitImportPod.conflicts :=
           OrbitImportPod.conflicts b
           ++ omap (action_queue ∘ action_of) members;
         OrbitImportPod.create :=
           OrbitImportPod.create b
           ++ omap (action_create ∘ action_of) members;
         OrbitImportPod.notesToUpdate :=
           OrbitImportPod.notesToUpdate b
           ++ omap (action_update ∘ action_of) members |}.
Proof.
  induction members as [|m ms IH]; intros b; simpl.
  - destruct b; simpl. by rewrite !app_nil_r.
  - rewrite IH, plan_member_action. simpl.
    f_equal; rewrite <- app_assoc; f_equal;
      by destruct (action_of m).
Qed.

(** The buckets hold the actions of the records, in the order of the
    records. *)
Lemma plan_members_actions (members : list OrbitMemberData) :
  OrbitImportPod.conflicts (plan_members members)
  = omap (action_queue ∘ action_of) members
  ∧ OrbitImportPod.create (plan_members members)
    = omap (action_create ∘ action_of) members
  ∧ OrbitImportPod.notesToUpdate (plan_members members)
    = omap (action_update ∘ action_of) members.
Proof.
  unfold OrbitImportPod.plan_members. by rewrite plan_fold.
Qed.

(** Where the pairs, the conflicts and the created notes of the buckets
    come from. *)
Lemma notesToUpdate_found (members : list OrbitMemberData)
    (u : NoteProps * OrbitMemberData) :
  u ∈ OrbitImportPod.notesToUpdate (plan_members members) ->
  u.2 ∈ members
  ∧ notes engine
      !! lookup_key config engine (OrbitUtils.cleanName cleanFname u.2)
    = Some u.1
  ∧ OrbitImportPod.getConflictedData u.1 u.2 = [].
Proof.
  destruct (plan_members_actions members) as (_ & _ & ->).
  intros (m & Hm & Ha)%list_elem_of_omap. simpl in Ha.
  unfold plan_action in Ha.
  destruct (notes engine !! _) as [note|] eqn:Hl; [|done].
  destruct (OrbitImportPod.getConflictedData note m) eqn:Hd; [|done].
  simpl in Ha. inversion Ha; subst u. done.
Qed.

Lemma conflicts_found (members : list OrbitMemberData) (c : Conflict) :
  c ∈ OrbitImportPod.conflicts (plan_members members) ->
  ∃ member : OrbitMemberData,
    member ∈ members
    ∧ notes engine
        !! lookup_key config engine (OrbitUtils.cleanName cleanFname member)
      = Some (conflictNote c)
    ∧ OrbitImportPod.getConflictedData (conflictNote c) member ≠ []
    ∧ c = queued_conflict cleanFname now_iso today vault config
            (conflictNote c) member.
Proof.
  destruct (plan_members_actions members) as (-> & _ & _).
  intros (m & Hm & Ha)%list_elem_of_omap. simpl in Ha.
  unfold plan_action in Ha. exists m. split; [done|].
  destruct (notes engine !! _) as [note|] eqn:Hl; [|done].
  destruct (OrbitImportPod.getConflictedData note m) eqn:Hd; [done|].
  simpl in Ha. inversion Ha; subst c. simpl. by rewrite Hd.
Qed.

Lemma create_found (members : list OrbitMemberData) (n : NoteProps) :
  n ∈ OrbitImportPod.create (plan_members members) ->
  ∃ member : OrbitMemberData,
    member ∈ members
    ∧ notes engine
        !! lookup_key config engine (OrbitUtils.cleanName cleanFname member)
      = None
    ∧ n = created_note cleanFname now_iso vault config member.
Proof.
  destruct (plan_members_actions members) as (_ & -> & _).
  intros (m & Hm & Ha)%list_elem_of_omap. simpl in Ha.
  unfold plan_action in Ha. exists m. split; [done|].
  destruct (notes engine !! _) as [note|] eqn:Hl.
  - by destruct (OrbitImportPod.getConflictedData note m).
  - simpl in Ha. by inversion Ha.
Qed.

(** A store that files its notes under their names holds the note of
    every pair of the update bucket under the name of that note. *)
Lemma notesToUpdate_held (members : list OrbitMemberData)
    (u : NoteProps * OrbitMemberData) :
  store_wf (notes engine) ->
  u ∈ OrbitImportPod.notesToUpdate (plan_members members) ->
  notes engine !! fname u.1 = Some u.1.
Proof.
  intros Hwf (_ & Hl & _)%notesToUpdate_found.
  by rewrite (Hwf _ _ Hl).
Qed.
End Planner.

(** ** Updates of the notes without conflict *)

Section Updater.

Lemma adopted_get (social : SocialData.t) (a : Attributes.t) (key : SocialKeys.t) :
  SocialData.get (adopted social a) key = adopt_value social a key.
Proof. by destruct key. Qed.

(** The [forEach] over the social keys adopts key by key. *)
Lemma fold_adopt (social : SocialData.t) (a : Attributes.t) :
  fold_left (OrbitImportPod.adopt a) SocialKeys.values (social, false)
  = (adopted social a, existsb (adoptable social a) SocialKeys.values).
Proof.
  destruct social as [g d l t e].
  unfold adopted, adopt_value, adoptable, OrbitImportPod.adopt. simpl.
  repeat match goal with
         | |- context [strict_eq ?v JNull && strict_neq ?x JNull] =>
             destruct (strict_eq v JNull && strict_neq x JNull); simpl
         end; reflexivity.
Qed.

Lemma updateNoteData_custom (note : NoteProps) (member : OrbitMemberData)
    (engine : Engine) (c : Custom.t) :
  custom note = Some c ->
  OrbitImportPod.updateNoteData note member engine
  = (Ok (updated_note note member),
     if should_update note member
     then writeNote (updated_note note member) engine
     else engine).
Proof.
  intros Hc. unfold OrbitImportPod.updateNoteData, updated_note, should_update.
  rewrite Hc, fold_adopt. by destruct (existsb _ _).
Qed.

Lemma updateNoteData_no_custom (note : NoteProps) (member : OrbitMemberData)
    (engine : Engine) :
  custom note = None ->
  ∃ msg, OrbitImportPod.updateNoteData note member engine
         = (Throw (TypeError msg), engine).
Proof.
  intros Hc. unfold OrbitImportPod.updateNoteData. rewrite Hc. by eexists.
Qed.

(** What the update does to a [null] field, and when it commits: a
    [null] field takes the incoming value when that one is not [null];
    every other field keeps its value; the note is written exactly when
    some field was adopted. *)
Lemma updateNoteData_adopts_null (note : NoteProps) (member : OrbitMemberData)
    (engine : Engine) (c : Custom.t) (social : SocialData.t) :
  custom note = Some c ->
  Custom.social c = Some social ->
  ∃ note' engine',
    OrbitImportPod.updateNoteData note member engine = (Ok note', engine')
    ∧ (∃ social', social_of note' = Some social'
         ∧ ∀ key, SocialData.get social' key
                  = if decide (SocialData.get social key = JNull
                               ∧ Attributes.get (attributes member) key ≠ JNull)
                    then Attributes.get (attributes member) key
                    else SocialData.get social key)
    ∧ ((∃ key, SocialData.get social key = JNull
               ∧ Attributes.get (attributes member) key ≠ JNull)
       -> engine' = writeNote note' engine)
    ∧ ((∀ key, ¬ (SocialData.get social key = JNull
                  ∧ Attributes.get (attributes member) key ≠ JNull))
       -> engine' = engine).
Proof.
  intros Hc Hs. rewrite (updateNoteData_custom _ _ _ _ Hc).
  eexists _, _. split; [done|].
  assert (Hadopt : ∀ key,
    adoptable social (attributes member) key = true
    ↔ SocialData.get social key = JNull
      ∧ Attributes.get (attributes member) key ≠ JNull).
  { intros key. unfold adoptable.
    by rewrite andb_true_iff, strict_eq_true, strict_neq_true. }
  unfold should_update, updated_note, social_of. rewrite Hc, Hs.
  change (default SocialData.empty (Some social)) with social.
  split; [|split].
  - eexists. split; [done|]. intros key. rewrite adopted_get.
    unfold adopt_value. case_decide as Hk.
    + apply Hadopt in Hk. by rewrite Hk.
    + destruct (adoptable social (attributes member) key) eqn:E; [|done].
      by apply Hadopt in E.
  - intros [key Hk]. apply Hadopt in Hk.
    assert (existsb (adoptable social (attributes member)) SocialKeys.values
            = true) as ->; [|done].
    apply existsb_exists. exists key. split; [|done].
    destruct key; simpl; tauto.
  - intros Hno.
    assert (existsb (adoptable social (attributes member)) SocialKeys.values
            = false) as ->; [|done].
    apply not_true_is_false. intros [key [_ Hk]]%existsb_exists.
    apply Hadopt in Hk. by apply (Hno key).
Qed.

(** C4, on notes whose unset fields are [undefined] while the record has
    a github and a twitter handle.  A note without social bag, and a note
    whose social bag lacks the twitter key: the detector reports no
    conflict, so the note is in the update bucket; the update adopts nothing
    and writes nothing, although the fields were unset and the incoming
    values differ.  The same note with [twitter: null] adopts the handle and
    is written. *)
Theorem updateNoteData_ignores_undefined :
  OrbitImportPod.getConflictedData carol_bare carol = []
  ∧ (∃ note', OrbitImportPod.updateNoteData carol_bare carol sample_engine
              = (Ok note', sample_engine)
              ∧ social_of note' = Some SocialData.empty)
  ∧ OrbitImportPod.getConflictedData carol_partial carol = []
  ∧ OrbitImportPod.updateNoteData carol_partial carol sample_engine
    = (Ok carol_partial, sample_engine)
  ∧ (SocialData.twitter <$> social_of carol_partial) = Some JUndefined
  ∧ Attributes.get (attributes carol) SocialKeys.twitter = JString "carol_t"
  ∧ ∃ note', OrbitImportPod.updateNoteData carol_null carol sample_engine
             = (Ok note', writeNote note' sample_engine)
             ∧ (SocialData.twitter <$> social_of note')
               = Some (JString "carol_t").
Proof.
  split; [reflexivity|]. split; [eexists; split; reflexivity|].
  repeat split. eexists. split; reflexivity.
Qed.
End Updater.

(** ** Override destination name *)

(** Outside fast mode the lookup goes by the derived name, whatever
    [destName] holds. *)
Lemma lookup_note_derived_outside_fast_mode (config : OrbitImportPodConfig)
    (engine : Engine) (noteName : string) :
  fastMode engine = false ->
  OrbitImportPod.lookup_note config engine noteName
  = getNoteByFnameV5 ("people." +:+ noteName) (notes engine).
Proof. intros H. unfold OrbitImportPod.lookup_note. by rewrite H. Qed.



(** The override name at work: in fast mode, over the store that holds
    [people.everyone] only, [alice] updates that note and [bob] conflicts
    with it; neither is created. *)
Lemma destName_one_note_for_all :
  ∃ c : Conflict,
    OrbitImportPod.plan_members sample_cleanFname "2021-07-01T00:00:00.000Z"
      "2021.07.01" [alice; bob] "vault" fast_everyone_engine dest_config
    = {| OrbitImportPod.conflicts := [c];
         OrbitImportPod.create := [];
         OrbitImportPod.notesToUpdate := [(everyone_note, alice)] |}
    ∧ conflictNote c = everyone_note
    ∧ conflictData c = [SocialKeys.github].
Proof.
  eexists. split; [vm_compute; reflexivity|]. split; reflexivity.
Qed.


(** ** The whole run *)

Section Run.
Variable cleanFname : string -> string.
Variable stringifyError : AxiosError -> string.
Variables now_iso today : string.
Variable axios_get_members : list Request -> Request -> AxiosError + Page.
Variable axios_get_member : list Request -> Request -> AxiosError + OrbitMemberData.
Variable handleConflict :
  list (option Conflict) -> option Conflict -> MergeConflictOptions.t.

#[local] Abbreviation plant :=
  (OrbitImportPod.plant cleanFname stringifyError now_iso today
     axios_get_members axios_get_member handleConflict).
#[local] Abbreviation plant_members :=
  (OrbitImportPod.plant_members cleanFname now_iso today handleConflict).
#[local] Abbreviation membersToNotes :=
  (OrbitImportPod.membersToNotes cleanFname now_iso today).

(** C9. When [axios.get] throws on a page (transport failure or status
    outside 2xx), the page fetch throws a [DendronError] of severity
    [MINOR] whose message is the stringified cause; the request was sent
    once, and the run ends with that error right there: no further
    request, nothing done on the engine. *)
Theorem fetch_failure_aborts (fuel : nat) (vault : string)
    (config : OrbitImportPodConfig) (w0 w : World)
    (pages : list (list OrbitMemberData)) (link : string) (error : AxiosError) :
  orbitId config = None ->
  paging stringifyError axios_get_members (token config) (workspaceSlug config)
    w0 (Some "") pages (Some link) w ->
  axios_get_members (requests w)
    (OrbitImportPod.members_request (token config) (workspaceSlug config) link)
  = inl error ->
  (length pages < fuel)%nat ->
  ∃ w' : World,
    OrbitImportPod.getMembersFromOrbit stringifyError axios_get_members
      (token config) (workspaceSlug config) link w
    = (Throw (DendronError (stringifyError error) MINOR), w')
    ∧ plant fuel vault config w0
      = Some (Throw (DendronError (stringifyError error) MINOR), w')
    ∧ requests w'
      = requests w
        ++ [OrbitImportPod.members_request (token config)
              (workspaceSlug config) link]
    ∧ engine w' = engine w0.
Proof.
  intros Hid Hp Hget Hlen.
  pose proof (getMembersFromOrbit_fail stringifyError _ _ _ _ _ _ Hget) as Hfail.
  eexists. split; [exact Hfail|]. split; [|split].
  - unfold OrbitImportPod.plant, OrbitImportPod.getAllMembers. rewrite Hid.
    replace fuel with (length pages + S (fuel - S (length pages)))%nat by lia.
    rewrite (loop_paging _ _ _ _ _ _ _ _ _ Hp). simpl.
    by rewrite Hfail.
  - done.
  - simpl. by destruct (paging_world _ _ _ _ _ _ _ _ _ Hp) as (-> & _).
Qed.
End Run.

Lemma fetch_failure_aborts_witness :
  ∃ w' : World,
    OrbitImportPod.getMembersFromOrbit sample_stringifyError failing_second_page
      "secret" "ws" "https://orbit/page2"
      (with_request sample_world (OrbitImportPod.members_request "secret" "ws" ""))
    = (Throw (DendronError "Request failed" MINOR), w')
    ∧ OrbitImportPod.plant sample_cleanFname sample_stringifyError
        "2021-07-01T00:00:00.000Z" "2021.07.01" failing_second_page no_member
        always_skip 5 "vault" sample_config sample_world
      = Some (Throw (DendronError "Request failed" MINOR), w')
    ∧ requests w'
      = [ OrbitImportPod.members_request "secret" "ws" "";
          OrbitImportPod.members_request "secret" "ws" "https://orbit/page2" ]
    ∧ engine w' = sample_engine.
Proof.
  apply (fetch_failure_aborts sample_cleanFname sample_stringifyError
           "2021-07-01T00:00:00.000Z" "2021.07.01" failing_second_page no_member
           always_skip 5 "vault" sample_config sample_world
           (with_request sample_world
              (OrbitImportPod.members_request "secret" "ws" ""))
           [[alice]] "https://orbit/page2" (BadStatus 500)).
  - reflexivity.
  - eapply paging_cons; [reflexivity|]. apply paging_nil.
  - reflexivity.
  - simpl; lia.
Defined.

(** ** Engine writes *)

Section EngineWrites.

Lemma write_all_app (ns1 ns2 : list NoteProps) (e : Engine) :
  write_all (ns1 ++ ns2) e = write_all ns2 (write_all ns1 e).
Proof. apply fold_left_app. Qed.

Lemma write_all_fastMode (ns : list NoteProps) :
  ∀ e : Engine, fastMode (write_all ns e) = fastMode e.
Proof. induction ns as [|n ns IH]; intros e; simpl; [done|]. by rewrite IH. Qed.

Lemma write_all_calls (ns : list NoteProps) :
  ∀ e : Engine, calls (write_all ns e) = calls e ++ (WriteNote <$> ns).
Proof.
  induction ns as [|n ns IH]; intros e; simpl.
  - by rewrite app_nil_r.
  - rewrite IH. simpl. by rewrite <- app_assoc.
Qed.

Lemma write_all_notes (ns : list NoteProps) :
  ∀ e : Engine,
    notes (write_all ns e)
    = fold_left (fun m n => <[fname n := n]> m) ns (notes e).
Proof. induction ns as [|n ns IH]; intros e; simpl; [done|]. by rewrite IH. Qed.

(** A name that no written note bears keeps its note. *)
Lemma write_all_lookup_other (ns : list NoteProps) (k : string) :
  ∀ e : Engine,
    (∀ n, n ∈ ns -> fname n ≠ k) ->
    notes (write_all ns e) !! k = notes e !! k.
Proof.
  induction ns as [|n ns IH]; intros e Hns; simpl; [done|].
  rewrite IH.
  - simpl. apply lookup_insert_ne. apply Hns. by left.
  - intros n' Hn'. apply Hns. by right.
Qed.

(** A name that only one written note bears holds that note. *)
Lemma write_all_lookup_unique (ns : list NoteProps) (n0 : NoteProps) :
  ∀ e : Engine,
    n0 ∈ ns ->
    (∀ n, n ∈ ns -> fname n = fname n0 -> n = n0) ->
    notes (write_all ns e) !! fname n0 = Some n0.
Proof.
  induction ns as [|n ns IH]; intros e Hin Huniq; [by inversion Hin|].
  simpl.
  destruct (decide (n0 ∈ ns)) as [Hns|Hns].
  - apply IH; [done|]. intros n' Hn'. apply Huniq. by right.
  - rewrite write_all_lookup_other.
    + apply elem_of_cons in Hin as [->|?]; [|done].
      simpl. apply lookup_insert_eq.
    + intros n' Hn' Hf. apply Hns.
      by rewrite <- (Huniq n' ltac:(by right) Hf).
Qed.

Lemma bulkAddNotes_write_all (ns : list NoteProps) (e : Engine) :
  fastMode (bulkAddNotes ns e) = fastMode e
  ∧ notes (bulkAddNotes ns e) = notes (write_all ns e)
  ∧ calls (bulkAddNotes ns e) = calls e ++ [BulkAddNotes ns].
Proof.
  split; [done|]. split; [|done]. simpl.
  revert e. induction ns as [|n ns IH]; intros e; simpl; [done|].
  by rewrite <- IH.
Qed.

Lemma updated_note_fname (note : NoteProps) (member : OrbitMemberData) :
  fname (updated_note note member) = fname note.
Proof. unfold updated_note. by destruct (custom note). Qed.

Lemma updated_note_custom (note : NoteProps) (member : OrbitMemberData) :
  is_Some (custom (updated_note note member)) ↔ is_Some (custom note).
Proof.
  unfold updated_note. destruct (custom note) as [c|] eqn:E; [|by rewrite E].
  split; intros _; by eexists.
Qed.

Lemma should_update_custom (note : NoteProps) (member : OrbitMemberData) :
  should_update note member = true -> is_Some (custom note).
Proof. unfold should_update. by destruct (custom note). Qed.

(** A note that the store holds under its name is read as the store has
    it. *)
Lemma current_held (note cur : NoteProps) (e : Engine) :
  notes e !! fname note = Some cur -> current note e = cur.
Proof. unfold current. by intros ->. Qed.


Lemma store_wf_insert (store : gmap string NoteProps) (n : NoteProps) :
  store_wf store -> store_wf (<[fname n := n]> store).
Proof. intros Hwf. by apply map_Forall_insert_2. Qed.

Lemma write_all_store_wf (ns : list NoteProps) :
  ∀ e : Engine, store_wf (notes e) -> store_wf (notes (write_all ns e)).
Proof.
  induction ns as [|n ns IH]; intros e Hwf; simpl; [done|].
  apply IH. simpl. by apply store_wf_insert.
Qed.

(** One update, of a note that has its front matter. *)
Lemma update_one_custom (err : option Exn) (e : Engine) (note : NoteProps)
    (member : OrbitMemberData) (c : Custom.t) :
  custom (current note e) = Some c ->
  OrbitImportPod.update_one (err, e) (note, member)
  = (err, updated_engine (current note e) member e).
Proof.
  intros Hc. unfold OrbitImportPod.update_one.
  rewrite (updateNoteData_custom _ _ _ _ Hc).
  unfold updated_engine, changed_in_place.
  rewrite updated_note_fname.
  destruct (should_update (current note e) member); simpl.
  - rewrite updated_note_fname. by rewrite insert_insert_eq.
  - by rewrite app_nil_r.
Qed.

(** One update, of a note without front matter. *)
Lemma update_one_no_custom (err : option Exn) (e : Engine) (note : NoteProps)
    (member : OrbitMemberData) :
  custom (current note e) = None ->
  ∃ msg : string,
    OrbitImportPod.update_one (err, e) (note, member)
    = (from_option Some (Some (TypeError msg)) err, e).
Proof.
  intros Hc. unfold OrbitImportPod.update_one.
  destruct (updateNoteData_no_custom (current note e) member e Hc) as [msg ->].
  by exists msg.
Qed.




(** When the pairs bear pairwise distinct names and the store holds the
    note of each, the updates that do not throw leave the store that the
    writes of all the updated notes would leave, and the engine has
    received the writes of those that adopt something. *)
Lemma update_all_distinct (us : list (NoteProps * OrbitMemberData)) :
  ∀ (err : option Exn) (e e' : Engine),
    NoDup ((fname ∘ fst) <$> us) ->
    (∀ u, u ∈ us -> notes e !! fname u.1 = Some u.1) ->
    fold_left OrbitImportPod.update_one us (err, e) = (None, e') ->
    err = None
    ∧ (∀ u, u ∈ us -> is_Some (custom u.1))
    ∧ fastMode e' = fastMode e
    ∧ notes e' = notes (write_all (updated_pair <$> us) e)
    ∧ calls e' = calls e ++ (WriteNote <$> omap update_write us).
Proof.
  induction us as [|[note member] us IH]; intros err e e' Hnd Hheld Hfold.
  - simpl in Hfold. inversion Hfold; subst. simpl. rewrite app_nil_r.
    repeat split. intros u Hu. by inversion Hu.
  - rewrite fmap_cons in Hnd. apply NoDup_cons in Hnd as [Hnew Hnd].
    simpl in Hnew. cbn [fold_left] in Hfold.
    pose proof (Hheld (note, member) ltac:(by left)) as Hcur. simpl in Hcur.
    pose proof (current_held _ _ _ Hcur) as Hcurrent.
    destruct (custom note) as [c|] eqn:Hc.
    + rewrite (update_one_custom err e note member c) in Hfold
        by (by rewrite Hcurrent).
      rewrite Hcurrent in Hfold.
      apply IH in Hfold as (Herr & Hus & Hfast & Hnotes & Hcalls); [|done|].
      * split; [done|]. split.
        { intros u [->|Hu]%elem_of_cons; [simpl; by rewrite Hc|by apply Hus]. }
        split; [done|]. split.
        -- rewrite Hnotes, fmap_cons.
           change (write_all (updated_pair (note, member) :: (updated_pair <$> us)) e)
             with (write_all (updated_pair <$> us)
                     (writeNote (updated_pair (note, member)) e)).
           rewrite !write_all_notes. f_equal.
           unfold updated_engine, writeNote, updated_pair. cbn [notes fst snd].
           by rewrite updated_note_fname.
        -- rewrite Hcalls. simpl. unfold update_write at 2. simpl.
           destruct (should_update note member); simpl;
             [by rewrite <- app_assoc|by rewrite app_nil_r].
      * intros u Hu. simpl. rewrite lookup_insert_ne; [apply Hheld; by right|].
        intros Heq. apply Hnew. apply list_elem_of_fmap. by exists u.
    + destruct (update_one_no_custom err e note member) as [msg Hstep];
        [by rewrite Hcurrent|].
      rewrite Hstep in Hfold.
      apply IH in Hfold as (Herr & _); [|done|].
      * by destruct err.
      * intros u Hu. apply Hheld. by right.
Qed.

(** The update of notes that their records leave as they are does
    nothing. *)
Lemma update_all_at_rest (us : list (NoteProps * OrbitMemberData)) (e : Engine) :
  (∀ u, u ∈ us ->
        notes e !! fname u.1 = Some u.1
        ∧ is_Some (custom u.1)
        ∧ should_update u.1 u.2 = false
        ∧ updated_note u.1 u.2 = u.1) ->
  OrbitImportPod.update_all us e = (None, e).
Proof.
  unfold OrbitImportPod.update_all. generalize (@None Exn).
  induction us as [|[note member] us IH]; intros err Hus; [done|].
  cbn [fold_left].
  destruct (Hus (note, member) ltac:(by left)) as (Hcur & [c Hc] & Hno & Hfix).
  simpl in Hcur, Hc, Hno, Hfix.
  pose proof (current_held _ _ _ Hcur) as Hcurrent.
  rewrite (update_one_custom err e note member c) by (by rewrite Hcurrent).
  rewrite Hcurrent.
  assert (updated_engine note member e = e) as ->.
  { unfold updated_engine. rewrite Hno, Hfix, app_nil_r, insert_id by done.
    by destruct e. }
  apply IH. intros u Hu. apply Hus. by right.
Qed.


Lemma updates_of_fname (name : string)
    (us : list (NoteProps * OrbitMemberData)) :
  ∀ cur : NoteProps, fname (updates_of name us cur) = fname cur.
Proof.
  induction us as [|u us IH]; intros cur; [done|].
  unfold updates_of in *. cbn [fold_left]. rewrite IH.
  case_decide; [apply updated_note_fname|done].
Qed.

Lemma updates_of_other (name : string)
    (us : list (NoteProps * OrbitMemberData)) (cur : NoteProps) :
  (∀ u, u ∈ us -> fname u.1 ≠ name) -> updates_of name us cur = cur.
Proof.
  revert cur. induction us as [|u us IH]; intros cur Hus; [done|].
  unfold updates_of in *. cbn [fold_left].
  rewrite decide_False by (apply Hus; by left).
  apply IH. intros u' Hu'. apply Hus. by right.
Qed.

(** The store after one update: the note of the pair, as the store has
    it, is replaced by its update. *)
Lemma update_one_store (err : option Exn) (e : Engine) (note cur : NoteProps)
    (member : OrbitMemberData) :
  store_wf (notes e) ->
  notes e !! fname note = Some cur ->
  notes (OrbitImportPod.update_one (err, e) (note, member)).2
  = <[fname note := updated_note cur member]> (notes e).
Proof.
  intros Hwf Hcur.
  pose proof (current_held _ _ _ Hcur) as Hcurrent.
  pose proof (Hwf _ _ Hcur) as Hname. simpl in Hname.
  destruct (custom cur) as [c|] eqn:Hc.
  - rewrite (update_one_custom err e note member c) by (by rewrite Hcurrent).
    rewrite Hcurrent. simpl. by rewrite Hname.
  - destruct (update_one_no_custom err e note member) as [msg ->];
      [by rewrite Hcurrent|].
    simpl. unfold updated_note. rewrite Hc. by rewrite insert_id.
Qed.

(** The store after the updates: every note that the store held is as
    the updates of the pairs of its name have left it. *)
Lemma update_all_store (us : list (NoteProps * OrbitMemberData)) :
  ∀ (err : option Exn) (e : Engine) (k : string) (cur : NoteProps),
    store_wf (notes e) ->
    (∀ u, u ∈ us -> is_Some (notes e !! fname u.1)) ->
    notes e !! k = Some cur ->
    notes (fold_left OrbitImportPod.update_one us (err, e)).2 !! k
    = Some (updates_of k us cur).
Proof.
  induction us as [|[note member] us IH]; intros err e k cur Hwf Hus Hk;
    [done|].
  cbn [fold_left].
  destruct (Hus (note, member) ltac:(by left)) as [cur0 Hcur0].
  simpl in Hcur0.
  pose proof (update_one_store err e note cur0 member Hwf Hcur0) as Hstore.
  destruct (OrbitImportPod.update_one (err, e) (note, member)) as [err1 e1].
  simpl in Hstore.
  assert (Hwf1 : store_wf (notes e1)).
  { rewrite Hstore. rewrite <- (Hwf _ _ Hcur0).
    rewrite <- (updated_note_fname cur0 member) at 1.
    by apply store_wf_insert. }
  assert (Hus1 : ∀ u, u ∈ us -> is_Some (notes e1 !! fname u.1)).
  { intros u Hu. rewrite Hstore.
    destruct (decide (fname note = fname u.1)) as [->|Hne].
    - by rewrite lookup_insert_eq.
    - rewrite lookup_insert_ne by done. apply Hus. by right. }
  unfold updates_of. cbn [fold_left fst snd].
  fold (updates_of k us
          (if decide (fname note = k) then updated_note cur member else cur)).
  apply IH; [done|done|]. rewrite Hstore.
  case_decide as Hd.
  - rewrite Hd in *. rewrite lookup_insert_eq. congruence.
  - by rewrite lookup_insert_ne.
Qed.

(** Among notes written in a row, the last one of a name is the one that
    the store keeps under that name. *)
Lemma write_all_last_writer (ns : list NoteProps) :
  ∀ (e : Engine) (n : NoteProps),
    n ∈ ns ->
    ∃ n' : NoteProps,
      n' ∈ ns ∧ fname n' = fname n
      ∧ notes (write_all ns e) !! fname n = Some n'.
Proof.
  induction ns as [|n0 ns IH]; intros e n Hn; [by inversion Hn|].
  destruct (decide (fname n ∈ fname <$> ns)) as [Hin|Hout].
  - apply list_elem_of_fmap in Hin as (n1 & Hf & Hn1).
    destruct (IH (writeNote n0 e) n1 Hn1) as (n' & Hn' & Hf' & Hl).
    exists n'. split; [by right|]. split; [congruence|].
    rewrite Hf. exact Hl.
  - apply elem_of_cons in Hn as [->|Hn].
    + exists n0. split; [by left|]. split; [done|].
      change (write_all (n0 :: ns) e) with (write_all ns (writeNote n0 e)).
      rewrite write_all_lookup_other.
      * simpl. apply lookup_insert_eq.
      * intros n' Hn' Hf. apply Hout. apply list_elem_of_fmap. by exists n'.
    + exfalso. apply Hout. apply list_elem_of_fmap. by exists n.
Qed.

(** A queue whose entries are all overwritten ends with the engine that
    has received the renamed entries, in the order of the queue. *)
Lemma resolve_queue_overwrite handleConflict (config : OrbitImportPodConfig)
    (queue : list Conflict) :
  ∀ w : World,
    answers_overwrite handleConflict config (prompts w) queue ->
    engine (resolve_queue handleConflict config queue w)
    = write_all (overwritten <$> queue) (engine w).
Proof.
  induction queue as [|c rest IH]; intros w Hans; simpl; [done|].
  destruct Hans as [Hflag|Hans].
  - rewrite Hflag. rewrite IH; [done|by left].
  - destruct (overwriteAll config) eqn:Hflag.
    + rewrite IH; [done|by left].
    + pose proof (Hans 0%nat c eq_refl) as H0. simpl in H0.
      rewrite app_nil_r in H0. rewrite H0.
      rewrite IH; [done|]. right. intros i c' Hi. simpl.
      specialize (Hans (S i) c' Hi). simpl in Hans.
      by rewrite <- app_assoc.
Qed.
End EngineWrites.

Lemma skip_all_stops_resolution_witness :
  ∃ (w' : World) (committed : list Conflict),
    OrbitImportPod.onConflict skip_all_at_second 3 sample_conflicts 0
      sample_config (map conflictNote sample_conflicts) sample_world
    = Some (Ok (map conflictNote sample_conflicts), w')
    ∧ prompts w' = prompts sample_world ++ (Some <$> take 2 sample_conflicts)
    ∧ committed `sublist_of` take 1 sample_conflicts
    ∧ calls (engine w')
      = calls (engine sample_world) ++ ((WriteNote ∘ overwritten) <$> committed).
Proof.
  apply (skip_all_stops_resolution skip_all_at_second sample_config
           sample_conflicts 1 3 (map conflictNote sample_conflicts) sample_world).
  - reflexivity.
  - vm_compute. lia.
  - intros [|i] Hi; [vm_compute; discriminate|lia].
  - reflexivity.
  - vm_compute. lia.
Defined.

(** ** Output of the run *)

Section Output.
Variable cleanFname : string -> string.
Variables now_iso today : string.
Variable handleConflict :
  list (option Conflict) -> option Conflict -> MergeConflictOptions.t.

#[local] Abbreviation plant_members :=
  (OrbitImportPod.plant_members cleanFname now_iso today handleConflict).
#[local] Abbreviation membersToNotes :=
  (OrbitImportPod.membersToNotes cleanFname now_iso today).

Lemma getSocialAttributes_get (member : OrbitMemberData) (key : SocialKeys.t) :
  SocialData.get (OrbitUtils.getSocialAttributes member) key
  = Attributes.get (attributes member) key.
Proof. by destruct key. Qed.

Lemma membersToNotes_ok (members : list OrbitMemberData) (vault : string)
    (engine0 engine' : Engine) (config : OrbitImportPodConfig)
    (create : list NoteProps) (conflicts : list Conflict) :
  membersToNotes members vault engine0 config = (Ok (create, conflicts), engine') ->
  create = OrbitImportPod.create
             (OrbitImportPod.plan_members cleanFname now_iso today members
                vault engine0 config)
  ∧ conflicts = OrbitImportPod.as_it_is engine'
                <$> OrbitImportPod.conflicts
                      (OrbitImportPod.plan_members cleanFname now_iso today
                         members vault engine0 config)
  ∧ OrbitImportPod.update_all
      (OrbitImportPod.notesToUpdate
         (OrbitImportPod.plan_members cleanFname now_iso today members
            vault engine0 config)) engine0
    = (None, engine').
Proof.
  unfold OrbitImportPod.membersToNotes. intros H.
  destruct (OrbitImportPod.update_all _ _) as [[e|] e''];
    inversion H; by subst.
Qed.

(** Once the members are planned and updated, the run creates the new
    notes in bulk and walks the queue. *)
Lemma plant_members_resolve (members : list OrbitMemberData)
    (vault : string) (config : OrbitImportPodConfig) (w : World)
    (create : list NoteProps) (conflicts : list Conflict) (engine' : Engine) :
  membersToNotes members vault (engine w) config
  = (Ok (create, conflicts), engine') ->
  plant_members members vault config w
  = Some (Ok (create ++ map conflictNote conflicts),
          resolve_queue handleConflict config conflicts
            (with_engine w (bulkAddNotes create engine'))).
Proof.
  intros H. unfold OrbitImportPod.plant_members. rewrite H.
  destruct conflicts as [|c0 cs]; [done|].
  change (0 <? length (c0 :: cs))%nat with true. cbv iota.
  rewrite onConflict_resolve_queue by (simpl; lia). by rewrite drop_0.
Qed.

(** The conflicts that [membersToNotes] returns, over a store that files
    its notes under their names: each is a conflict of the planner whose
    conflicted note is as the updates have left it. *)
Lemma membersToNotes_conflicts (members : list OrbitMemberData)
    (vault : string) (engine0 engine' : Engine) (config : OrbitImportPodConfig)
    (create : list NoteProps) (conflicts : list Conflict) (c : Conflict) :
  store_wf (notes engine0) ->
  membersToNotes members vault engine0 config = (Ok (create, conflicts), engine') ->
  c ∈ conflicts ->
  ∃ (member : OrbitMemberData) (found : NoteProps),
    member ∈ members
    ∧ notes engine0
        !! lookup_key config engine0 (OrbitUtils.cleanName cleanFname member)
      = Some found
    ∧ fname found
      = lookup_key config engine0 (OrbitUtils.cleanName cleanFname member)
    ∧ OrbitImportPod.getConflictedData found member ≠ []
    ∧ c = OrbitImportPod.as_it_is engine'
            (queued_conflict cleanFname now_iso today vault config found member)
    ∧ conflictNote c
      = updates_of (fname found)
          (OrbitImportPod.notesToUpdate
             (OrbitImportPod.plan_members cleanFname now_iso today members
                vault engine0 config))
          found.
Proof.
  intros Hwf H Hc.
  apply membersToNotes_ok in H as (_ & -> & Hupd).
  apply list_elem_of_fmap in Hc as (p & -> & Hp).
  pose proof Hp as Hp'.
  apply conflicts_found in Hp' as (member & Hm & Hl & Hdata & Hq).
  set (found := conflictNote p) in *.
  pose proof (Hwf _ _ Hl) as Hname. simpl in Hname.
  exists member, found. split; [done|]. split; [done|]. split; [done|].
  split; [done|]. split; [by rewrite <- Hq|].
  - simpl. fold found. unfold OrbitImportPod.update_all in Hupd.
    apply current_held.
    pose proof (update_all_store
                  (OrbitImportPod.notesToUpdate
                     (OrbitImportPod.plan_members cleanFname now_iso today
                        members vault engine0 config))
                  None engine0 (fname found) found Hwf) as Hstore.
    rewrite Hupd in Hstore. apply Hstore.
    + intros u Hu. exists u.1.
      by apply (notesToUpdate_held cleanFname now_iso today vault engine0
                  config members).
    + by rewrite Hname.
Qed.

(** C1, as the code has it. The run returns the created notes followed
    by the conflicted notes, one per queue entry in the order of the queue,
    whatever was decided on them: each is the note that the lookup found in
    the store, as the updates of that same note (by records that share its
    name without conflicting with it) have left it, and the very note that
    was found when no update bears its name.  The entry of each conflict,
    once renamed as [OVERWRITE_LOCAL] does, bears the name of the
    conflicted note and the social values of the record; when every entry
    is resolved with [OVERWRITE_LOCAL] (as the overwrite-all flag does)
    these renamed entries are what the engine is asked to write, after the
    bulk creation, and the store ends with a renamed entry under the name
    of every conflicted note: the one written last under that name. *)
Theorem resolved_notes_are_originals (members : list OrbitMemberData)
    (vault : string) (config : OrbitImportPodConfig) (w : World)
    (create : list NoteProps) (conflicts : list Conflict) (engine' : Engine) :
  store_wf (notes (engine w)) ->
  membersToNotes members vault (engine w) config
  = (Ok (create, conflicts), engine') ->
  ∃ w' : World,
    plant_members members vault config w
    = Some (Ok (create ++ map conflictNote conflicts), w')
    ∧ (∀ c : Conflict, c ∈ conflicts ->
         ∃ (member : OrbitMemberData) (found : NoteProps),
           member ∈ members
           ∧ OrbitImportPod.lookup_note config (engine w)
               (OrbitUtils.cleanName cleanFname member)
             = Some found
           ∧ conflictNote c
             = updates_of (fname found)
                 (OrbitImportPod.notesToUpdate
                    (OrbitImportPod.plan_members cleanFname now_iso today
                       members vault (engine w) config))
                 found
           ∧ ((∀ u : NoteProps * OrbitMemberData,
                 u ∈ OrbitImportPod.notesToUpdate
                       (OrbitImportPod.plan_members cleanFname now_iso today
                          members vault (engine w) config) ->
                 fname u.1 ≠ fname found) ->
              conflictNote c = found)
           ∧ fname (overwritten c) = fname found
           ∧ social_of (overwritten c)
             = Some (OrbitUtils.getSocialAttributes member))
    ∧ (answers_overwrite handleConflict config (prompts w) conflicts ->
       calls (engine w')
       = calls engine' ++ BulkAddNotes create
                          :: ((WriteNote ∘ overwritten) <$> conflicts)
       ∧ ∀ c : Conflict, c ∈ conflicts ->
           ∃ c' : Conflict,
             c' ∈ conflicts
             ∧ fname (conflictNote c') = fname (conflictNote c)
             ∧ notes (engine w') !! fname (conflictNote c)
               = Some (overwritten c')).
Proof.
  intros Hwf H.
  rewrite (plant_members_resolve _ _ _ _ _ _ _ H).
  eexists. split; [reflexivity|]. split.
  - intros c Hc.
    destruct (membersToNotes_conflicts _ _ _ _ _ _ _ c Hwf H Hc)
      as (member & found & Hm & Hl & Hname & _ & Hq & Hnote).
    exists member, found. split; [done|].
    split; [by rewrite lookup_note_key|]. split; [done|]. split.
    { intros Hother. rewrite Hnote. by apply updates_of_other. }
    split.
    + simpl. rewrite Hnote. apply updates_of_fname.
    + by rewrite Hq.
  - intros Hans. rewrite resolve_queue_overwrite by done. split.
    + rewrite write_all_calls. simpl.
      rewrite <- app_assoc. simpl. by rewrite <- list_fmap_compose.
    + intros c Hc.
      destruct (write_all_last_writer (overwritten <$> conflicts)
                  (bulkAddNotes create engine') (overwritten c))
        as (n' & Hn' & Hf & Hlast).
      { apply list_elem_of_fmap. by exists c. }
      apply list_elem_of_fmap in Hn' as (c' & -> & Hc').
      exists c'. split; [done|]. split; [exact Hf|exact Hlast].
Qed.
End Output.

Lemma resolved_notes_are_originals_witness :
  ∃ w' : World,
    OrbitImportPod.plant_members sample_cleanFname "2021-07-01T00:00:00.000Z"
      "2021.07.01" always_skip [bob; bob_twin] "vault" overwrite_config
      bob_world
    = Some (Ok ([] ++ map conflictNote twin_conflicts), w')
    ∧ (∀ c : Conflict, c ∈ twin_conflicts ->
         ∃ (member : OrbitMemberData) (found : NoteProps),
           member ∈ [bob; bob_twin]
           ∧ OrbitImportPod.lookup_note overwrite_config (engine bob_world)
               (OrbitUtils.cleanName sample_cleanFname member)
             = Some found
           ∧ conflictNote c
             = updates_of (fname found)
                 (OrbitImportPod.notesToUpdate
                    (OrbitImportPod.plan_members sample_cleanFname
                       "2021-07-01T00:00:00.000Z" "2021.07.01"
                       [bob; bob_twin] "vault" (engine bob_world)
                       overwrite_config))
                 found
           ∧ ((∀ u : NoteProps * OrbitMemberData,
                 u ∈ OrbitImportPod.notesToUpdate
                       (OrbitImportPod.plan_members sample_cleanFname
                          "2021-07-01T00:00:00.000Z" "2021.07.01"
                          [bob; bob_twin] "vault" (engine bob_world)
                          overwrite_config) ->
                 fname u.1 ≠ fname found) ->
              conflictNote c = found)
           ∧ fname (overwritten c) = fname found
           ∧ social_of (overwritten c)
             = Some (OrbitUtils.getSocialAttributes member))
    ∧ (answers_overwrite always_skip overwrite_config (prompts bob_world)
         twin_conflicts ->
       calls (engine w')
       = calls twin_engine ++ BulkAddNotes []
                              :: ((WriteNote ∘ overwritten) <$> twin_conflicts)
       ∧ ∀ c : Conflict, c ∈ twin_conflicts ->
           ∃ c' : Conflict,
             c' ∈ twin_conflicts
             ∧ fname (conflictNote c') = fname (conflictNote c)
             ∧ notes (engine w') !! fname (conflictNote c)
               = Some (overwritten c')).
Proof.
  apply (resolved_notes_are_originals sample_cleanFname
           "2021-07-01T00:00:00.000Z" "2021.07.01" always_skip
           [bob; bob_twin] "vault" overwrite_config bob_world []
           twin_conflicts twin_engine).
  - apply (bool_decide_unpack _). vm_compute. exact I.
  - vm_compute. reflexivity.
Defined.

(** Two records that share the name of a note: [bob] conflicts with the
    note [people.bob], and [bob_twin], who does not, has its twitter handle
    adopted in place.  The conflicted note that the run returns carries the
    adopted handle, and the engine has received one write for the update,
    the bulk creation, and one write for the overwritten conflict. *)
Lemma namesake_update_shows_in_output :
  ∃ (n e1 e2 : NoteProps) (w' : World),
    OrbitImportPod.plant_members sample_cleanFname "2021-07-01T00:00:00.000Z"
      "2021.07.01" always_skip [bob; bob_twin] "vault" overwrite_config
      bob_world
    = Some (Ok [n], w')
    ∧ n = updated_note bob_existing bob_twin
    ∧ SocialData.twitter <$> social_of n = Some (JString "bobt")
    ∧ SocialData.twitter <$> social_of bob_existing = Some JNull
    ∧ calls (engine w') = [WriteNote e1; BulkAddNotes []; WriteNote e2]
    ∧ e1 = n
    ∧ SocialData.github <$> social_of e2 = Some (JString "bob-new").
Proof.
  eexists _, _, _, _. split; [vm_compute; reflexivity|].
  repeat split; vm_compute; reflexivity.
Qed.

(** Two records that update the same note: the update for the second
    finds the field that the update for the first has filled, and only one
    write is made. *)
Lemma namesake_updates_write_once :
  ∃ (n : NoteProps) (e' : Engine),
    OrbitImportPod.plan_members sample_cleanFname "2021-07-01T00:00:00.000Z"
      "2021.07.01" [bob_twin; bob_twin] "vault" bob_engine sample_config
    = {| OrbitImportPod.conflicts := [];
         OrbitImportPod.create := [];
         OrbitImportPod.notesToUpdate :=
           [(bob_existing, bob_twin); (bob_existing, bob_twin)] |}
    ∧ OrbitImportPod.membersToNotes sample_cleanFname
        "2021-07-01T00:00:00.000Z" "2021.07.01" [bob_twin; bob_twin] "vault"
        bob_engine sample_config
      = (Ok ([], []), e')
    ∧ calls e' = [WriteNote n]
    ∧ n = updated_note bob_existing bob_twin
    ∧ notes e' !! "people.bob" = Some n.
Proof.
  eexists _, _. split; [vm_compute; reflexivity|].
  split; [vm_compute; reflexivity|].
  repeat split; vm_compute; reflexivity.
Qed.

(** C1 as stated fails: the store holds [people.bob] with github handle
    [bob-old], the record has [bob-new], and the overwrite-all flag is set.
    The run returns the note with [bob-old]; the note with [bob-new] is in
    the store, not in the output. *)
Lemma overwriteAll_output_keeps_original :
  ∃ (out : list NoteProps) (w' : World),
    OrbitImportPod.plant sample_cleanFname sample_stringifyError
      "2021-07-01T00:00:00.000Z" "2021.07.01" bob_page no_member always_skip
      5 "vault" overwrite_config bob_world
    = Some (Ok out, w')
    ∧ out = [bob_existing]
    ∧ ¬ (∃ n : NoteProps,
           n ∈ out
           ∧ SocialData.github <$> social_of n = Some (JString "bob-new"))
    ∧ SocialData.github <$> (notes (engine w') !! "people.bob" ≫= social_of)
      = Some (JString "bob-new").
Proof.
  eexists _, _. split; [vm_compute; reflexivity|].
  split; [reflexivity|]. split; [|vm_compute; reflexivity].
  intros (n & Hn & Hg). apply list_elem_of_singleton in Hn. subst n.
  vm_compute in Hg. discriminate.
Qed.

(** ** Notes that a record leaves alone *)

Section Settled.

Lemma List_filter_none {A : Type} (f : A -> bool) (l : list A) :
  (∀ x, f x = false) -> List.filter f l = [].
Proof.
  intros Hf. induction l as [|x l IH]; simpl; [done|]. by rewrite Hf.
Qed.

Lemma existsb_none {A : Type} (f : A -> bool) (l : list A) :
  (∀ x, f x = false) -> existsb f l = false.
Proof.
  intros Hf. induction l as [|x l IH]; simpl; [done|]. by rewrite Hf.
Qed.

Lemma social_key_in_values (key : SocialKeys.t) : In key SocialKeys.values.
Proof. destruct key; simpl; tauto. Qed.

Lemma List_filter_nil_inv (f : SocialKeys.t -> bool) :
  List.filter f SocialKeys.values = [] -> ∀ key, f key = false.
Proof.
  intros H key. destruct (f key) eqn:E; [|done].
  assert (Hin : In key (List.filter f SocialKeys.values)).
  { apply filter_In. split; [apply social_key_in_values|done]. }
  rewrite H in Hin. by inversion Hin.
Qed.

Lemma getConflictedData_filter (note : NoteProps) (member : OrbitMemberData)
    (c : Custom.t) (social : SocialData.t) :
  custom note = Some c ->
  Custom.social c = Some social ->
  OrbitImportPod.getConflictedData note member
  = List.filter (conflicting social (attributes member)) SocialKeys.values.
Proof.
  intros Hc Hs. unfold OrbitImportPod.getConflictedData. by rewrite Hc, Hs.
Qed.

Lemma strict_neq_refl (v : JsVal) : strict_neq v v = false.
Proof. unfold strict_neq, strict_eq. by rewrite bool_decide_eq_true_2. Qed.

Lemma adoptable_same (social : SocialData.t) (a : Attributes.t)
    (key : SocialKeys.t) :
  SocialData.get social key = Attributes.get a key ->
  adoptable social a key = false.
Proof.
  intros H. unfold adoptable. rewrite H. unfold strict_neq.
  by destruct (strict_eq (Attributes.get a key) JNull).
Qed.

Lemma conflicting_same (social : SocialData.t) (a : Attributes.t)
    (key : SocialKeys.t) :
  SocialData.get social key = Attributes.get a key ->
  conflicting social a key = false.
Proof.
  intros H. unfold conflicting. rewrite H, strict_neq_refl.
  apply andb_false_r.
Qed.

(** A note that carries the social values of the record is settled. *)
Lemma settled_social (note : NoteProps) (member : OrbitMemberData) :
  is_Some (custom note) ->
  social_of note = Some (OrbitUtils.getSocialAttributes member) ->
  settled note member.
Proof.
  intros [c Hc] Hs. unfold social_of in Hs. rewrite Hc in Hs. simpl in Hs.
  split; [|split].
  - rewrite (getConflictedData_filter _ _ _ _ Hc Hs).
    apply List_filter_none. intros key. apply conflicting_same.
    apply getSocialAttributes_get.
  - by rewrite Hc.
  - unfold should_update. rewrite Hc, Hs.
    apply existsb_none. intros key. apply adoptable_same.
    apply getSocialAttributes_get.
Qed.

(** A note without conflict is settled once updated. *)
Lemma settled_updated (note : NoteProps) (member : OrbitMemberData) :
  is_Some (custom note) ->
  OrbitImportPod.getConflictedData note member = [] ->
  settled (updated_note note member) member.
Proof.
  intros [c Hc] Hno.
  set (social := default SocialData.empty (Custom.social c)).
  assert (Hclean : ∀ key, conflicting social (attributes member) key = false).
  { subst social. destruct (Custom.social c) as [s|] eqn:Hs; simpl.
    - rewrite (getConflictedData_filter _ _ _ _ Hc Hs) in Hno.
      by apply List_filter_nil_inv.
    - by intros []. }
  assert (Hget : ∀ key,
    SocialData.get (adopted social (attributes member)) key
    = adopt_value social (attributes member) key)
    by (intros key; apply adopted_get).
  assert (Hcustom : custom (updated_note note member)
    = Some (Custom.set_social c (adopted social (attributes member)))).
  { unfold updated_note. by rewrite Hc. }
  split; [|split].
  - rewrite (getConflictedData_filter _ _ _ _ Hcustom eq_refl).
    apply List_filter_none. intros key.
    unfold conflicting. rewrite Hget. unfold adopt_value.
    destruct (adoptable social (attributes member) key) eqn:E.
    + rewrite strict_neq_refl. apply andb_false_r.
    + apply Hclean.
  - by rewrite Hcustom.
  - unfold should_update. rewrite Hcustom.
    change (default SocialData.empty
              (Custom.social
                 (Custom.set_social c (adopted social (attributes member)))))
      with (adopted social (attributes member)).
    apply existsb_none. intros key.
    unfold adoptable at 1. rewrite Hget. unfold adopt_value.
    destruct (adoptable social (attributes member) key) eqn:E.
    + unfold strict_neq.
      by destruct (strict_eq (Attributes.get (attributes member) key) JNull).
    + apply E.
Qed.

Lemma adopted_fix (social : SocialData.t) (a : Attributes.t) :
  (∀ key, adoptable social a key = false) -> adopted social a = social.
Proof.
  intros H. unfold adopted, adopt_value. rewrite !H. by destruct social.
Qed.

Lemma adoptable_adopted (social : SocialData.t) (a : Attributes.t)
    (key : SocialKeys.t) :
  adoptable (adopted social a) a key = false.
Proof.
  unfold adoptable at 1. rewrite adopted_get. unfold adopt_value.
  destruct (adoptable social a key) eqn:E; [|exact E].
  unfold strict_neq. by destruct (strict_eq (Attributes.get a key) JNull).
Qed.

Lemma conflicting_adopted (social : SocialData.t) (a : Attributes.t)
    (key : SocialKeys.t) :
  conflicting (adopted social a) a key = conflicting social a key.
Proof.
  unfold conflicting. rewrite adopted_get. unfold adopt_value.
  destruct (adoptable social a key) eqn:E; [|done].
  rewrite strict_neq_refl, andb_false_r.
  unfold adoptable in E. apply andb_true_iff in E as [E _].
  apply strict_eq_true in E. by rewrite E.
Qed.

Lemma set_social_same (c : Custom.t) (social : SocialData.t) :
  Custom.social c = Some social -> Custom.set_social c social = c.
Proof. destruct c. simpl. by intros ->. Qed.

Lemma set_custom_same (note : NoteProps) (c : Custom.t) :
  custom note = Some c -> set_custom note c = note.
Proof. destruct note. simpl. by intros ->. Qed.

(** Updating an updated note again from the same record changes nothing
    and adopts nothing. *)
Lemma updated_note_idem (note : NoteProps) (member : OrbitMemberData) :
  updated_note (updated_note note member) member = updated_note note member.
Proof.
  unfold updated_note at 2 3. destruct (custom note) as [c|] eqn:Hc.
  - unfold updated_note. simpl.
    set (s0 := default SocialData.empty (Custom.social c)).
    rewrite (adopted_fix (adopted s0 (attributes member)))
      by (intros key; apply adoptable_adopted).
    by destruct note, c.
  - unfold updated_note. by rewrite Hc.
Qed.

Lemma should_update_updated (note : NoteProps) (member : OrbitMemberData) :
  should_update (updated_note note member) member = false.
Proof.
  unfold updated_note. destruct (custom note) as [c|] eqn:Hc.
  - unfold should_update. simpl. by rewrite !adoptable_adopted.
  - unfold should_update. by rewrite Hc.
Qed.

(** A note that carries the social values of the record is left as it is
    by the update. *)
Lemma updated_note_same_social (note : NoteProps) (member : OrbitMemberData) :
  is_Some (custom note) ->
  social_of note = Some (OrbitUtils.getSocialAttributes member) ->
  updated_note note member = note.
Proof.
  intros [c Hc] Hs. unfold social_of in Hs. rewrite Hc in Hs. simpl in Hs.
  unfold updated_note. rewrite Hc, Hs. simpl.
  rewrite adopted_fix.
  - rewrite set_social_same by done. by apply set_custom_same.
  - intros key. apply adoptable_same. apply getSocialAttributes_get.
Qed.

Lemma omap_fmap_sublist {A B C : Type} (f : A -> option B) (g : B -> C)
    (h : A -> option C) (l : list A) :
  (∀ x y, f x = Some y -> h x = Some (g y)) ->
  g <$> omap f l `sublist_of` omap h l.
Proof.
  intros Hfh. induction l as [|x l IH]; [done|]. simpl.
  destruct (f x) as [y|] eqn:E; simpl.
  - rewrite (Hfh x y E). by constructor.
  - destruct (h x); [by constructor|done].
Qed.

Lemma omap_fmap_sublist_total {A B C : Type} (f : A -> option B) (g : B -> C)
    (h : A -> C) (l : list A) :
  (∀ x y, f x = Some y -> g y = h x) ->
  g <$> omap f l `sublist_of` h <$> l.
Proof.
  intros Hfh. induction l as [|x l IH]; [done|]. simpl.
  destruct (f x) as [y|] eqn:E; simpl.
  - rewrite (Hfh x y E). by constructor.
  - by constructor.
Qed.

End Settled.

(** ** Running the import again *)

Section Rerun.
Variable cleanFname : string -> string.
Variables now_iso today : string.
Variable handleConflict :
  list (option Conflict) -> option Conflict -> MergeConflictOptions.t.
Variable vault : string.
Variable config : OrbitImportPodConfig.
Variable w0 : World.
Variable members : list OrbitMemberData.

#[local] Abbreviation key m :=
  (lookup_key config (engine w0) (OrbitUtils.cleanName cleanFname m)).
#[local] Abbreviation act m :=
  (plan_action cleanFname now_iso today vault (engine w0) config m).
#[local] Abbreviation first_plan :=
  (OrbitImportPod.plan_members cleanFname now_iso today members vault
     (engine w0) config).
#[local] Abbreviation first_writes :=
  ((updated_pair <$> OrbitImportPod.notesToUpdate first_plan)
   ++ OrbitImportPod.create first_plan
   ++ (overwritten <$> OrbitImportPod.conflicts first_plan)).

Hypothesis store_ok : store_wf (notes (engine w0)).
Hypothesis keys_distinct :
  NoDup ((fun m => lookup_key config (engine w0)
                     (OrbitUtils.cleanName cleanFname m)) <$> members).

(** Either every record is looked up under its own derived name, or all
    records are looked up under one and the same name. *)
Lemma lookup_key_mode (e : Engine) :
  (∀ x, lookup_key config e x = "people." +:+ x)
  ∨ (∃ d, ∀ x, lookup_key config e x = d).
Proof.
  unfold lookup_key, OrbitImportPod.lookup_fname.
  destruct (fastMode e); [|by left].
  destruct (OrbitUtils.truthy (destName config)); [right; by eexists|by left].
Qed.

Lemma key_inj (m m' : OrbitMemberData) :
  m ∈ members -> m' ∈ members -> key m = key m' -> m = m'.
Proof.
  clear store_ok. revert keys_distinct.
  induction members as [|x l IH]; intros Hnd Hm Hm' Hk; [by inversion Hm|].
  rewrite fmap_cons in Hnd. apply NoDup_cons in Hnd as [Hx Hnd].
  apply elem_of_cons in Hm as [->|Hm]; apply elem_of_cons in Hm' as [->|Hm'].
  - done.
  - exfalso. apply Hx. rewrite Hk. apply list_elem_of_fmap. by exists m'.
  - exfalso. apply Hx. rewrite <- Hk. apply list_elem_of_fmap. by exists m.
  - by apply IH.
Qed.

(** The notes written by the first run come from the records. *)
Lemma first_writes_from_members (n : NoteProps) :
  n ∈ first_writes ->
  ∃ m, m ∈ members ∧ action_write (act m) = Some n.
Proof.
  destruct (plan_members_actions cleanFname now_iso today vault (engine w0)
              config members) as (Hq & Hc & Hu).
  rewrite Hq, Hc, Hu. rewrite !elem_of_app.
  intros [Hn|[Hn|Hn]].
  - apply list_elem_of_fmap in Hn as (u & -> & Hu').
    apply list_elem_of_omap in Hu' as (m & Hm & Ha).
    exists m. split; [done|]. simpl in Ha.
    destruct (act m); simpl in Ha; try done; by inversion Ha; subst.
  - apply list_elem_of_omap in Hn as (m & Hm & Ha).
    exists m. split; [done|]. simpl in Ha.
    destruct (act m); simpl in Ha; try done; by inversion Ha; subst.
  - apply list_elem_of_fmap in Hn as (c & -> & Hc').
    apply list_elem_of_omap in Hc' as (m & Hm & Ha).
    exists m. split; [done|]. simpl in Ha.
    destruct (act m); simpl in Ha; try done; by inversion Ha; subst.
Qed.

Lemma members_in_first_writes (m : OrbitMemberData) (n : NoteProps) :
  m ∈ members -> action_write (act m) = Some n -> n ∈ first_writes.
Proof.
  intros Hm Ha.
  destruct (plan_members_actions cleanFname now_iso today vault (engine w0)
              config members) as (Hq & Hc & Hu).
  rewrite Hq, Hc, Hu. rewrite !elem_of_app.
  destruct (act m) as [n'|note m'|c] eqn:E; simpl in Ha.
  - right; left. apply list_elem_of_omap. exists m. split; [done|].
    simpl. rewrite E. simpl. done.
  - left. inversion Ha; subst n.
    apply list_elem_of_fmap. exists (note, m'). split; [done|].
    apply list_elem_of_omap. exists m. split; [done|]. simpl. by rewrite E.
  - right; right. inversion Ha; subst n.
    apply list_elem_of_fmap. exists c. split; [done|].
    apply list_elem_of_omap. exists m. split; [done|]. simpl. by rewrite E.
Qed.

(** What the first run decided for a record, in terms of the store. *)
Lemma act_cases (m : OrbitMemberData) :
  (notes (engine w0) !! key m = None
   ∧ act m = ToCreate (created_note cleanFname now_iso vault config m))
  ∨ (∃ note, notes (engine w0) !! key m = Some note
             ∧ fname note = key m
             ∧ OrbitImportPod.getConflictedData note m = []
             ∧ act m = ToUpdate note m)
  ∨ (∃ note, notes (engine w0) !! key m = Some note
             ∧ fname note = key m
             ∧ act m = ToQueue (queued_conflict cleanFname now_iso today vault
                                  config note m)).
Proof.
  unfold plan_action.
  destruct (notes (engine w0) !! key m) as [note|] eqn:E; [|by left].
  right. pose proof (store_ok _ _ E) as Hf. simpl in Hf.
  destruct (OrbitImportPod.getConflictedData note m) eqn:Hd.
  - left. by exists note.
  - right. by exists note.
Qed.

(** A note written for a record is filed under the key of that record, or
    is a created note under the derived name. *)
Lemma write_same_key (m m' : OrbitMemberData) (n : NoteProps) :
  action_write (act m') = Some n -> fname n = key m -> key m' = key m.
Proof.
  intros Ha Hf.
  destruct (act_cases m') as [(_ & Hact)|[(note & _ & Hn & _ & Hact)
                                         |(note & _ & Hn & Hact)]];
    rewrite Hact in Ha; simpl in Ha.
  - inversion Ha; subst n. simpl in Hf.
    destruct (lookup_key_mode (engine w0)) as [Hmode|[d Hmode]].
    + by rewrite Hmode.
    + by rewrite !Hmode.
  - inversion Ha; subst n. rewrite updated_note_fname in Hf. congruence.
  - inversion Ha; subst n. simpl in Hf. congruence.
Qed.

Lemma first_writes_unique (m : OrbitMemberData) (n : NoteProps) :
  m ∈ members -> n ∈ first_writes -> fname n = key m ->
  action_write (act m) = Some n.
Proof.
  intros Hm Hn Hf.
  apply first_writes_from_members in Hn as (m' & Hm' & Ha).
  pose proof (write_same_key m m' n Ha Hf) as Hk.
  by rewrite (key_inj m m' Hm Hm' (eq_sym Hk)).
Qed.

(** The note under the key of a record once the first run has written
    [first_writes]: the note written for the record when it bears that
    key, the note of the original store otherwise. *)
Lemma first_writes_lookup (m : OrbitMemberData) :
  m ∈ members ->
  notes (write_all first_writes (engine w0)) !! key m
  = match action_write (act m) with
    | Some n => if decide (fname n = key m) then Some n
                else notes (engine w0) !! key m
    | None => notes (engine w0) !! key m
    end.
Proof.
  intros Hm.
  destruct (action_write (act m)) as [n|] eqn:Ha.
  - destruct (decide (fname n = key m)) as [Hf|Hf].
    + rewrite <- Hf. apply write_all_lookup_unique.
      * by apply (members_in_first_writes m).
      * intros n' Hn' Hf'.
        assert (action_write (act m) = Some n') as Hn''
          by (apply first_writes_unique; congruence).
        congruence.
    + apply write_all_lookup_other. intros n' Hn' Hf'.
      assert (action_write (act m) = Some n') as Hn''
        by (by apply first_writes_unique).
      congruence.
  - apply write_all_lookup_other. intros n' Hn' Hf'.
    assert (action_write (act m) = Some n') as Hn''
      by (by apply first_writes_unique).
    congruence.
Qed.

(** The pairs of the update bucket bear pairwise distinct names. *)
Lemma first_updates_distinct :
  NoDup ((fname ∘ fst) <$> OrbitImportPod.notesToUpdate first_plan).
Proof.
  destruct (plan_members_actions cleanFname now_iso today vault (engine w0)
              config members) as (_ & _ & ->).
  eapply sublist_NoDup; [exact keys_distinct|].
  apply omap_fmap_sublist_total. intros m [note m'] Ha. simpl in Ha.
  destruct (act_cases m) as [(_ & Hact)|[(note' & _ & Hn & _ & Hact)
                                        |(note' & _ & Hn & Hact)]];
    rewrite Hact in Ha; simpl in Ha; try done.
  inversion Ha; subst. done.
Qed.

(** No pair of the update bucket bears the name of a conflicted note. *)
Lemma first_conflicts_apart (c : Conflict) (u : NoteProps * OrbitMemberData) :
  c ∈ OrbitImportPod.conflicts first_plan ->
  u ∈ OrbitImportPod.notesToUpdate first_plan ->
  fname u.1 ≠ fname (conflictNote c).
Proof.
  intros (mc & Hmc & Hlc & Hdc & _)%conflicts_found
         (Hmu & Hlu & Hdu)%notesToUpdate_found Hf.
  pose proof (store_ok _ _ Hlc) as Hc. pose proof (store_ok _ _ Hlu) as Hu.
  simpl in Hc, Hu.
  assert (u.2 = mc) as Heq by (apply key_inj; congruence).
  rewrite Heq in Hlu, Hdu.
  assert (u.1 = conflictNote c) as Hnote by congruence.
  rewrite Hnote in Hdu. done.
Qed.

(** The engine at the end of a first run in which every conflict is
    overwritten. *)
Lemma first_run_engine (out : list NoteProps) (w1 : World) :
  OrbitImportPod.plant_members cleanFname now_iso today handleConflict members
    vault config w0 = Some (Ok out, w1) ->
  answers_overwrite handleConflict config (prompts w0)
    (OrbitImportPod.conflicts first_plan) ->
  fastMode (engine w1) = fastMode (engine w0)
  ∧ notes (engine w1) = notes (write_all first_writes (engine w0))
  ∧ ∀ u, u ∈ OrbitImportPod.notesToUpdate first_plan -> is_Some (custom u.1).
Proof.
  intros Hrun Hans.
  destruct (OrbitImportPod.membersToNotes cleanFname now_iso today members
              vault (engine w0) config)
    as [[[create conflicts]|e] e'] eqn:H.
  2: { unfold OrbitImportPod.plant_members in Hrun. rewrite H in Hrun.
       by inversion Hrun. }
  rewrite (plant_members_resolve _ _ _ _ _ _ _ _ _ _ _ H) in Hrun.
  apply membersToNotes_ok in H as (-> & -> & Hupd).
  unfold OrbitImportPod.update_all in Hupd.
  apply update_all_distinct in Hupd
    as (_ & Hcustom & Hfast' & Hnotes' & _).
  2: exact first_updates_distinct.
  2: { intros u Hu.
       by apply (notesToUpdate_held cleanFname now_iso today vault (engine w0)
                   config members). }
  assert (Hsame : OrbitImportPod.as_it_is e'
                  <$> OrbitImportPod.conflicts first_plan
                  = OrbitImportPod.conflicts first_plan).
  { etrans; [|apply list_fmap_id].
    apply list_fmap_ext. intros i c Hi.
    apply list_elem_of_lookup_2 in Hi.
    unfold OrbitImportPod.as_it_is.
    assert (current (conflictNote c) e' = conflictNote c) as ->;
      [|by destruct c].
    apply current_held. rewrite Hnotes', write_all_lookup_other.
    - pose proof Hi as (mc & _ & Hlc & _)%conflicts_found.
      by rewrite (store_ok _ _ Hlc).
    - intros n (u & -> & Hu)%list_elem_of_fmap.
      unfold updated_pair. rewrite updated_note_fname.
      by apply first_conflicts_apart. }
  rewrite Hsame in Hrun.
  assert (Hw1 : w1 = resolve_queue handleConflict config
                       (OrbitImportPod.conflicts first_plan)
                       (with_engine w0
                          (bulkAddNotes (OrbitImportPod.create first_plan) e')))
    by congruence.
  rewrite Hw1, resolve_queue_overwrite by done.
  split; [|split; [|done]].
  - rewrite write_all_fastMode. simpl. exact Hfast'.
  - rewrite !write_all_app, !write_all_notes. simpl.
    by rewrite Hnotes', write_all_notes.
Qed.

(** What the second run decides for a record: to create its note again
    (when the note is looked up under another name than its own), or to
    update a note that the store holds under its name and that the record
    leaves as it is. *)
Lemma second_action (w1 : World) (now_iso' today' : string)
    (m : OrbitMemberData) :
  m ∈ members ->
  fastMode (engine w1) = fastMode (engine w0) ->
  notes (engine w1) = notes (write_all first_writes (engine w0)) ->
  (∀ u, u ∈ OrbitImportPod.notesToUpdate first_plan -> is_Some (custom u.1)) ->
  (∃ n, plan_action cleanFname now_iso' today' vault (engine w1) config m
        = ToCreate n)
  ∨ (∃ n, plan_action cleanFname now_iso' today' vault (engine w1) config m
          = ToUpdate n m
          ∧ notes (engine w1) !! fname n = Some n
          ∧ is_Some (custom n)
          ∧ should_update n m = false
          ∧ updated_note n m = n).
Proof.
  intros Hm Hfast Hnotes Hcustom            .
  assert (Hsettled : ∀ n, notes (engine w1) !! key m = Some n -> settled n m ->
    plan_action cleanFname now_iso' today' vault (engine w1) config m
    = ToUpdate n m).
  { intros n Hn (Hno & _). unfold plan_action, lookup_key.
    rewrite Hfast. fold (key m). by rewrite Hn, Hno. }
  assert (Habsent : notes (engine w1) !! key m = None ->
    ∃ n, plan_action cleanFname now_iso' today' vault (engine w1) config m
         = ToCreate n).
  { intros Hn. unfold plan_action, lookup_key.
    rewrite Hfast. fold (key m). rewrite Hn. by eexists. }
  pose proof (first_writes_lookup m Hm) as Hlook.
  rewrite <- Hnotes in Hlook.
  destruct (act_cases m) as [(Hnone & Hact)|[(note & Hsome & Hf & Hno & Hact)
                                            |(note & Hsome & Hf & Hact)]];
    rewrite Hact in Hlook; simpl in Hlook.
  - destruct (decide ("people." +:+ OrbitUtils.cleanName cleanFname m = key m))
      as [Hk|Hk].
    + assert (Hs : settled (created_note cleanFname now_iso vault config m) m)
        by (apply settled_social; [by eexists|done]).
      right. eexists. split; [by apply Hsettled|].
      split; [simpl; by rewrite Hk|]. split; [by eexists|].
      split; [apply Hs|].
      apply updated_note_same_social; [by eexists|done].
    + left. apply Habsent. by rewrite Hlook, Hnone.
  - assert (Hc : is_Some (custom note)).
    { apply (Hcustom (note, m)).
      destruct (plan_members_actions cleanFname now_iso today vault (engine w0)
                  config members) as (_ & _ & ->).
      apply list_elem_of_omap. exists m. split; [done|]. simpl. by rewrite Hact. }
    rewrite decide_True in Hlook by (by rewrite updated_note_fname).
    pose proof (settled_updated note m Hc Hno) as Hs.
    right. eexists. split; [by apply Hsettled|].
    split; [by rewrite updated_note_fname, Hf|].
    split; [by apply updated_note_custom|].
    split; [apply should_update_updated|apply updated_note_idem].
  - rewrite decide_True in Hlook by done.
    assert (Hs : settled
                   (overwritten
                      (queued_conflict cleanFname now_iso today vault config
                         note m)) m)
      by (apply settled_social; [by eexists|done]).
    right. eexists. split; [by apply Hsettled|].
    split; [simpl; by rewrite Hf|]. split; [by eexists|].
    split; [apply Hs|].
    apply updated_note_same_social; [by eexists|done].
Qed.

Lemma omap_nil_all {A B : Type} (f : A -> option B) (l : list A) :
  (∀ x, x ∈ l -> f x = None) -> omap f l = [].
Proof.
  induction l as [|x l IH]; intros H; [done|]. simpl.
  rewrite (H x) by (by left). apply IH. intros y Hy. apply H. by right.
Qed.

(** C7, as the code has it. When the store files every note under its
    own name, the records are looked up under pairwise distinct names, and
    the first run went through with every conflict resolved by
    [OVERWRITE_LOCAL], a second run over the same records finds no conflict
    and leaves the engine as it is while it plans and updates (no update is
    written); the decision source is not asked anything. *)
Theorem second_run_is_quiet (out : list NoteProps) (w1 : World)
    (now_iso' today' : string) :
  OrbitImportPod.plant_members cleanFname now_iso today handleConflict members
    vault config w0 = Some (Ok out, w1) ->
  answers_overwrite handleConflict config (prompts w0)
    (OrbitImportPod.conflicts first_plan) ->
  ∃ create2 : list NoteProps,
    OrbitImportPod.membersToNotes cleanFname now_iso' today' members vault
      (engine w1) config
    = (Ok (create2, []), engine w1)
    ∧ OrbitImportPod.plant_members cleanFname now_iso' today' handleConflict
        members vault config w1
      = Some (Ok (create2 ++ []),
              with_engine w1 (bulkAddNotes create2 (engine w1))).
Proof.
  intros Hrun Hans.
  destruct (first_run_engine out w1 Hrun Hans) as (Hfast & Hnotes & Hcustom).
  pose proof (fun m Hm =>
    second_action w1 now_iso' today' m Hm Hfast Hnotes Hcustom) as Hsecond.
  destruct (plan_members_actions cleanFname now_iso' today' vault (engine w1)
              config members) as (Hq & Hc & Hu).
  assert (Hmem : OrbitImportPod.membersToNotes cleanFname now_iso' today'
                   members vault (engine w1) config
                 = (Ok (OrbitImportPod.create
                          (OrbitImportPod.plan_members cleanFname now_iso'
                             today' members vault (engine w1) config), []),
                    engine w1)).
  { unfold OrbitImportPod.membersToNotes.
    rewrite update_all_at_rest.
    - rewrite Hq. rewrite omap_nil_all; [done|].
      intros m Hm. simpl.
      by destruct (Hsecond m Hm) as [[n ->]|(n & -> & _)].
    - rewrite Hu. intros u (m & Hm & Ha)%list_elem_of_omap. simpl in Ha.
      destruct (Hsecond m Hm) as [[n Hn]|(n & Hn & Hs)];
        rewrite Hn in Ha; simpl in Ha; [done|].
      by inversion Ha; subst u. }
  eexists. split; [exact Hmem|].
  unfold OrbitImportPod.plant_members. by rewrite Hmem.
Qed.
End Rerun.

Lemma second_run_is_quiet_witness :
  ∃ create2 : list NoteProps,
    OrbitImportPod.membersToNotes sample_cleanFname "2021-08-01T00:00:00.000Z"
      "2021.08.01" [alice; bob; carol] "vault" (engine first_run_world)
      overwrite_config
    = (Ok (create2, []), engine first_run_world)
    ∧ OrbitImportPod.plant_members sample_cleanFname "2021-08-01T00:00:00.000Z"
        "2021.08.01" always_skip [alice; bob; carol] "vault" overwrite_config
        first_run_world
      = Some (Ok (create2 ++ []),
              with_engine first_run_world
                (bulkAddNotes create2 (engine first_run_world))).
Proof.
  apply (second_run_is_quiet sample_cleanFname "2021-07-01T00:00:00.000Z"
           "2021.07.01" always_skip "vault" overwrite_config mixed_world
           [alice; bob; carol])
    with (out := first_run_out).
  - apply (bool_decide_unpack _). vm_compute. exact I.
  - apply (bool_decide_unpack _). vm_compute. exact I.
  - vm_compute. reflexivity.
  - left. reflexivity.
Defined.

(** C7 as stated fails: the store holds [people.bob] with github handle
    [bob-old], the record has [bob-new], and the decision source answers
    [SKIP].  The first run leaves the note as it is, and the second run over
    the same record queues the same conflict again. *)
Lemma second_run_conflicts_after_skip :
  ∃ (out : list NoteProps) (w1 : World) (c2 : Conflict) (e2 : Engine),
    OrbitImportPod.plant sample_cleanFname sample_stringifyError
      "2021-07-01T00:00:00.000Z" "2021.07.01" bob_page no_member always_skip
      5 "vault" sample_config bob_world
    = Some (Ok out, w1)
    ∧ OrbitImportPod.membersToNotes sample_cleanFname
        "2021-08-01T00:00:00.000Z" "2021.08.01" [bob] "vault" (engine w1)
        sample_config
      = (Ok ([], [c2]), e2)
    ∧ conflictData c2 = [SocialKeys.github].
Proof.
  eexists _, _, _, _. split; [vm_compute; reflexivity|].
  split; vm_compute; reflexivity.
Qed.

(** Two records that share a derived name: the first run creates both
    notes under that name, and the second run finds one of the records in
    conflict with the note of the other. *)
Lemma second_run_conflicts_on_shared_name :
  ∃ (out : list NoteProps) (w1 : World) (create2 : list NoteProps)
    (c2 : Conflict) (e2 : Engine),
    OrbitImportPod.plant_members sample_cleanFname "2021-07-01T00:00:00.000Z"
      "2021.07.01" always_skip [bob; bob_namesake] "vault" overwrite_config
      sample_world
    = Some (Ok out, w1)
    ∧ OrbitImportPod.membersToNotes sample_cleanFname
        "2021-08-01T00:00:00.000Z" "2021.08.01" [bob; bob_namesake] "vault"
        (engine w1) overwrite_config
      = (Ok (create2, [c2]), e2).
Proof.
  eexists _, _, _, _, _. split; vm_compute; reflexivity.
Qed.

(** * Further properties of the pod *)

(** ** Buckets of the planner *)

Section PlannerBuckets.
Variable cleanFname : string -> string.
Variables now_iso today vaultName : string.
Variable engine : Engine.
Variable config : OrbitImportPodConfig.

#[local] Abbreviation buckets ms :=
  (OrbitImportPod.plan_members cleanFname now_iso today ms vaultName engine config).
#[local] Abbreviation bucket_of m :=
  (plan_action cleanFname now_iso today vaultName engine config m).
#[local] Abbreviation name_of m := (OrbitUtils.cleanName cleanFname m).

Lemma action_lengths (members : list OrbitMemberData) :
  (length (omap (action_create ∘ (fun m => bucket_of m)) members)
   + length (omap (action_queue ∘ (fun m => bucket_of m)) members)
   + length (omap (action_update ∘ (fun m => bucket_of m)) members))%nat
  = length members.
Proof.
  induction members as [|m ms IH]; [done|]. cbn -[plan_action].
  destruct (bucket_of m); cbn -[plan_action] in *; lia.
Qed.

(** X1. Every record lands in exactly one of the three buckets: the
    lengths of [create], [conflicts] and [notesToUpdate] add up to the
    number of records. *)
Theorem plan_members_partition (members : list OrbitMemberData) :
  (length (OrbitImportPod.create (buckets members))
   + length (OrbitImportPod.conflicts (buckets members))
   + length (OrbitImportPod.notesToUpdate (buckets members)))%nat
  = length members.
Proof.
  destruct (plan_members_actions cleanFname now_iso today vaultName engine config
              members) as (-> & -> & ->).
  apply action_lengths.
Qed.

(** X2. A pair is in the update bucket exactly when its record is in the
    batch, its note is the one the lookup found for that record, and the
    detector found no conflicting key between that note and that record. *)
Theorem update_bucket_spec (members : list OrbitMemberData)
    (note : NoteProps) (member : OrbitMemberData) :
  (note, member) ∈ OrbitImportPod.notesToUpdate (buckets members)
  ↔ member ∈ members
    ∧ OrbitImportPod.lookup_note config engine (name_of member) = Some note
    ∧ OrbitImportPod.getConflictedData note member = [].
Proof.
  destruct (plan_members_actions cleanFname now_iso today vaultName engine config
              members) as (_ & _ & ->).
  rewrite list_elem_of_omap. rewrite lookup_note_key. split.
  - intros (m & Hm & Ha). simpl in Ha. unfold plan_action in Ha.
    destruct (notes engine !! lookup_key config engine (name_of m))
      as [n|] eqn:Hl; [|done].
    destruct (OrbitImportPod.getConflictedData n m) eqn:Hd; [|done].
    simpl in Ha. inversion Ha; subst. done.
  - intros (Hm & Hl & Hd). exists member. split; [done|].
    simpl. unfold plan_action. by rewrite Hl, Hd.
Qed.

(** X3. Every queued conflict comes from a record of the batch whose note
    was found with at least one conflicting key.  Its entry is filed under
    the quarantine name [people.orbit.duplicate.<today>.<name>], keeps the
    body and the other front-matter keys of the note (which win over the
    configured front matter), and carries as [orbitId] the identifier of
    the record's attributes ([member.attributes.id], not the [id] of the
    record itself) and the social values of the record. *)
Theorem queued_conflict_shape (members : list OrbitMemberData) (c : Conflict) :
  c ∈ OrbitImportPod.conflicts (buckets members) ->
  ∃ member : OrbitMemberData,
    member ∈ members
    ∧ OrbitImportPod.lookup_note config engine (name_of member)
      = Some (conflictNote c)
    ∧ conflictData c
      = OrbitImportPod.getConflictedData (conflictNote c) member
    ∧ conflictData c ≠ []
    ∧ fname (conflictEntry c)
      = "people.orbit.duplicate." +:+ today +:+ "." +:+ name_of member
    ∧ body (conflictEntry c) = body (conflictNote c)
    ∧ vault (conflictEntry c) = vaultName
    ∧ Custom.orbitId (custom_of (conflictEntry c))
      = Some (Attributes.id (attributes member))
    ∧ Custom.social (custom_of (conflictEntry c))
      = Some (OrbitUtils.getSocialAttributes member)
    ∧ Custom.extra (custom_of (conflictEntry c))
      = Custom.extra (custom_of (conflictNote c))
        ∪ Custom.extra (default Custom.empty (frontmatter config)).
Proof.
  destruct (plan_members_actions cleanFname now_iso today vaultName engine config
              members) as (-> & _ & _).
  intros (m & Hm & Ha)%list_elem_of_omap. exists m. split; [done|].
  rewrite lookup_note_key. simpl in Ha. unfold plan_action in Ha.
  destruct (notes engine !! lookup_key config engine (name_of m))
    as [n|] eqn:Hl; [|done].
  destruct (OrbitImportPod.getConflictedData n m) eqn:Hd; [done|].
  simpl in Ha. inversion Ha; subst c. simpl.
  rewrite Hd. repeat split; try done.
  unfold custom_of. simpl. by rewrite (left_id_L ∅ (∪)).
Qed.

(** X4. Every note of the create bucket comes from a record of the batch
    for which the lookup found nothing.  It is named [people.<name>], has an
    empty body, keeps the other keys of the configured front matter, and
    carries as [orbitId] the identifier of the record's attributes
    ([member.attributes.id], not the [id] of the record itself), the social
    values and the display name of the record, stamped with the time of the
    import. *)
Theorem created_note_shape (members : list OrbitMemberData) (n : NoteProps) :
  n ∈ OrbitImportPod.create (buckets members) ->
  ∃ member : OrbitMemberData,
    member ∈ members
    ∧ OrbitImportPod.lookup_note config engine (name_of member) = None
    ∧ fname n = "people." +:+ name_of member
    ∧ body n = ""
    ∧ vault n = vaultName
    ∧ Custom.orbitId (custom_of n)
      = Some (Attributes.id (attributes member))
    ∧ Custom.social (custom_of n)
      = Some (OrbitUtils.getSocialAttributes member)
    ∧ Custom.orbit (custom_of n)
      = Some {| orbit_info := Attributes.info (attributes member);
                orbit_name := Attributes.name (attributes member);
                last_imported_to_dendron := now_iso |}
    ∧ Custom.extra (custom_of n)
      = Custom.extra (default Custom.empty (frontmatter config)).
Proof.
  destruct (plan_members_actions cleanFname now_iso today vaultName engine config
              members) as (_ & -> & _).
  intros (m & Hm & Ha)%list_elem_of_omap. exists m. split; [done|].
  rewrite lookup_note_key. simpl in Ha. unfold plan_action in Ha.
  destruct (notes engine !! lookup_key config engine (name_of m))
    as [n'|] eqn:Hl.
  - by destruct (OrbitImportPod.getConflictedData n' m).
  - simpl in Ha. inversion Ha; subst n. simpl.
    repeat split; try done.
    unfold custom_of. simpl. by rewrite (left_id_L ∅ (∪)).
Qed.
End PlannerBuckets.

Lemma queued_conflict_shape_witness :
  ∃ member : OrbitMemberData,
    member ∈ [bob]
    ∧ OrbitImportPod.lookup_note overwrite_config bob_engine
        (OrbitUtils.cleanName sample_cleanFname member)
      = Some (conflictNote bob_conflict)
    ∧ conflictData bob_conflict
      = OrbitImportPod.getConflictedData (conflictNote bob_conflict) member
    ∧ conflictData bob_conflict ≠ []
    ∧ fname (conflictEntry bob_conflict)
      = "people.orbit.duplicate." +:+ "2021.07.01" +:+ "."
        +:+ OrbitUtils.cleanName sample_cleanFname member
    ∧ body (conflictEntry bob_conflict) = body (conflictNote bob_conflict)
    ∧ vault (conflictEntry bob_conflict) = "vault"
    ∧ Custom.orbitId (custom_of (conflictEntry bob_conflict))
      = Some (Attributes.id (attributes member))
    ∧ Custom.social (custom_of (conflictEntry bob_conflict))
      = Some (OrbitUtils.getSocialAttributes member)
    ∧ Custom.extra (custom_of (conflictEntry bob_conflict))
      = Custom.extra (custom_of (conflictNote bob_conflict))
        ∪ Custom.extra (default Custom.empty (frontmatter overwrite_config)).
Proof.
  apply (queued_conflict_shape sample_cleanFname "2021-07-01T00:00:00.000Z"
           "2021.07.01" "vault" bob_engine overwrite_config [bob] bob_conflict).
  apply (bool_decide_unpack _). vm_compute. exact I.
Defined.

Lemma created_note_shape_witness :
  ∃ member : OrbitMemberData,
    member ∈ [alice]
    ∧ OrbitImportPod.lookup_note tagged_config sample_engine
        (OrbitUtils.cleanName sample_cleanFname member) = None
    ∧ fname (created_note sample_cleanFname "2021-07-01T00:00:00.000Z" "vault"
               tagged_config alice)
      = "people." +:+ OrbitUtils.cleanName sample_cleanFname member
    ∧ body (created_note sample_cleanFname "2021-07-01T00:00:00.000Z" "vault"
              tagged_config alice) = ""
    ∧ vault (created_note sample_cleanFname "2021-07-01T00:00:00.000Z" "vault"
               tagged_config alice) = "vault"
    ∧ Custom.orbitId
        (custom_of (created_note sample_cleanFname "2021-07-01T00:00:00.000Z"
                      "vault" tagged_config alice))
      = Some (Attributes.id (attributes member))
    ∧ Custom.social
        (custom_of (created_note sample_cleanFname "2021-07-01T00:00:00.000Z"
                      "vault" tagged_config alice))
      = Some (OrbitUtils.getSocialAttributes member)
    ∧ Custom.orbit
        (custom_of (created_note sample_cleanFname "2021-07-01T00:00:00.000Z"
                      "vault" tagged_config alice))
      = Some {| orbit_info := Attributes.info (attributes member);
                orbit_name := Attributes.name (attributes member);
                last_imported_to_dendron := "2021-07-01T00:00:00.000Z" |}
    ∧ Custom.extra
        (custom_of (created_note sample_cleanFname "2021-07-01T00:00:00.000Z"
                      "vault" tagged_config alice))
      = Custom.extra (default Custom.empty (frontmatter tagged_config)).
Proof.
  apply (created_note_shape sample_cleanFname "2021-07-01T00:00:00.000Z"
           "2021.07.01" "vault" sample_engine tagged_config [alice]).
  apply (bool_decide_unpack _). vm_compute. exact I.
Defined.

(** ** Override name and fast mode *)

Section OverrideName.
Variable cleanFname : string -> string.
Variables now_iso today vaultName : string.

(** X5. Outside fast mode the override destination name plays no part:
    [membersToNotes] gives the same buckets and leaves the same engine
    whatever [destName] holds. *)
Theorem destName_ignored_outside_fast_mode (members : list OrbitMemberData)
    (engine : Engine) (config : OrbitImportPodConfig) (d : option string) :
  fastMode engine = false ->
  OrbitImportPod.membersToNotes cleanFname now_iso today members vaultName
    engine (with_destName config d)
  = OrbitImportPod.membersToNotes cleanFname now_iso today members vaultName
      engine config.
Proof.
  intros Hslow.
  assert (Hplan : OrbitImportPod.plan_members cleanFname now_iso today members
                    vaultName engine (with_destName config d)
                  = OrbitImportPod.plan_members cleanFname now_iso today members
                      vaultName engine config).
  { unfold OrbitImportPod.plan_members. generalize OrbitImportPod.no_buckets.
    induction members as [|m ms IH]; intros b; [done|]. simpl.
    rewrite IH. f_equal. unfold OrbitImportPod.plan_member.
    by rewrite !lookup_note_derived_outside_fast_mode. }
  unfold OrbitImportPod.membersToNotes. by rewrite Hplan.
Qed.

(** X6. In fast mode with an override name under which the store holds
    nothing, every record is created: no record is queued or updated, even
    when the store holds a note under the record's own name, and the create
    bucket has one note [people.<name>] per record, in the order of the
    records. *)
Theorem fast_mode_override_creates_all (members : list OrbitMemberData)
    (engine : Engine) (config : OrbitImportPodConfig) (d : string) :
  fastMode engine = true ->
  destName config = Some d ->
  d ≠ "" ->
  notes engine !! d = None ->
  OrbitImportPod.conflicts
    (OrbitImportPod.plan_members cleanFname now_iso today members vaultName
       engine config) = []
  ∧ OrbitImportPod.notesToUpdate
      (OrbitImportPod.plan_members cleanFname now_iso today members vaultName
         engine config) = []
  ∧ fname <$> OrbitImportPod.create
                (OrbitImportPod.plan_members cleanFname now_iso today members
                   vaultName engine config)
    = (fun m => "people." +:+ OrbitUtils.cleanName cleanFname m) <$> members.
Proof.
  intros Hfast Hd Hne Hnone.
  assert (Hact : ∀ m, plan_action cleanFname now_iso today vaultName engine
                        config m
                      = ToCreate (created_note cleanFname now_iso vaultName
                                    config m)).
  { intros m. unfold plan_action, lookup_key, OrbitImportPod.lookup_fname.
    rewrite Hfast, Hd. simpl.
    destruct (String.eqb d "") eqn:E; [by apply String.eqb_eq in E|].
    simpl. by rewrite Hnone. }
  destruct (plan_members_actions cleanFname now_iso today vaultName engine
              config members) as (-> & -> & ->).
  induction members as [|m ms (IH1 & IH2 & IH3)]; [done|].
  cbn -[plan_action]. rewrite Hact. cbn -[plan_action].
  rewrite IH1, IH2, IH3. done.
Qed.
End OverrideName.

Lemma destName_ignored_outside_fast_mode_witness :
  OrbitImportPod.membersToNotes sample_cleanFname "2021-07-01T00:00:00.000Z"
    "2021.07.01" [alice; bob] "vault" bob_engine
    (with_destName sample_config (Some "people.everyone"))
  = OrbitImportPod.membersToNotes sample_cleanFname "2021-07-01T00:00:00.000Z"
      "2021.07.01" [alice; bob] "vault" bob_engine sample_config.
Proof.
  apply (destName_ignored_outside_fast_mode sample_cleanFname
           "2021-07-01T00:00:00.000Z" "2021.07.01" "vault" [alice; bob]
           bob_engine sample_config (Some "people.everyone")).
  reflexivity.
Defined.

Lemma fast_mode_override_creates_all_witness :
  OrbitImportPod.conflicts
    (OrbitImportPod.plan_members sample_cleanFname "2021-07-01T00:00:00.000Z"
       "2021.07.01" [alice; bob] "vault" fast_bob_engine dest_config) = []
  ∧ OrbitImportPod.notesToUpdate
      (OrbitImportPod.plan_members sample_cleanFname "2021-07-01T00:00:00.000Z"
         "2021.07.01" [alice; bob] "vault" fast_bob_engine dest_config) = []
  ∧ fname <$> OrbitImportPod.create
                (OrbitImportPod.plan_members sample_cleanFname
                   "2021-07-01T00:00:00.000Z" "2021.07.01" [alice; bob]
                   "vault" fast_bob_engine dest_config)
    = (fun m => "people." +:+ OrbitUtils.cleanName sample_cleanFname m)
        <$> [alice; bob].
Proof.
  apply (fast_mode_override_creates_all sample_cleanFname
           "2021-07-01T00:00:00.000Z" "2021.07.01" "vault" [alice; bob]
           fast_bob_engine dest_config "people.everyone").
  - reflexivity.
  - reflexivity.
  - discriminate.
  - reflexivity.
Defined.

(** ** More on the updates *)

Section UpdaterMore.

Lemma updateNoteData_returns (note n1 : NoteProps) (member : OrbitMemberData)
    (e e1 : Engine) :
  OrbitImportPod.updateNoteData note member e = (Ok n1, e1) ->
  ∃ c, custom note = Some c
       ∧ n1 = updated_note note member
       ∧ custom n1
         = Some (Custom.set_social c
                   (adopted (default SocialData.empty (Custom.social c))
                      (attributes member)))
       ∧ e1 = if should_update note member then writeNote n1 e else e.
Proof.
  intros H. destruct (custom note) as [c|] eqn:Hc.
  - rewrite (updateNoteData_custom _ _ _ _ Hc) in H.
    exists c. split; [done|]. inversion H as [[Hn He]].
    repeat split. unfold updated_note. by rewrite Hc.
  - destruct (updateNoteData_no_custom note member e Hc) as [msg Ht].
    by rewrite Ht in H.
Qed.

(** X7. A note whose front matter was built with the [orbitData] of a
    record, as the created notes and the conflict entries are, is at rest
    for that record: the detector finds no conflicting key, and the update
    returns the note unchanged without writing it. *)
Theorem imported_note_at_rest (now_iso : string) (n : NoteProps)
    (c0 : Custom.t) (member : OrbitMemberData) (engine : Engine) :
  custom n = Some (Custom.spread c0 (OrbitImportPod.orbitData now_iso member)) ->
  OrbitImportPod.getConflictedData n member = []
  ∧ OrbitImportPod.updateNoteData n member engine = (Ok n, engine).
Proof.
  intros Hc.
  destruct (settled_social n member) as (Hno & _ & Hupd).
  { by rewrite Hc. }
  { unfold social_of. by rewrite Hc. }
  split; [done|].
  rewrite (updateNoteData_custom _ _ _ _ Hc), Hupd. f_equal. f_equal.
  unfold updated_note. rewrite Hc.
  change (default SocialData.empty
            (Custom.social
               (Custom.spread c0 (OrbitImportPod.orbitData now_iso member))))
    with (OrbitUtils.getSocialAttributes member).
  rewrite adopted_fix.
  - rewrite set_social_same by done. by apply set_custom_same.
  - intros key. apply adoptable_same. apply getSocialAttributes_get.
Qed.

(** X8. Updating is idempotent: once a note has been updated from a
    record, updating it again from the same record returns the same note
    and writes nothing. *)
Theorem updateNoteData_idempotent (note n1 : NoteProps)
    (member : OrbitMemberData) (e e1 : Engine) :
  OrbitImportPod.updateNoteData note member e = (Ok n1, e1) ->
  OrbitImportPod.updateNoteData n1 member e1 = (Ok n1, e1).
Proof.
  intros H. apply updateNoteData_returns in H as (c & Hc & Hn1 & Hc1 & _).
  rewrite (updateNoteData_custom _ _ _ _ Hc1).
  assert (should_update n1 member = false) as ->.
  { unfold should_update. rewrite Hc1. apply existsb_none.
    intros key. apply adoptable_adopted. }
  f_equal. f_equal. unfold updated_note. rewrite Hc1.
  set (s0 := default SocialData.empty (Custom.social c)) in *.
  change (default SocialData.empty
            (Custom.social
               (Custom.set_social c (adopted s0 (attributes member)))))
    with (adopted s0 (attributes member)).
  rewrite (adopted_fix (adopted s0 (attributes member)))
    by (intros key; apply adoptable_adopted).
  rewrite set_social_same by done. by apply set_custom_same.
Qed.

(** X9. The update only fills [null] social fields.  It keeps the name,
    the vault and the body of the note, every front-matter key other than
    [social], and every social field that was not [null]; and the detector
    gives the same keys after the update as before it. *)
Theorem updateNoteData_preserves (note n1 : NoteProps)
    (member : OrbitMemberData) (e e1 : Engine) :
  OrbitImportPod.updateNoteData note member e = (Ok n1, e1) ->
  fname n1 = fname note
  ∧ vault n1 = vault note
  ∧ body n1 = body note
  ∧ Custom.orbitId (custom_of n1) = Custom.orbitId (custom_of note)
  ∧ Custom.orbit (custom_of n1) = Custom.orbit (custom_of note)
  ∧ Custom.extra (custom_of n1) = Custom.extra (custom_of note)
  ∧ (∀ key, SocialData.get (social_bag note) key ≠ JNull ->
            SocialData.get (social_bag n1) key
            = SocialData.get (social_bag note) key)
  ∧ OrbitImportPod.getConflictedData n1 member
    = OrbitImportPod.getConflictedData note member.
Proof.
  intros H. apply updateNoteData_returns in H as (c & Hc & Hn1 & Hc1 & _).
  assert (Hconf : OrbitImportPod.getConflictedData n1 member
                  = OrbitImportPod.getConflictedData note member).
  { rewrite (getConflictedData_filter n1 member _ _ Hc1 eq_refl).
    destruct (Custom.social c) as [s|] eqn:Hs.
    - rewrite (getConflictedData_filter note member c s Hc Hs).
      apply filter_ext. intros key. apply (conflicting_adopted s).
    - unfold OrbitImportPod.getConflictedData. rewrite Hc, Hs.
      apply List_filter_none. intros key.
      rewrite (conflicting_adopted SocialData.empty). by destruct key. }
  assert (Hf : fname n1 = fname note ∧ vault n1 = vault note
               ∧ body n1 = body note).
  { rewrite Hn1. unfold updated_note. by rewrite Hc. }
  destruct Hf as (Hf1 & Hf2 & Hf3).
  unfold custom_of, social_bag, custom_of. rewrite Hc1, Hc.
  repeat split; try done.
  intros key Hset.
  change (SocialData.get
            (adopted (default SocialData.empty (Custom.social c))
               (attributes member)) key
          = SocialData.get (default SocialData.empty (Custom.social c)) key).
  rewrite adopted_get. unfold adopt_value.
  destruct (adoptable _ _ key) eqn:E; [|done].
  unfold adoptable in E. apply andb_true_iff in E as [E _].
  by apply strict_eq_true in E.
Qed.
End UpdaterMore.

Lemma imported_note_at_rest_witness :
  OrbitImportPod.getConflictedData
    (created_note sample_cleanFname "2021-07-01T00:00:00.000Z" "vault"
       sample_config alice) alice = []
  ∧ OrbitImportPod.updateNoteData
      (created_note sample_cleanFname "2021-07-01T00:00:00.000Z" "vault"
         sample_config alice) alice sample_engine
    = (Ok (created_note sample_cleanFname "2021-07-01T00:00:00.000Z" "vault"
             sample_config alice), sample_engine).
Proof.
  apply (imported_note_at_rest "2021-07-01T00:00:00.000Z"
           (created_note sample_cleanFname "2021-07-01T00:00:00.000Z" "vault"
              sample_config alice) Custom.empty alice sample_engine).
  reflexivity.
Defined.

Lemma updateNoteData_idempotent_witness :
  OrbitImportPod.updateNoteData (updated_note carol_null carol) carol
    (writeNote (updated_note carol_null carol) sample_engine)
  = (Ok (updated_note carol_null carol),
     writeNote (updated_note carol_null carol) sample_engine).
Proof.
  apply (updateNoteData_idempotent carol_null (updated_note carol_null carol)
           carol sample_engine).
  reflexivity.
Defined.

Lemma updateNoteData_preserves_witness :
  fname (updated_note carol_null carol) = fname carol_null
  ∧ vault (updated_note carol_null carol) = vault carol_null
  ∧ body (updated_note carol_null carol) = body carol_null
  ∧ Custom.orbitId (custom_of (updated_note carol_null carol))
    = Custom.orbitId (custom_of carol_null)
  ∧ Custom.orbit (custom_of (updated_note carol_null carol))
    = Custom.orbit (custom_of carol_null)
  ∧ Custom.extra (custom_of (updated_note carol_null carol))
    = Custom.extra (custom_of carol_null)
  ∧ (∀ key, SocialData.get (social_bag carol_null) key ≠ JNull ->
            SocialData.get (social_bag (updated_note carol_null carol)) key
            = SocialData.get (social_bag carol_null) key)
  ∧ OrbitImportPod.getConflictedData (updated_note carol_null carol) carol
    = OrbitImportPod.getConflictedData carol_null carol.
Proof.
  apply (updateNoteData_preserves carol_null (updated_note carol_null carol)
           carol sample_engine
           (writeNote (updated_note carol_null carol) sample_engine)).
  reflexivity.
Defined.

(** ** A note without front matter *)

Section MissingCustom.
Variable cleanFname : string -> string.
Variables now_iso today vaultName : string.
Variable handleConflict :
  list (option Conflict) -> option Conflict -> MergeConflictOptions.t.

End MissingCustom.


(** The same run in full: the note [people.bob] adopts the twitter handle
    of [bob_twin] and is written, [people.carol] has no front matter and
    its update throws; that one write is all the engine receives. *)
Lemma missing_custom_after_a_write :
  ∃ (msg : string) (w' : World),
    OrbitImportPod.plant_members sample_cleanFname "2021-07-01T00:00:00.000Z"
      "2021.07.01" always_skip [bob_twin; alice; carol] "vault" sample_config
      plain_world
    = Some (Throw (TypeError msg), w')
    ∧ calls (engine w') = [WriteNote (updated_note bob_existing bob_twin)].
Proof.
  eexists _, _. split; vm_compute; reflexivity.
Qed.

(** ** More on the resolver *)

Section ResolverMore.
Variable handleConflict :
  list (option Conflict) -> option Conflict -> MergeConflictOptions.t.
Variable config : OrbitImportPodConfig.

(** What a walk over the queue does to the world, whatever is decided: it
    asks about a first stretch of the queue, and writes the renamed entries
    of some of the entries, in the order of the queue. *)
Lemma resolve_queue_effects (queue : list Conflict) :
  ∀ w : World,
    ∃ (asked committed : list Conflict),
      asked `prefix_of` queue
      ∧ committed `sublist_of` queue
      ∧ requests (resolve_queue handleConflict config queue w) = requests w
      ∧ prompts (resolve_queue handleConflict config queue w)
        = prompts w ++ (Some <$> asked)
      ∧ engine (resolve_queue handleConflict config queue w)
        = write_all (overwritten <$> committed) (engine w)
      ∧ (overwriteAll config = true -> asked = [] ∧ committed = queue).
Proof.
  induction queue as [|c rest IH]; intros w.
  - exists [], []. simpl. rewrite app_nil_r. by repeat split.
  - simpl. destruct (overwriteAll config) eqn:Hflag.
    + destruct (IH (with_engine w (writeNote (overwritten c) (engine w))))
        as (asked & committed & Hpre & Hsub & Hreq & Hpr & Heng & Hall).
      destruct (Hall eq_refl) as [-> ->].
      exists [], (c :: rest). rewrite Hreq, Hpr, Heng.
      repeat split; try done. apply prefix_nil.
    + destruct (handleConflict (prompts w) (Some c)).
      * destruct (IH (with_engine (with_prompt w (Some c))
                        (writeNote (overwritten c)
                           (engine (with_prompt w (Some c))))))
          as (asked & committed & Hpre & Hsub & Hreq & Hpr & Heng & _).
        exists (c :: asked), (c :: committed). rewrite Hreq, Hpr, Heng.
        simpl. rewrite <- app_assoc.
        repeat split; try done; [by apply prefix_cons|by constructor].
      * destruct (IH (with_prompt w (Some c)))
          as (asked & committed & Hpre & Hsub & Hreq & Hpr & Heng & _).
        exists (c :: asked), committed. rewrite Hreq, Hpr, Heng.
        simpl. rewrite <- app_assoc.
        repeat split; try done; [by apply prefix_cons|by constructor].
      * exists [c], []. simpl.
        repeat split; try done; [|apply sublist_nil_l].
        apply prefix_cons, prefix_nil.
      * destruct (IH (with_prompt w (Some c)))
          as (asked & committed & Hpre & Hsub & Hreq & Hpr & Heng & _).
        exists (c :: asked), committed. rewrite Hreq, Hpr, Heng.
        simpl. rewrite <- app_assoc.
        repeat split; try done; [by apply prefix_cons|by constructor].
Qed.

(** X11. With the overwrite-all flag the resolver never asks the decision
    source: it returns the list it was given, sends no request, and the
    engine receives the renamed entry of every queue entry, in the order of
    the queue. *)
Theorem overwriteAll_never_asks (conflicts : list Conflict) (fuel : nat)
    (conflictResolvedNotes : list NoteProps) (w : World) :
  overwriteAll config = true ->
  (0 < length conflicts)%nat ->
  (length conflicts ≤ fuel)%nat ->
  ∃ w' : World,
    OrbitImportPod.onConflict handleConflict fuel conflicts 0 config
      conflictResolvedNotes w
    = Some (Ok conflictResolvedNotes, w')
    ∧ prompts w' = prompts w
    ∧ requests w' = requests w
    ∧ calls (engine w')
      = calls (engine w) ++ ((WriteNote ∘ overwritten) <$> conflicts).
Proof.
  intros Hflag Hlen Hfuel.
  rewrite onConflict_resolve_queue by lia. rewrite drop_0.
  eexists. split; [done|].
  destruct (resolve_queue_effects conflicts w)
    as (asked & committed & _ & _ & Hreq & Hpr & Heng & Hall).
  destruct (Hall Hflag) as [-> ->].
  rewrite Hreq, Hpr, Heng, write_all_calls, app_nil_r.
  by rewrite <- list_fmap_compose.
Qed.

(** X12. Whatever is decided, the resolver only ever writes renamed
    entries of the queue, in the order of the queue, each under the name of
    its conflicted note: a name that no conflicted note of the queue bears
    keeps the note it had, so that nothing is stored under a quarantine
    name. *)
Theorem resolver_writes_renamed_entries (conflicts : list Conflict)
    (fuel : nat) (conflictResolvedNotes : list NoteProps) (w : World) :
  (0 < length conflicts)%nat ->
  (length conflicts ≤ fuel)%nat ->
  ∃ (w' : World) (committed : list Conflict),
    OrbitImportPod.onConflict handleConflict fuel conflicts 0 config
      conflictResolvedNotes w
    = Some (Ok conflictResolvedNotes, w')
    ∧ committed `sublist_of` conflicts
    ∧ calls (engine w')
      = calls (engine w) ++ ((WriteNote ∘ overwritten) <$> committed)
    ∧ (∀ c, c ∈ committed -> fname (overwritten c) = fname (conflictNote c))
    ∧ (∀ k : string,
         (∀ c, c ∈ conflicts -> fname (conflictNote c) ≠ k) ->
         notes (engine w') !! k = notes (engine w) !! k).
Proof.
  intros Hlen Hfuel.
  rewrite onConflict_resolve_queue by lia. rewrite drop_0.
  destruct (resolve_queue_effects conflicts w)
    as (asked & committed & _ & Hsub & _ & _ & Heng & _).
  eexists _, committed. split; [done|]. split; [done|].
  rewrite Heng. split; [|split; [done|]].
  - rewrite write_all_calls. by rewrite <- list_fmap_compose.
  - intros k Hk. apply write_all_lookup_other.
    intros n (c & -> & Hc)%list_elem_of_fmap. simpl.
    apply Hk. by eapply elem_of_sublist.
Qed.

(** X13. When every answer of the decision source is [SKIP] or is not an
    option at all, the resolver asks about every entry of the queue, in
    order, and leaves the engine as it is: an answer that is not an option
    counts as a skip. *)
Theorem skips_leave_engine_alone (conflicts : list Conflict) (fuel : nat)
    (conflictResolvedNotes : list NoteProps) (w : World) :
  overwriteAll config = false ->
  (∀ h c, handleConflict h c = MergeConflictOptions.SKIP
          ∨ handleConflict h c = MergeConflictOptions.Unrecognized) ->
  (0 < length conflicts)%nat ->
  (length conflicts ≤ fuel)%nat ->
  ∃ w' : World,
    OrbitImportPod.onConflict handleConflict fuel conflicts 0 config
      conflictResolvedNotes w
    = Some (Ok conflictResolvedNotes, w')
    ∧ engine w' = engine w
    ∧ prompts w' = prompts w ++ (Some <$> conflicts).
Proof.
  intros Hflag Hans Hlen Hfuel.
  rewrite onConflict_resolve_queue by lia. rewrite drop_0.
  eexists. split; [done|]. clear Hlen Hfuel. revert w.
  induction conflicts as [|c rest IH]; intros w; simpl.
  - by rewrite app_nil_r.
  - rewrite Hflag.
    destruct (Hans (prompts w) (Some c)) as [-> | ->];
      destruct (IH (with_prompt w (Some c))) as [-> ->];
      simpl; by rewrite <- app_assoc.
Qed.

(** X14. [onConflict] presumes an index inside the queue, which is why
    [plant] only calls it on a queue that is not empty: on an index outside
    the queue (any index, when the queue is empty) an [OVERWRITE_LOCAL]
    decision makes it throw a [TypeError], with nothing written. *)
Theorem onConflict_outside_queue (conflicts : list Conflict) (index fuel : nat)
    (conflictResolvedNotes : list NoteProps) (w : World) :
  (length conflicts ≤ index)%nat ->
  overwriteAll config = true
  ∨ handleConflict (prompts w) None = MergeConflictOptions.OVERWRITE_LOCAL ->
  ∃ (msg : string) (w' : World),
    OrbitImportPod.onConflict handleConflict (S fuel) conflicts index config
      conflictResolvedNotes w
    = Some (Throw (TypeError msg), w')
    ∧ engine w' = engine w.
Proof.
  intros Hout Hdec. simpl.
  rewrite (lookup_ge_None_2 conflicts index Hout).
  destruct (overwriteAll config) eqn:Hflag.
  - by eexists _, _.
  - destruct Hdec as [|Hdec]; [done|]. rewrite Hdec. by eexists _, _.
Qed.

(** X15. The recursion of [onConflict] ends: from an index inside the
    queue it returns within as many calls as there are entries left, and
    what it returns is the list it was given, the same for any larger
    bound. *)
Theorem onConflict_terminates (conflicts : list Conflict) (index fuel : nat)
    (conflictResolvedNotes : list NoteProps) (w : World) :
  (index < length conflicts)%nat ->
  (length conflicts - index ≤ fuel)%nat ->
  ∃ w' : World,
    OrbitImportPod.onConflict handleConflict (length conflicts - index)
      conflicts index config conflictResolvedNotes w
    = Some (Ok conflictResolvedNotes, w')
    ∧ OrbitImportPod.onConflict handleConflict fuel conflicts index config
        conflictResolvedNotes w
      = Some (Ok conflictResolvedNotes, w').
Proof.
  intros Hin Hfuel. eexists. split.
  - by rewrite onConflict_resolve_queue by lia.
  - by rewrite onConflict_resolve_queue by lia.
Qed.
End ResolverMore.

Lemma overwriteAll_never_asks_witness :
  ∃ w' : World,
    OrbitImportPod.onConflict always_skip 3 sample_conflicts 0 overwrite_config
      [] sample_world
    = Some (Ok [], w')
    ∧ prompts w' = prompts sample_world
    ∧ requests w' = requests sample_world
    ∧ calls (engine w')
      = calls (engine sample_world)
        ++ ((WriteNote ∘ overwritten) <$> sample_conflicts).
Proof.
  apply (overwriteAll_never_asks always_skip overwrite_config sample_conflicts
           3 [] sample_world).
  - reflexivity.
  - vm_compute. lia.
  - vm_compute. lia.
Defined.

Lemma resolver_writes_renamed_entries_witness :
  ∃ (w' : World) (committed : list Conflict),
    OrbitImportPod.onConflict skip_all_at_second 3 sample_conflicts 0
      sample_config [] sample_world
    = Some (Ok [], w')
    ∧ committed `sublist_of` sample_conflicts
    ∧ calls (engine w')
      = calls (engine sample_world) ++ ((WriteNote ∘ overwritten) <$> committed)
    ∧ (∀ c, c ∈ committed -> fname (overwritten c) = fname (conflictNote c))
    ∧ (∀ k : string,
         (∀ c, c ∈ sample_conflicts -> fname (conflictNote c) ≠ k) ->
         notes (engine w') !! k = notes (engine sample_world) !! k).
Proof.
  apply (resolver_writes_renamed_entries skip_all_at_second sample_config
           sample_conflicts 3 [] sample_world).
  - vm_compute. lia.
  - vm_compute. lia.
Defined.

Lemma skips_leave_engine_alone_witness :
  ∃ w' : World,
    OrbitImportPod.onConflict always_unrecognized 3 sample_conflicts 0
      sample_config [] sample_world
    = Some (Ok [], w')
    ∧ engine w' = engine sample_world
    ∧ prompts w' = prompts sample_world ++ (Some <$> sample_conflicts).
Proof.
  apply (skips_leave_engine_alone always_unrecognized sample_config
           sample_conflicts 3 [] sample_world).
  - reflexivity.
  - intros h c. by right.
  - vm_compute. lia.
  - vm_compute. lia.
Defined.

Lemma onConflict_outside_queue_witness :
  ∃ (msg : string) (w' : World),
    OrbitImportPod.onConflict always_skip 1 [] 0 overwrite_config []
      sample_world
    = Some (Throw (TypeError msg), w')
    ∧ engine w' = engine sample_world.
Proof.
  apply (onConflict_outside_queue always_skip overwrite_config [] 0 0 []
           sample_world).
  - simpl. lia.
  - left. reflexivity.
Defined.

Lemma onConflict_terminates_witness :
  ∃ w' : World,
    OrbitImportPod.onConflict skip_all_at_second
      (length sample_conflicts - 1) sample_conflicts 1 sample_config []
      sample_world
    = Some (Ok [], w')
    ∧ OrbitImportPod.onConflict skip_all_at_second 7 sample_conflicts 1
        sample_config [] sample_world
      = Some (Ok [], w').
Proof.
  apply (onConflict_terminates skip_all_at_second sample_config
           sample_conflicts 1 7 [] sample_world).
  - vm_compute. lia.
  - vm_compute. lia.
Defined.

(** ** Calls of a run on the engine *)

Section RunCalls.
Variable cleanFname : string -> string.
Variables now_iso today vaultName : string.
Variable handleConflict :
  list (option Conflict) -> option Conflict -> MergeConflictOptions.t.



(** X17. The output of a run that gets through lists the created and the
    conflicted notes, not the notes updated in place: its length and the
    length of the update bucket add up to the number of records. *)
Theorem plant_members_output_count (members : list OrbitMemberData)
    (config : OrbitImportPodConfig) (w w' : World) (out : list NoteProps) :
  OrbitImportPod.plant_members cleanFname now_iso today handleConflict members
    vaultName config w = Some (Ok out, w') ->
  (length out
   + length (OrbitImportPod.notesToUpdate
               (OrbitImportPod.plan_members cleanFname now_iso today members
                  vaultName (engine w) config)))%nat
  = length members.
Proof.
  intros Hrun.
  destruct (OrbitImportPod.membersToNotes cleanFname now_iso today members
              vaultName (engine w) config)
    as [[[create conflicts]|e] e'] eqn:H.
  2: { unfold OrbitImportPod.plant_members in Hrun. rewrite H in Hrun.
       by inversion Hrun. }
  rewrite (plant_members_resolve _ _ _ _ _ _ _ _ _ _ _ H) in Hrun.
  apply membersToNotes_ok in H as (-> & -> & _).
  assert (Hout : out = OrbitImportPod.create
                         (OrbitImportPod.plan_members cleanFname now_iso today
                            members vaultName (engine w) config)
                       ++ map conflictNote
                            (OrbitImportPod.as_it_is e'
                             <$> OrbitImportPod.conflicts
                                   (OrbitImportPod.plan_members cleanFname
                                      now_iso today members vaultName
                                      (engine w) config)))
    by congruence.
  rewrite Hout, length_app, length_map, length_fmap.
  destruct (plan_members_actions cleanFname now_iso today vaultName (engine w)
              config members) as (-> & -> & ->).
  assert (Hlen :
    (length (omap (action_create
                   ∘ plan_action cleanFname now_iso today vaultName (engine w)
                       config) members)
     + length (omap (action_queue
                     ∘ plan_action cleanFname now_iso today vaultName
                         (engine w) config) members)
     + length (omap (action_update
                     ∘ plan_action cleanFname now_iso today vaultName
                         (engine w) config) members))%nat
    = length members) by apply action_lengths.
  lia.
Qed.
End RunCalls.


Lemma plant_members_output_count_witness :
  (length first_run_out
   + length (OrbitImportPod.notesToUpdate
               (OrbitImportPod.plan_members sample_cleanFname
                  "2021-07-01T00:00:00.000Z" "2021.07.01" [alice; bob; carol]
                  "vault" (engine mixed_world) overwrite_config)))%nat
  = length [alice; bob; carol].
Proof.
  apply (plant_members_output_count sample_cleanFname
           "2021-07-01T00:00:00.000Z" "2021.07.01" "vault" always_skip
           [alice; bob; carol] overwrite_config mixed_world first_run_world
           first_run_out).
  vm_compute. reflexivity.
Defined.

(** ** More on the fetcher *)

Section FetcherMore.
Variable stringifyError : AxiosError -> string.
Variable axios_get_members : list Request -> Request -> AxiosError + Page.

(** X18. A page that holds records is returned as it came: the records
    in their order and the [links.next] of the answer as the next cursor,
    for one request sent. *)
Theorem nonempty_page_returned (token workspaceSlug link : string) (w : World)
    (response : Page) :
  axios_get_members (requests w)
    (OrbitImportPod.members_request token workspaceSlug link) = inr response ->
  data response ≠ [] ->
  OrbitImportPod.getMembersFromOrbit stringifyError axios_get_members token
    workspaceSlug link w
  = (Ok (data response, links_next response),
     with_request w (OrbitImportPod.members_request token workspaceSlug link)).
Proof.
  intros Hget Hdata.
  rewrite (getMembersFromOrbit_ok stringifyError _ _ _ _ _ _ Hget).
  by destruct (data response).
Qed.

Lemma loop_requests (fuel : nat) (token workspaceSlug : string) :
  ∀ (next : option string) (members : list OrbitMemberData) (w w' : World)
    (r : Result (list OrbitMemberData)),
    OrbitImportPod.getAllMembers_loop stringifyError axios_get_members fuel
      token workspaceSlug next members w = Some (r, w') ->
    engine w' = engine w
    ∧ prompts w' = prompts w
    ∧ ∃ links : list string,
        requests w'
        = requests w
          ++ (OrbitImportPod.members_request token workspaceSlug <$> links)
        ∧ match next with
          | Some link => head links = Some link
          | None => links = []
          end.
Proof.
  induction fuel as [|fuel IH]; intros next members w w' r H.
  - destruct next as [link|]; simpl in H; [done|].
    inversion H; subst. repeat split. exists []. by rewrite app_nil_r.
  - destruct next as [link|]; simpl in H.
    + unfold OrbitImportPod.getMembersFromOrbit in H.
      destruct (axios_get_members (requests w) _) as [error|response].
      * inversion H; subst. repeat split. exists [link]. done.
      * destruct (fold_left _ (data response) _) as [ms next'].
        apply IH in H as (-> & -> & links & -> & _).
        repeat split. exists (link :: links). simpl.
        by rewrite <- app_assoc.
    + inversion H; subst. repeat split. exists []. by rewrite app_nil_r.
Qed.

(** X19. Fetching all members touches neither the engine nor the decision
    source.  The requests it sends all carry the bearer token of the
    configuration, and the first of them goes to the members listing of the
    workspace, a hundred items a page. *)
Theorem getAllMembers_requests (fuel : nat) (config : OrbitImportPodConfig)
    (w w' : World) (r : Result (list OrbitMemberData)) :
  OrbitImportPod.getAllMembers stringifyError axios_get_members fuel config w
  = Some (r, w') ->
  engine w' = engine w
  ∧ prompts w' = prompts w
  ∧ ∃ rest : list Request,
      requests w'
      = requests w
        ++ {| url := "https://app.orbit.love/api/v1/" +:+ workspaceSlug config
                     +:+ "/members?items=100";
              authorization := "Bearer " +:+ token config |} :: rest
      ∧ Forall (fun q => authorization q = "Bearer " +:+ token config) rest.
Proof.
  intros H. unfold OrbitImportPod.getAllMembers in H.
  apply loop_requests in H as (He & Hp & links & Hr & Hhead).
  split; [done|]. split; [done|].
  destruct links as [|l links]; [done|]. simpl in Hhead.
  inversion Hhead; subst l.
  exists (OrbitImportPod.members_request (token config) (workspaceSlug config)
            <$> links).
  split; [done|].
  apply Forall_fmap, Forall_forall. by intros x _.
Qed.

(** X20. Nothing bounds the pagination but the [null] cursor: against a
    source whose every page holds a record and links to a next page, the
    loop of [getAllMembers] never returns, however many pages it is
    allowed. *)
Theorem getAllMembers_endless (config : OrbitImportPodConfig) (w : World) :
  (∀ (h : list Request) (q : Request),
     ∃ (m : OrbitMemberData) (ms : list OrbitMemberData) (next : string),
       axios_get_members h q
       = inr {| data := m :: ms; links_next := Some next |}) ->
  ∀ fuel : nat,
    OrbitImportPod.getAllMembers stringifyError axios_get_members fuel config w
    = None.
Proof.
  intros Hsrc fuel. unfold OrbitImportPod.getAllMembers.
  generalize (@nil OrbitMemberData). generalize "". revert w.
  induction fuel as [|fuel IH]; intros w link members; [done|].
  simpl.
  destruct (Hsrc (requests w)
              (OrbitImportPod.members_request (token config)
                 (workspaceSlug config) link)) as (m & ms & next & Hget).
  rewrite (getMembersFromOrbit_ok stringifyError _ _ _ _ _ _ Hget).
  simpl. apply IH.
Qed.
End FetcherMore.

Lemma nonempty_page_returned_witness :
  OrbitImportPod.getMembersFromOrbit sample_stringifyError two_pages "secret"
    "ws" "" sample_world
  = (Ok ([alice], Some "https://orbit/page2"),
     with_request sample_world (OrbitImportPod.members_request "secret" "ws" "")).
Proof.
  apply (nonempty_page_returned sample_stringifyError two_pages "secret" "ws"
           "" sample_world
           {| data := [alice]; links_next := Some "https://orbit/page2" |}).
  - reflexivity.
  - discriminate.
Defined.

Lemma getAllMembers_requests_witness :
  engine (with_request
            (with_request sample_world
               (OrbitImportPod.members_request "secret" "ws" ""))
            (OrbitImportPod.members_request "secret" "ws" "https://orbit/page2"))
  = engine sample_world
  ∧ prompts (with_request
               (with_request sample_world
                  (OrbitImportPod.members_request "secret" "ws" ""))
               (OrbitImportPod.members_request "secret" "ws"
                  "https://orbit/page2"))
    = prompts sample_world
  ∧ ∃ rest : list Request,
      requests (with_request
                  (with_request sample_world
                     (OrbitImportPod.members_request "secret" "ws" ""))
                  (OrbitImportPod.members_request "secret" "ws"
                     "https://orbit/page2"))
      = requests sample_world
        ++ {| url := "https://app.orbit.love/api/v1/"
                     +:+ workspaceSlug sample_config +:+ "/members?items=100";
              authorization := "Bearer " +:+ token sample_config |} :: rest
      ∧ Forall (fun q => authorization q = "Bearer " +:+ token sample_config)
          rest.
Proof.
  apply (getAllMembers_requests sample_stringifyError two_pages 5 sample_config
           sample_world _ (Ok [alice; bob])).
  reflexivity.
Defined.

Lemma getAllMembers_endless_witness :
  OrbitImportPod.getAllMembers sample_stringifyError endless_pages 25
    sample_config sample_world
  = None.
Proof.
  apply (getAllMembers_endless sample_stringifyError endless_pages
           sample_config sample_world).
  intros h q. by exists alice, [], "https://orbit/next".
Defined.

(** ** Import of a single member *)

Section SingleMember.
Variable cleanFname : string -> string.
Variable stringifyError : AxiosError -> string.
Variables now_iso today vaultName : string.
Variable axios_get_members : list Request -> Request -> AxiosError + Page.
Variable axios_get_member : list Request -> Request -> AxiosError + OrbitMemberData.
Variable handleConflict :
  list (option Conflict) -> option Conflict -> MergeConflictOptions.t.

(** Once the members are fetched the run always returns, and sends no
    request. *)
Lemma plant_members_returns (members : list OrbitMemberData)
    (config : OrbitImportPodConfig) (w : World) :
  ∃ (r : Result (list NoteProps)) (w' : World),
    OrbitImportPod.plant_members cleanFname now_iso today handleConflict
      members vaultName config w
    = Some (r, w')
    ∧ requests w' = requests w.
Proof.
  destruct (OrbitImportPod.membersToNotes cleanFname now_iso today members
              vaultName (engine w) config)
    as [[[create conflicts]|e] e'] eqn:H.
  - rewrite (plant_members_resolve _ _ _ _ _ _ _ _ _ _ _ H).
    eexists _, _. split; [reflexivity|].
    by destruct (resolve_queue_effects handleConflict config conflicts
                   (with_engine w (bulkAddNotes create e')))
      as (_ & _ & _ & _ & -> & _).
  - unfold OrbitImportPod.plant_members. rewrite H. by eexists _, _.
Qed.

(** X21. With an [orbitId] configured the run returns whatever the bound
    on pages, and by then it has sent exactly one request, to the address
    of that member: no listing request, and no request after that one.
    When the request fails, the run ends with what [axios.get] threw, as
    it is (it is not made a [DendronError] as a failed page fetch is),
    and neither the engine nor the decision source is touched; when it
    succeeds, the run is the import of the one member that was
    answered. *)
Theorem single_member_import (fuel : nat) (config : OrbitImportPodConfig)
    (w : World) (memberId : string) :
  orbitId config = Some memberId ->
  ∃ (r : Result (list NoteProps)) (w' : World),
    OrbitImportPod.plant cleanFname stringifyError now_iso today
      axios_get_members axios_get_member handleConflict fuel vaultName config w
    = Some (r, w')
    ∧ requests w'
      = requests w
        ++ [ {| url := "https://app.orbit.love/api/v1/" +:+ workspaceSlug config
                       +:+ "/members/" +:+ memberId;
                authorization := "Bearer " +:+ token config |} ]
    ∧ match
        axios_get_member (requests w)
          {| url := "https://app.orbit.love/api/v1/" +:+ workspaceSlug config
                    +:+ "/members/" +:+ memberId;
             authorization := "Bearer " +:+ token config |}
      with
      | inl error =>
          r = Throw (UncaughtAxiosError error)
          ∧ engine w' = engine w
          ∧ prompts w' = prompts w
      | inr member =>
          ∃ w1 : World,
            requests w1 = requests w'
            ∧ prompts w1 = prompts w
            ∧ engine w1 = engine w
            ∧ OrbitImportPod.plant_members cleanFname now_iso today
                handleConflict [member] vaultName config w1
              = Some (r, w')
      end.
Proof.
  intros Hid. unfold OrbitImportPod.plant, OrbitImportPod.getSingleMember.
  rewrite Hid.
  destruct (axios_get_member _ _) as [error|member].
  - by eexists _, _.
  - match goal with
    | |- context [OrbitImportPod.plant_members _ _ _ _ _ _ _ ?w1] =>
        destruct (plant_members_returns [member] config w1)
          as (r & w' & Hrun & Hreq)
    end.
    exists r, w'. split; [exact Hrun|]. split; [by rewrite Hreq|].
    eexists. split; [symmetry; exact Hreq|]. split; [done|]. split; [done|].
    exact Hrun.
Qed.
End SingleMember.

Lemma single_member_import_witness :
  ∃ (r : Result (list NoteProps)) (w' : World),
    OrbitImportPod.plant sample_cleanFname sample_stringifyError
      "2021-07-01T00:00:00.000Z" "2021.07.01" two_pages knows_bob always_skip 0
      "vault" single_config bob_world
    = Some (r, w')
    ∧ requests w'
      = requests bob_world
        ++ [ {| url := "https://app.orbit.love/api/v1/"
                       +:+ workspaceSlug single_config +:+ "/members/" +:+ "m2";
                authorization := "Bearer " +:+ token single_config |} ]
    ∧ match
        knows_bob (requests bob_world)
          {| url := "https://app.orbit.love/api/v1/"
                    +:+ workspaceSlug single_config +:+ "/members/" +:+ "m2";
             authorization := "Bearer " +:+ token single_config |}
      with
      | inl error =>
          r = Throw (UncaughtAxiosError error)
          ∧ engine w' = engine bob_world
          ∧ prompts w' = prompts bob_world
      | inr member =>
          ∃ w1 : World,
            requests w1 = requests w'
            ∧ prompts w1 = prompts bob_world
            ∧ engine w1 = engine bob_world
            ∧ OrbitImportPod.plant_members sample_cleanFname
                "2021-07-01T00:00:00.000Z" "2021.07.01" always_skip [member]
                "vault" single_config w1
              = Some (r, w')
      end.
Proof.
  apply (single_member_import sample_cleanFname sample_stringifyError
           "2021-07-01T00:00:00.000Z" "2021.07.01" "vault" two_pages knows_bob
           always_skip 0 single_config bob_world "m2").
  reflexivity.
Defined.

(** The single-member run over the store that holds [people.bob]: one
    request, one question to the decision source, and the conflicted note
    as output. *)
Lemma single_member_run :
  ∃ w' : World,
    OrbitImportPod.plant sample_cleanFname sample_stringifyError
      "2021-07-01T00:00:00.000Z" "2021.07.01" two_pages knows_bob always_skip 0
      "vault" single_config bob_world
    = Some (Ok [bob_existing], w')
    ∧ requests w'
      = [ {| url := "https://app.orbit.love/api/v1/ws/members/m2";
             authorization := "Bearer secret" |} ]
    ∧ length (prompts w') = 1%nat
    ∧ calls (engine w') = [BulkAddNotes []].
Proof.
  eexists. split; [vm_compute; reflexivity|]. repeat split.
Qed.

(** A failed single-member request: the raw error, one request, the
    engine untouched. *)
Lemma single_member_failure :
  OrbitImportPod.plant sample_cleanFname sample_stringifyError
    "2021-07-01T00:00:00.000Z" "2021.07.01" two_pages no_member always_skip 0
    "vault" single_config sample_world
  = Some (Throw (UncaughtAxiosError (BadStatus 404)),
          {| requests :=
               [ {| url := "https://app.orbit.love/api/v1/ws/members/m2";
                    authorization := "Bearer secret" |} ];
             prompts := [];
             engine := sample_engine |}).
Proof. reflexivity. Qed.

(** ** Menu of the decision source *)

Section Menu.
(** The text of an option of [MergeConflictOptions]. *)
Variable label : MergeConflictOptions.t -> string.

(** X22. Against the menu of the pod (overwrite, skip, skip all), whose
    options have a text, [validateMergeConflictResponse] accepts the
    choices 0, 1 and 2 and answers anything else with the message
    [Invalid Choice! Choose 0/1]: the third option is a valid choice
    although the message names two. *)
Theorem validate_menu_choice (choice : Z) :
  (∀ o, label o ≠ "") ->
  OrbitImportPod.validateMergeConflictResponse choice
    (label <$> OrbitImportPod.getMergeConflictOptions)
  = if decide (0 ≤ choice ≤ 2)%Z then OrbitImportPod.Valid
    else OrbitImportPod.Invalid "Invalid Choice! Choose 0/1".
Proof.
  intros Hlabel.
  assert (Htruthy : ∀ o, OrbitUtils.truthy (Some (label o)) = true).
  { intros o. simpl. apply negb_true_iff, String.eqb_neq, Hlabel. }
  unfold OrbitImportPod.validateMergeConflictResponse, OrbitImportPod.option_at.
  case_decide as Hrange.
  - destruct (Z.leb_spec 0 choice); [|lia].
    assert (∃ o, (label <$> OrbitImportPod.getMergeConflictOptions)
                 !! Z.to_nat choice = Some (label o)) as [o ->];
      [|by rewrite Htruthy].
    assert (Z.to_nat choice = 0 ∨ Z.to_nat choice = 1 ∨ Z.to_nat choice = 2)%nat
      as [-> | [-> | ->]] by lia; by eexists.
  - destruct (Z.leb_spec 0 choice); [|done].
    rewrite lookup_ge_None_2; [done|]. simpl. lia.
Qed.

(** X23. In general a choice is valid exactly when it is an index of the
    menu at which an option with a text stands: a negative choice, a choice
    past the end, and the index of an empty text are all rejected. *)
Theorem validate_choice_spec (choice : Z) (options : list string) :
  OrbitImportPod.validateMergeConflictResponse choice options
  = OrbitImportPod.Valid
  ↔ ∃ s : string,
      (0 ≤ choice)%Z ∧ options !! Z.to_nat choice = Some s ∧ s ≠ "".
Proof.
  unfold OrbitImportPod.validateMergeConflictResponse, OrbitImportPod.option_at.
  destruct (Z.leb_spec 0 choice) as [Hpos|Hneg].
  - destruct (options !! Z.to_nat choice) as [s|]; simpl.
    + destruct (String.eqb s "") eqn:E; simpl.
      * apply String.eqb_eq in E. split; [done|].
        intros (s' & _ & Hs & Hne). congruence.
      * apply String.eqb_neq in E. split; [|done]. intros _. by exists s.
    + split; [done|]. by intros (s & _ & Hs & _).
  - simpl. split; [done|]. intros (s & Hpos & _). lia.
Qed.
End Menu.

Lemma validate_menu_choice_witness :
  OrbitImportPod.validateMergeConflictResponse 2
    (sample_label <$> OrbitImportPod.getMergeConflictOptions)
  = if decide (0 ≤ 2 ≤ 2)%Z then OrbitImportPod.Valid
    else OrbitImportPod.Invalid "Invalid Choice! Choose 0/1".
Proof.
  apply (validate_menu_choice sample_label 2). by intros [].
Defined.

Lemma validate_choice_spec_witness :
  OrbitImportPod.validateMergeConflictResponse 1 ["yes"; "no"]
  = OrbitImportPod.Valid.
Proof.
  apply (validate_choice_spec 1 ["yes"; "no"]).
  exists "no". split; [lia|]. split; [reflexivity|discriminate].
Defined.

(** ** Name from an e-mail address *)

Section EmailName.

Lemma split_at_0_no_at (s : string) : has_at (OrbitUtils.split_at_0 s) = false.
Proof.
  induction s as [|c rest IH]; [done|]. simpl.
  destruct (Ascii.eqb c "@") eqn:E; [done|]. simpl. by rewrite E.
Qed.

Lemma split_at_0_prefix (s : string) :
  ∃ rest, s = OrbitUtils.split_at_0 s +:+ rest.
Proof.
  induction s as [|c rest [r IH]]; [by exists ""|]. simpl.
  destruct (Ascii.eqb c "@").
  - by eexists.
  - exists r.
    change (String c (OrbitUtils.split_at_0 rest) +:+ r)
      with (String c (OrbitUtils.split_at_0 rest +:+ r)).
    by f_equal.
Qed.

(** X24. The name taken from an address [local@domain] whose local part
    holds no ["@"] is the local part, whatever the domain. *)
Theorem getNameFromEmail_local (local domain : string) :
  has_at local = false ->
  OrbitUtils.getNameFromEmail (Some (local +:+ "@" +:+ domain)) = Some local.
Proof.
  intros Hlocal.
  assert (Hsplit : OrbitUtils.split_at_0 (local +:+ "@" +:+ domain) = local).
  { induction local as [|c rest IH]; [done|]. simpl in *.
    destruct (Ascii.eqb c "@"); [done|]. simpl in Hlocal. by rewrite IH. }
  unfold OrbitUtils.getNameFromEmail.
  assert (OrbitUtils.truthy (Some (local +:+ "@" +:+ domain)) = true) as ->.
  { by destruct local. }
  by rewrite Hsplit.
Qed.

(** X25. [getNameFromEmail] gives nothing exactly for a missing or empty
    address; what it gives otherwise is the beginning of the address and
    holds no ["@"] (it is empty when the address begins with one). *)
Theorem getNameFromEmail_shape (email : option string) :
  match OrbitUtils.getNameFromEmail email with
  | Some name =>
      has_at name = false
      ∧ ∃ e rest, email = Some e ∧ e ≠ "" ∧ e = name +:+ rest
  | None => email = None ∨ email = Some ""
  end.
Proof.
  destruct email as [e|]; [|by left].
  unfold OrbitUtils.getNameFromEmail. simpl.
  destruct (String.eqb e "") eqn:E; simpl.
  - apply String.eqb_eq in E. subst. by right.
  - apply String.eqb_neq in E. split; [apply split_at_0_no_at|].
    destruct (split_at_0_prefix e) as [rest Hrest].
    by exists e, rest.
Qed.
End EmailName.

Lemma getNameFromEmail_local_witness :
  OrbitUtils.getNameFromEmail (Some ("alice" +:+ "@" +:+ "x.com"))
  = Some "alice".
Proof.
  apply (getNameFromEmail_local "alice" "x.com"). reflexivity.
Defined.

(** ** Order of the buckets *)

Section BucketOrder.
Variable cleanFname : string -> string.
Variables now_iso today vaultName : string.
Variable engine : Engine.
Variable config : OrbitImportPodConfig.

(** X26. The buckets follow the records: the names of the created notes
    come in the order of their records, and the conflicted notes of the
    queue come in the order in which the lookups of the records found
    them. *)
Theorem buckets_follow_records (members : list OrbitMemberData) :
  fname <$> OrbitImportPod.create
              (OrbitImportPod.plan_members cleanFname now_iso today members
                 vaultName engine config)
    `sublist_of` (fun m => "people." +:+ OrbitUtils.cleanName cleanFname m)
                   <$> members
  ∧ conflictNote <$> OrbitImportPod.conflicts
                       (OrbitImportPod.plan_members cleanFname now_iso today
                          members vaultName engine config)
    `sublist_of` omap (fun m => OrbitImportPod.lookup_note config engine
                                  (OrbitUtils.cleanName cleanFname m))
                   members.
Proof.
  destruct (plan_members_actions cleanFname now_iso today vaultName engine
              config members) as (-> & -> & _).
  split.
  - apply omap_fmap_sublist_total. intros m n Ha. simpl in Ha.
    unfold plan_action in Ha.
    destruct (notes engine !! _) as [n'|].
    + by destruct (OrbitImportPod.getConflictedData n' m).
    + simpl in Ha. by inversion Ha.
  - apply omap_fmap_sublist. intros m c Ha. simpl in Ha.
    rewrite lookup_note_key. unfold plan_action in Ha.
    destruct (notes engine !! _) as [n'|]; [|done].
    destruct (OrbitImportPod.getConflictedData n' m); [done|].
    simpl in Ha. by inversion Ha.
Qed.
End BucketOrder.

Lemma update_bucket_spec_witness :
  (carol_null, carol)
  ∈ OrbitImportPod.notesToUpdate
      (OrbitImportPod.plan_members sample_cleanFname "2021-07-01T00:00:00.000Z"
         "2021.07.01" [alice; bob; carol] "vault" mixed_engine sample_config).
Proof.
  apply (update_bucket_spec sample_cleanFname "2021-07-01T00:00:00.000Z"
           "2021.07.01" "vault" mixed_engine sample_config [alice; bob; carol]
           carol_null carol).
  split; [|split; reflexivity].
  apply (bool_decide_unpack _). vm_compute. exact I.
Defined.
